(** * ESP32 seismograph: event detection and event records

    A shallow embedding of the firmware's detector ([Seismograph]), its clock
    ([TimeManager]), the persistence adapter ([DataLogger]) and the event
    queue of [DualCoreManager], with the properties the specification states
    about them.

    Conventions of the embedding.
    - A C++ [float] is a real number: arithmetic is exact, there is no
      rounding, no overflow and no NaN, so [isnan] is constantly false.
      Statements that depend on exact sums say so.  The drift check, whose
      outcome a NaN changes, is given a second time with its long-term
      average as a number or a NaN ([checkCalibrationDriftF]).
    - [unsigned long] is 32 bits wide on the ESP32: such values are integers
      in [0, 2^32) and subtraction wraps around ([usub]).
    - [millis()] reads the field [clock] of the world; [delay d] advances it
      by [d]; code between two delays runs in zero time.
    - Serial logging and the statics that only rate-limit it are left out:
      they influence no field of the state. *)

From Stdlib Require Import Reals Lra ZArith Lia String.
From stdpp Require Import base list sorting.

Local Open Scope R_scope.

(** ** Decidable comparisons on floats *)

#[global] Instance Rlt_decision : RelDecision Rlt := Rlt_dec.
#[global] Instance Rle_decision : RelDecision Rle := Rle_dec.
#[global] Instance Rgt_decision : RelDecision Rgt := Rgt_dec.
#[global] Instance Rge_decision : RelDecision Rge := Rge_dec.
#[global] Instance Req_decision : EqDecision R := Req_dec_T.

(** Case analysis on every comparison left in the goal, closing what linear
    arithmetic closes. *)
Ltac rcases :=
  repeat (case_decide; try lra); try lra.

(** ** Configuration (config.h) *)

Module Config.
Definition THRESHOLD_MICRO : R := 0.001.
Definition THRESHOLD_LIGHT : R := 0.005.
Definition THRESHOLD_STRONG : R := 0.02.
Definition STA_WINDOW : nat := 25.
Definition LTA_WINDOW : nat := 2500.
Definition STA_LTA_RATIO : R := 2.5.
Definition MIN_EVENT_DURATION : Z := 100.
Definition NTP_SYNC_INTERVAL : Z := 3600000.
Definition EVENT_QUEUE_SIZE : nat := 20.
Definition MPU6050_ACCEL_SCALE : R := 16384.
Definition LOCAL_MAGNITUDE_OFFSET : R := 0.
Definition SPIKE_MEDIAN_MULTIPLIER : R := 5.
Definition SPIKE_THRESHOLD_MULTIPLIER : R := 2.
End Config.
Import Config.

(** ** Arduino and libm helpers *)

(** [unsigned long] arithmetic. *)
Definition ULONG_MOD : Z := 2 ^ 32.
Definition wrap32 (z : Z) : Z := (z mod ULONG_MOD)%Z.
Definition uadd (a b : Z) : Z := wrap32 (a + b).
Definition usub (a b : Z) : Z := wrap32 (a - b).
Definition umul (a b : Z) : Z := wrap32 (a * b).

(** The [constrain(amt, low, high)] macro. *)
Definition constrain (amt low high : R) : R :=
  if decide (amt < low) then low else if decide (amt > high) then high else amt.

(** [constrain] on [unsigned long]. *)
Definition constrainZ (amt low high : Z) : Z :=
  if decide (amt < low)%Z then low else if decide (amt > high)%Z then high else amt.

(** [abs] on floats. *)
Definition fabs (x : R) : R := if decide (x > 0) then x else - x.

(** No float of the model is a NaN. *)
Definition isnan (x : R) : bool := false.

Definition log10 (x : R) : R := ln x / ln 10.

(** [pow(10.0f, y)]. *)
Definition pow10 (y : R) : R := Rpower 10 y.

(** Truncation toward zero: the fraction is dropped. *)
Definition truncate (x : R) : Z :=
  if decide (x < 0) then (- Int_part (- x))%Z else Int_part x.

(** Conversion of a float to [unsigned long]: the value is truncated toward
    zero, so a float above -1 and below 0 gives 0. (C++ leaves the
    conversion undefined when the truncated value is negative or above
    [ULONG_MAX]; here it is wrapped.) *)
Definition float_to_ulong (x : R) : Z := wrap32 (truncate x).

(** ** TimeManager (time_manager.h and its implementation) *)

Module TimeManager.

(** [ntpEpoch] is what [timeClient.getEpochTime()] of the NTP client
    library returns. *)
Record t := mk {
  initialized : bool;
  lastSync : Z;
  bootTime : Z;
  ntpEpoch : Z
}.

(** The constructor. *)
Definition init (ntp : Z) : t :=
  {| initialized := false; lastSync := 0; bootTime := 0; ntpEpoch := ntp |}.

Definition getEpochTime (now : Z) (tm : t) : Z :=
  if initialized tm then ntpEpoch tm
  else uadd (bootTime tm) (now / 1000).

Definition isTimeValid (now : Z) (tm : t) : bool :=
  initialized tm && bool_decide (usub now (lastSync tm) < NTP_SYNC_INTERVAL * 2)%Z.

(** 2020-01-01T00:00:00Z. *)
Definition EPOCH_2020 : Z := 1577836800.

(** A successful [timeClient.forceUpdate()]: the client now reports [epoch]
    and [lastSync] is set to [millis()]. *)
Definition synced (now epoch : Z) (tm : t) : t :=
  {| initialized := initialized tm; lastSync := now;
     bootTime := bootTime tm; ntpEpoch := epoch |}.

(** [syncWithNTP] tries the three servers in turn; [r1], [r2], [r3] are the
    outcomes of the three calls of [forceUpdate]: [Some epoch] on success. *)
Definition syncWithNTP (now : Z) (r1 r2 r3 : option Z) (tm : t) : bool * t :=
  match r1 with
  | Some epoch => (true, synced now epoch tm)
  | None =>
      match r2 with
      | Some epoch => (true, synced now epoch tm)
      | None =>
          match r3 with
          | Some epoch => (true, synced now epoch tm)
          | None => (false, tm)
          end
      end
  end.

(** [begin], given whether WiFi is connected. *)
Definition begin (wifi : bool) (now : Z) (r1 r2 r3 : option Z) (tm : t) : bool * t :=
  if negb wifi then (false, tm)
  else
    match syncWithNTP now r1 r2 r3 tm with
    | (true, tm1) =>
        let tm2 := {| initialized := true; lastSync := lastSync tm1;
                      bootTime := bootTime tm1; ntpEpoch := ntpEpoch tm1 |} in
        (true,
         {| initialized := true; lastSync := lastSync tm1;
            bootTime := usub (getEpochTime now tm2) (now / 1000);
            ntpEpoch := ntpEpoch tm1 |})
    | (false, tm1) =>
        (false,
         {| initialized := false; lastSync := lastSync tm1;
            bootTime := bootTime tm1; ntpEpoch := ntpEpoch tm1 |})
    end.

Definition forceSync (wifi : bool) (now : Z) (r1 r2 r3 : option Z) (tm : t) : t :=
  if wifi then (syncWithNTP now r1 r2 r3 tm).2 else tm.

(** [loop]; [updated] is the epoch the client reports after
    [timeClient.update()]. *)
Definition loop (wifi : bool) (now : Z) (r1 r2 r3 : option Z) (updated : Z) (tm : t) : t :=
  if negb (initialized tm) then tm
  else
    let tm1 :=
      if decide (usub now (lastSync tm) >= NTP_SYNC_INTERVAL)%Z then
        if wifi then (syncWithNTP now r1 r2 r3 tm).2 else tm
      else tm in
    {| initialized := initialized tm1; lastSync := lastSync tm1;
       bootTime := bootTime tm1; ntpEpoch := updated |}.

End TimeManager.

(** ** Data exchanged between the components *)

(** One frame of [mpu.getMotion6]: the three raw accelerations ([int16_t]). *)
Record Frame := mkFrame { raw_ax : Z; raw_ay : Z; raw_az : Z }.

Module SensorData.
Record t := mk {
  accelX : R;
  accelY : R;
  accelZ : R;
  magnitude : R;
  timestamp : Z
}.
End SensorData.

(** [SeismicEventData] of data_logger.h, without the formatted strings
    ([datetimeISO], [richterRange]) and the constant labels. *)
Module SeismicEventData.
Record t := mk {
  timestamp : Z;
  ntpValidated : bool;
  bootTimeMs : Z;
  eventType : string;
  intensityLevel : Z;
  confidence : R;
  pgaG : R;
  richterMagnitude : R;
  localMagnitude : R;
  durationMs : Z;
  peakFrequencyHz : R;
  energyJoules : R;
  maxAccelX : R;
  maxAccelY : R;
  maxAccelZ : R;
  vectorMagnitude : R;
  calibrationValid : bool;
  calibrationAgeHours : R;
  triggerRatio : R;
  staWindowSamples : nat;
  ltaWindowSamples : nat;
  backgroundNoise : R;
  source : string;
  dataQuality : string
}.
End SeismicEventData.

Module EventPacket.
Record t := mk {
  eventType : string;
  magnitude : R;
  level : Z;
  timestamp : Z
}.
End EventPacket.

(** ** DataLogger: the seismic file and what is handed to the broker *)

Module DataLogger.

(** [fileOpens] tells whether [LittleFS.open] succeeds; [seismicFile] holds
    the records appended under /seismic, oldest first; [mqttSeismic] the
    records given to [publishSeismicEvent]. *)
Record t := mk {
  initialized : bool;
  fileOpens : bool;
  seismicFile : list SeismicEventData.t;
  mqttConnected : bool;
  mqttSeismic : list SeismicEventData.t
}.

Definition logSeismicEvent (eventData : SeismicEventData.t) (dl : t) : bool * t :=
  if negb (initialized dl) then (false, dl)
  else if negb (SeismicEventData.ntpValidated eventData) then (false, dl)
  else if negb (fileOpens dl) then (false, dl)
  else
    (true,
     {| initialized := initialized dl;
        fileOpens := fileOpens dl;
        seismicFile := seismicFile dl ++ [eventData];
        mqttConnected := mqttConnected dl;
        mqttSeismic := if mqttConnected dl then mqttSeismic dl ++ [eventData]
                       else mqttSeismic dl |}).

End DataLogger.

(** ** DualCoreManager: the event queue *)

Module DualCoreManager.

(** [eventQueue] is [None] while the queue handle is null. *)
Record t := mk { eventQueue : option (list EventPacket.t) }.

(** [xQueueSend] with a timeout of zero ticks: a full queue refuses. *)
Definition sendEvent (event : EventPacket.t) (cm : t) : bool * t :=
  match eventQueue cm with
  | None => (false, cm)
  | Some q =>
      if decide (length q < EVENT_QUEUE_SIZE)%nat
      then (true, {| eventQueue := Some (q ++ [event]) |})
      else (false, cm)
  end.

End DualCoreManager.

(** ** The world around the detector *)

(** [mpuFrames k] is the frame the [k]-th call of [getMotion6] returns and
    [mpuReads] counts the calls made so far; the two globals are [None] while
    the pointers are null. *)
Record World := mkWorld {
  clock : Z;
  timeManager : TimeManager.t;
  globalDataLogger : option DataLogger.t;
  globalCoreManager : option DualCoreManager.t;
  mpuFrames : nat -> Frame;
  mpuReads : nat
}.

Definition millis (w : World) : Z := clock w.

Definition delay (d : Z) (w : World) : World :=
  {| clock := uadd (clock w) d;
     timeManager := timeManager w;
     globalDataLogger := globalDataLogger w;
     globalCoreManager := globalCoreManager w;
     mpuFrames := mpuFrames w;
     mpuReads := mpuReads w |}.

Definition getMotion6 (w : World) : Frame * World :=
  (mpuFrames w (mpuReads w),
   {| clock := clock w;
      timeManager := timeManager w;
      globalDataLogger := globalDataLogger w;
      globalCoreManager := globalCoreManager w;
      mpuFrames := mpuFrames w;
      mpuReads := S (mpuReads w) |}).

Definition set_globalDataLogger (dl : option DataLogger.t) (w : World) : World :=
  {| clock := clock w;
     timeManager := timeManager w;
     globalDataLogger := dl;
     globalCoreManager := globalCoreManager w;
     mpuFrames := mpuFrames w;
     mpuReads := mpuReads w |}.

Definition set_globalCoreManager (cm : option DualCoreManager.t) (w : World) : World :=
  {| clock := clock w;
     timeManager := timeManager w;
     globalDataLogger := globalDataLogger w;
     globalCoreManager := cm;
     mpuFrames := mpuFrames w;
     mpuReads := mpuReads w |}.

(** ** Seismograph: the magnitude model (pure member functions) *)

Definition calculateMagnitude (x y z : R) : R := sqrt (x * x + y * y + z * z).

Definition calculateRichterMagnitude (acceleration : R) : R :=
  if decide (acceleration <= 0) then -10
  else
    let pga_mm_s2 := acceleration * 9806.65 in
    let magnitude := log10 pga_mm_s2 - LOCAL_MAGNITUDE_OFFSET in
    constrain magnitude (-2) 10.

Definition calculateLocalMagnitude (acceleration : R) : R :=
  if decide (acceleration <= 0) then -10
  else
    let velocity_approx := acceleration / (2 * PI * 5) in
    let local_magnitude := log10 (velocity_approx * 1000000) - 2 in
    let local_magnitude := local_magnitude - LOCAL_MAGNITUDE_OFFSET in
    constrain local_magnitude (-3) 8.

Definition classifyEvent (magnitude : R) : Z :=
  let richter := calculateRichterMagnitude magnitude in
  if decide (richter >= 7) then 6
  else if decide (richter >= 6) then 5
  else if decide (richter >= 5) then 4
  else if decide (richter >= 4) then 3
  else if decide (richter >= 2) then 2
  else 1.

Definition getEventTypeFromRichter (richter : R) : string :=
  if decide (richter >= 7) then "Major"
  else if decide (richter >= 6) then "Strong"
  else if decide (richter >= 5) then "Moderate"
  else if decide (richter >= 4) then "Light"
  else if decide (richter >= 2) then "Minor"
  else "Micro".

Definition getIntensityLevelFromRichter (richter : R) : Z :=
  if decide (richter >= 7) then 6
  else if decide (richter >= 6) then 5
  else if decide (richter >= 5) then 4
  else if decide (richter >= 4) then 3
  else if decide (richter >= 2) then 2
  else 1.

Definition calculateEnergyJoules (richter : R) : R :=
  if decide (richter < -2) then 0
  else
    let logEnergy := 11.8 + 1.5 * richter in
    let energy := pow10 logEnergy in
    constrain energy 1 (10 ^ 20).

Definition calculatePeakFrequency (magnitude : R) : R :=
  let frequency := 30 - magnitude * 50 in
  constrain frequency 1 30.

Definition calculatePGAFromRichter (richter : R) : R :=
  let richter :=
    if decide (richter < -2 \/ richter > 10) then constrain richter (-2) 10
    else richter in
  let pga_mm_s2 := pow10 (richter + LOCAL_MAGNITUDE_OFFSET) in
  let pga_g := pga_mm_s2 / 9806.65 in
  constrain pga_g 0.0001 10.

Definition calculateEventDuration (richter : R) : Z :=
  let duration :=
    if decide (richter < 2) then float_to_ulong (100 + richter * 200)
    else if decide (richter < 4) then float_to_ulong (1000 + (richter - 2) * 2000)
    else if decide (richter < 6) then float_to_ulong (5000 + (richter - 4) * 12500)
    else if decide (richter < 7) then float_to_ulong (30000 + (richter - 6) * 90000)
    else float_to_ulong (120000 + (richter - 7) * 180000) in
  constrainZ duration 100 300000.

(** ** Seismograph: the state, grouped as the class declaration groups it *)

(** Calibration data and calibration monitoring. *)
Record Calibration := mkCalibration {
  offsetX : R;
  offsetY : R;
  offsetZ : R;
  calibrated : bool;
  lastCalibrationOffsets : R * R * R;
  lastCalibrationTime : Z;
  baselineLTA : R;
  lastDriftCheck : Z;
  calibrationValid : bool
}.

(** STA/LTA algorithm variables. *)
Record StaLta := mkStaLta {
  staBuffer : list R;
  ltaBuffer : list R;
  staIndex : nat;
  ltaIndex : nat;
  staSum : R;
  ltaSum : R;
  staFull : bool;
  ltaFull : bool
}.

(** Event detection. *)
Record EventState := mkEventState {
  eventActive : bool;
  eventStartTime : Z;
  eventMaxMagnitude : R;
  eventSumMagnitude : R;
  eventSampleCount : Z
}.

(** Adaptive thresholds. *)
Record Adaptive := mkAdaptive {
  adaptiveThresholdMicro : R;
  adaptiveThresholdLight : R;
  adaptiveThresholdStrong : R;
  backgroundNoise : R;
  lastAdaptiveUpdate : Z;
  adaptiveThresholdEnabled : bool
}.

(** Spike filtering. *)
Record Spike := mkSpike {
  lastMagnitudes : list R;
  magnitudeIndex : nat;
  magnitudeBufferFull : bool
}.

(** Statistics. *)
Record Stats := mkStats {
  totalSamples : Z;
  eventsDetected : Z;
  spikesFiltered : Z;
  lastMagnitude : R
}.

Record Seismograph := mkSeismograph {
  initialized : bool;
  detailedLoggingEnabled : bool;
  cal : Calibration;
  stalta : StaLta;
  event : EventState;
  adaptive : Adaptive;
  spike : Spike;
  stats : Stats
}.

Definition set_initialized (b : bool) (s : Seismograph) : Seismograph :=
  mkSeismograph b (detailedLoggingEnabled s) (cal s) (stalta s) (event s)
                (adaptive s) (spike s) (stats s).
Definition set_cal (c : Calibration) (s : Seismograph) : Seismograph :=
  mkSeismograph (initialized s) (detailedLoggingEnabled s) c (stalta s) (event s)
                (adaptive s) (spike s) (stats s).
Definition set_stalta (x : StaLta) (s : Seismograph) : Seismograph :=
  mkSeismograph (initialized s) (detailedLoggingEnabled s) (cal s) x (event s)
                (adaptive s) (spike s) (stats s).
Definition set_event (e : EventState) (s : Seismograph) : Seismograph :=
  mkSeismograph (initialized s) (detailedLoggingEnabled s) (cal s) (stalta s) e
                (adaptive s) (spike s) (stats s).
Definition set_adaptive (a : Adaptive) (s : Seismograph) : Seismograph :=
  mkSeismograph (initialized s) (detailedLoggingEnabled s) (cal s) (stalta s) (event s)
                a (spike s) (stats s).
Definition set_spike (p : Spike) (s : Seismograph) : Seismograph :=
  mkSeismograph (initialized s) (detailedLoggingEnabled s) (cal s) (stalta s) (event s)
                (adaptive s) p (stats s).
Definition set_stats (t : Stats) (s : Seismograph) : Seismograph :=
  mkSeismograph (initialized s) (detailedLoggingEnabled s) (cal s) (stalta s) (event s)
                (adaptive s) (spike s) t.

(** The constructor [Seismograph::Seismograph()]. *)
Definition Seismograph_new : Seismograph :=
  {| initialized := false;
     detailedLoggingEnabled := false;
     cal := {| offsetX := 0; offsetY := 0; offsetZ := 0;
               calibrated := false;
               lastCalibrationOffsets := (0, 0, 0);
               lastCalibrationTime := 0;
               baselineLTA := 0;
               lastDriftCheck := 0;
               calibrationValid := false |};
     stalta := {| staBuffer := replicate STA_WINDOW 0;
                  ltaBuffer := replicate LTA_WINDOW 0;
                  staIndex := 0; ltaIndex := 0;
                  staSum := 0; ltaSum := 0;
                  staFull := false; ltaFull := false |};
     event := {| eventActive := false;
                 eventStartTime := 0;
                 eventMaxMagnitude := 0;
                 eventSumMagnitude := 0;
                 eventSampleCount := 0 |};
     adaptive := {| adaptiveThresholdMicro := THRESHOLD_MICRO;
                    adaptiveThresholdLight := THRESHOLD_LIGHT;
                    adaptiveThresholdStrong := THRESHOLD_STRONG;
                    backgroundNoise := 0.001;
                    lastAdaptiveUpdate := 0;
                    adaptiveThresholdEnabled := true |};
     spike := {| lastMagnitudes := replicate 5 0;
                 magnitudeIndex := 0;
                 magnitudeBufferFull := false |};
     stats := {| totalSamples := 0; eventsDetected := 0;
                 spikesFiltered := 0; lastMagnitude := 0 |} |}.

(** ** Seismograph: STA/LTA, trigger, spike filter, adaptive thresholds *)

(** Reading [buf[i]]; every index the code uses stays inside its array. *)
Definition aget (buf : list R) (i : nat) : R := default 0 (buf !! i).

(** The sum of the elements of a buffer, recomputed from scratch. *)
Definition Rsum (l : list R) : R := foldr Rplus 0 l.

(** Float division that records a division by zero as [None]. *)
Definition fdiv (a b : R) : option R :=
  if decide (b = 0) then None else Some (a / b).

Definition updateSTALTA (magnitude : R) (s : StaLta) : StaLta :=
  let staSum1 := staSum s - aget (staBuffer s) (staIndex s) in
  let staBuffer1 := <[staIndex s := magnitude]> (staBuffer s) in
  let staSum2 := staSum1 + magnitude in
  let staIndex1 := ((staIndex s + 1) mod STA_WINDOW)%nat in
  let staFull1 := if decide (staIndex1 = 0%nat) then true else staFull s in
  let ltaSum1 := ltaSum s - aget (ltaBuffer s) (ltaIndex s) in
  let ltaBuffer1 := <[ltaIndex s := magnitude]> (ltaBuffer s) in
  let ltaSum2 := ltaSum1 + magnitude in
  let ltaIndex1 := ((ltaIndex s + 1) mod LTA_WINDOW)%nat in
  let ltaFull1 := if decide (ltaIndex1 = 0%nat) then true else ltaFull s in
  {| staBuffer := staBuffer1; ltaBuffer := ltaBuffer1;
     staIndex := staIndex1; ltaIndex := ltaIndex1;
     staSum := staSum2; ltaSum := ltaSum2;
     staFull := staFull1; ltaFull := ltaFull1 |}.

(** [checkEventTrigger] with its three divisions made explicit: the result
    is [None] exactly when one of them divides by zero. *)
Definition checkEventTrigger (s : StaLta) : option bool :=
  if negb (staFull s) || negb (ltaFull s) then Some false
  else
    sta ← fdiv (staSum s) (INR STA_WINDOW);
    lta ← fdiv (ltaSum s) (INR LTA_WINDOW);
    if decide (lta = 0) then Some false
    else
      ratio ← fdiv sta lta;
      Some (bool_decide (ratio > STA_LTA_RATIO)).

(** The inner loop of [getMedianMagnitude]: [j] runs over [js]. *)
Fixpoint findMinIdx (sorted : list R) (minIdx : nat) (js : list nat) : nat :=
  match js with
  | [] => minIdx
  | j :: js' =>
      findMinIdx sorted
        (if decide (aget sorted j < aget sorted minIdx) then j else minIdx) js'
  end.

(** One round of the outer loop: select the minimum of [sorted[i..4]] and
    swap it to position [i]. *)
Definition selectRound (sorted : list R) (i : nat) : list R :=
  let minIdx := findMinIdx sorted i (seq (i + 1) (5 - (i + 1))) in
  if decide (minIdx <> i) then
    let temp := aget sorted i in
    let sorted1 := <[i := aget sorted minIdx]> sorted in
    <[minIdx := temp]> sorted1
  else sorted.

Definition getMedianMagnitude (p : Spike) : R :=
  let sorted := foldl selectRound (lastMagnitudes p) (seq 0 3) in
  aget sorted 2.

(** The micro threshold in force. *)
Definition activeThresholdMicro (a : Adaptive) : R :=
  if adaptiveThresholdEnabled a then adaptiveThresholdMicro a else THRESHOLD_MICRO.

Definition isSpikeFiltered (magnitude : R) (st : Seismograph) : bool :=
  if negb (magnitudeBufferFull (spike st)) then false
  else
    let median := getMedianMagnitude (spike st) in
    let thresholdMicro := activeThresholdMicro (adaptive st) in
    let medianMultiplier := SPIKE_MEDIAN_MULTIPLIER in
    let thresholdMultiplier := SPIKE_THRESHOLD_MULTIPLIER in
    let exceedsMedian := bool_decide (magnitude > median * medianMultiplier) in
    let exceedsThreshold := bool_decide (magnitude > thresholdMicro * thresholdMultiplier) in
    if exceedsMedian && exceedsThreshold then true else false.

(** The guard on a computed threshold. *)
Definition validThreshold (computed base : R) : R :=
  if isnan computed || bool_decide (computed <= 0) then base else computed.

Definition updateAdaptiveThresholds (st : Seismograph) (w : World) : Seismograph :=
  let a := adaptive st in
  if negb (adaptiveThresholdEnabled a) then st
  else
    let currentTime := millis w in
    if decide (usub currentTime (lastAdaptiveUpdate a) < 30000)%Z then st
    else if negb (ltaFull (stalta st)) then
      set_adaptive
        (mkAdaptive (adaptiveThresholdMicro a) (adaptiveThresholdLight a)
                    (adaptiveThresholdStrong a) (backgroundNoise a)
                    currentTime (adaptiveThresholdEnabled a)) st
    else
      let lta := ltaSum (stalta st) / INR LTA_WINDOW in
      let lta := if isnan lta || bool_decide (lta < 0.0001) then 0.001 else lta in
      let backgroundNoise1 := lta in
      let adaptationFactor :=
        if bool_decide (THRESHOLD_MICRO > 0) && bool_decide (backgroundNoise1 > 0)
        then 1 + backgroundNoise1 / THRESHOLD_MICRO
        else 1 in
      let adaptationFactor := constrain adaptationFactor 0.5 3 in
      let micro := validThreshold (THRESHOLD_MICRO * adaptationFactor) THRESHOLD_MICRO in
      let light := validThreshold (THRESHOLD_LIGHT * adaptationFactor) THRESHOLD_LIGHT in
      let strong := validThreshold (THRESHOLD_STRONG * adaptationFactor) THRESHOLD_STRONG in
      set_adaptive
        (mkAdaptive
           (constrain micro (THRESHOLD_MICRO * 0.5) (THRESHOLD_MICRO * 3))
           (constrain light (THRESHOLD_LIGHT * 0.5) (THRESHOLD_LIGHT * 3))
           (constrain strong (THRESHOLD_STRONG * 0.5) (THRESHOLD_STRONG * 3))
           backgroundNoise1 currentTime (adaptiveThresholdEnabled a)) st.

Definition checkCalibrationDrift (st : Seismograph) (w : World) : Seismograph :=
  let c := cal st in
  if decide (usub (millis w) (lastDriftCheck c) < 300000)%Z then st
  else
    let c1 := mkCalibration (offsetX c) (offsetY c) (offsetZ c) (calibrated c)
                (lastCalibrationOffsets c) (lastCalibrationTime c) (baselineLTA c)
                (millis w) (calibrationValid c) in
    if negb (calibrationValid c) || negb (ltaFull (stalta st))
       || bool_decide (baselineLTA c <= 0)
    then set_cal c1 st
    else
      let currentLTA := ltaSum (stalta st) / INR LTA_WINDOW in
      let driftPercent := (currentLTA - baselineLTA c) / baselineLTA c * 100 in
      let absDriftPercent := fabs driftPercent in
      let valid1 := if decide (absDriftPercent > 50) then false else calibrationValid c in
      let valid2 :=
        if valid1 && detailedLoggingEnabled st
        then (if isnan currentLTA || bool_decide (currentLTA < 0) then false else valid1)
        else valid1 in
      set_cal
        (mkCalibration (offsetX c) (offsetY c) (offsetZ c) (calibrated c)
           (lastCalibrationOffsets c) (lastCalibrationTime c) (baselineLTA c)
           (millis w) valid2) st.

(** ** Seismograph: sampling and the event life cycle *)

Definition readSensor (st : Seismograph) (w : World)
  : SensorData.t * Seismograph * World :=
  let timestamp := millis w in
  if negb (initialized st) then (SensorData.mk 0 0 0 0 timestamp, st, w)
  else
    let '(f, w1) := getMotion6 w in
    let rawX := IZR (raw_ax f) / MPU6050_ACCEL_SCALE in
    let rawY := IZR (raw_ay f) / MPU6050_ACCEL_SCALE in
    let rawZ := IZR (raw_az f) / MPU6050_ACCEL_SCALE in
    let accelX := rawX - offsetX (cal st) in
    let accelY := rawY - offsetY (cal st) in
    let accelZ := rawZ - offsetZ (cal st) in
    let magnitude := calculateMagnitude accelX accelY accelZ in
    let t := stats st in
    (SensorData.mk accelX accelY accelZ magnitude timestamp,
     set_stats (mkStats (uadd (totalSamples t) 1) (eventsDetected t)
                        (spikesFiltered t) magnitude) st,
     w1).

Definition getCalibrationAgeHours (st : Seismograph) (w : World) : R :=
  if decide (lastCalibrationTime (cal st) = 0)%Z then -1
  else IZR (usub (millis w) (lastCalibrationTime (cal st))) / (60 * 60 * 1000).

Definition startEvent (magnitude : R) (st : Seismograph) (w : World) : Seismograph :=
  set_event
    {| eventActive := true;
       eventStartTime := millis w;
       eventMaxMagnitude := magnitude;
       eventSumMagnitude := magnitude;
       eventSampleCount := 1 |} st.

Definition createSeismicEvent (magnitude : R) (duration : Z) (source : string)
    (st : Seismograph) (w : World) : Seismograph * World :=
  if negb (TimeManager.isTimeValid (millis w) (timeManager w)) then (st, w)
  else
    let timestamp := TimeManager.getEpochTime (millis w) (timeManager w) in
    let bootTimeMs := millis w in
    let richter := calculateRichterMagnitude magnitude in
    let '(lastReading, st1, w1) := readSensor st w in
    let triggerRatio :=
      if staFull (stalta st1) && ltaFull (stalta st1) then
        let sta := staSum (stalta st1) / INR STA_WINDOW in
        let lta := ltaSum (stalta st1) / INR LTA_WINDOW in
        if decide (lta > 0) then sta / lta else 0
      else 0 in
    let eventData :=
      {| SeismicEventData.timestamp := timestamp;
         SeismicEventData.ntpValidated := true;
         SeismicEventData.bootTimeMs := bootTimeMs;
         SeismicEventData.eventType := getEventTypeFromRichter richter;
         SeismicEventData.intensityLevel := getIntensityLevelFromRichter richter;
         SeismicEventData.confidence := 0.95;
         SeismicEventData.pgaG := magnitude;
         SeismicEventData.richterMagnitude := richter;
         SeismicEventData.localMagnitude := calculateLocalMagnitude magnitude;
         SeismicEventData.durationMs := duration;
         SeismicEventData.peakFrequencyHz := calculatePeakFrequency magnitude;
         SeismicEventData.energyJoules := calculateEnergyJoules richter;
         SeismicEventData.maxAccelX := fabs (SensorData.accelX lastReading);
         SeismicEventData.maxAccelY := fabs (SensorData.accelY lastReading);
         SeismicEventData.maxAccelZ := fabs (SensorData.accelZ lastReading);
         SeismicEventData.vectorMagnitude := magnitude;
         SeismicEventData.calibrationValid := calibrationValid (cal st1);
         SeismicEventData.calibrationAgeHours := getCalibrationAgeHours st1 w1;
         SeismicEventData.triggerRatio := triggerRatio;
         SeismicEventData.staWindowSamples := STA_WINDOW;
         SeismicEventData.ltaWindowSamples := LTA_WINDOW;
         SeismicEventData.backgroundNoise := backgroundNoise (adaptive st1);
         SeismicEventData.source := source;
         SeismicEventData.dataQuality :=
           if calibrationValid (cal st1) then "excellent" else "good" |} in
    match globalDataLogger w1 with
    | Some dl =>
        let '(_, dl1) := DataLogger.logSeismicEvent eventData dl in
        (st1, set_globalDataLogger (Some dl1) w1)
    | None => (st1, w1)
    end.

Definition endEvent (st : Seismograph) (w : World) : Seismograph * World :=
  let e := event st in
  if negb (eventActive e) then (st, w)
  else
    let eventDuration := usub (millis w) (eventStartTime e) in
    let level := classifyEvent (eventMaxMagnitude e) in
    let t := stats st in
    let st1 :=
      set_event (mkEventState false (eventStartTime e) (eventMaxMagnitude e)
                              (eventSumMagnitude e) (eventSampleCount e))
        (set_stats (mkStats (totalSamples t) (uadd (eventsDetected t) 1)
                            (spikesFiltered t) (lastMagnitude t)) st) in
    let richter := calculateRichterMagnitude (eventMaxMagnitude e) in
    let eventType := getEventTypeFromRichter richter in
    let ntpTimeValid := TimeManager.isTimeValid (millis w) (timeManager w) in
    if negb ntpTimeValid then (st1, w)
    else
      let '(st2, w2) :=
        createSeismicEvent (eventMaxMagnitude e) eventDuration
                           "seismograph_detection" st1 w in
      match globalCoreManager w2 with
      | Some cm =>
          let eventPacket :=
            {| EventPacket.eventType := eventType;
               EventPacket.magnitude := eventMaxMagnitude e;
               EventPacket.level := level;
               EventPacket.timestamp :=
                 umul (TimeManager.getEpochTime (millis w2) (timeManager w2)) 1000 |} in
          let '(_, cm1) := DualCoreManager.sendEvent eventPacket cm in
          (st2, set_globalCoreManager (Some cm1) w2)
      | None => (st2, w2)
      end.

Definition processData (data : SensorData.t) (st : Seismograph) (w : World)
  : Seismograph * World :=
  let m := SensorData.magnitude data in
  if isSpikeFiltered m st then
    let t := stats st in
    (set_stats (mkStats (totalSamples t) (eventsDetected t)
                        (uadd (spikesFiltered t) 1) (lastMagnitude t)) st, w)
  else
    let p := spike st in
    let magnitudeIndex1 := ((magnitudeIndex p + 1) mod 5)%nat in
    let st1 :=
      set_spike (mkSpike (<[magnitudeIndex p := m]> (lastMagnitudes p))
                         magnitudeIndex1
                         (if decide (magnitudeIndex1 = 0%nat) then true
                          else magnitudeBufferFull p)) st in
    let st2 := updateAdaptiveThresholds st1 w in
    let st3 := set_stalta (updateSTALTA m (stalta st2)) st2 in
    let triggerCondition := default false (checkEventTrigger (stalta st3)) in
    let '(st4, w4) :=
      if triggerCondition then
        if negb (eventActive (event st3)) then (startEvent m st3 w, w)
        else
          let e := event st3 in
          (set_event
             (mkEventState (eventActive e) (eventStartTime e)
                (if decide (m > eventMaxMagnitude e) then m else eventMaxMagnitude e)
                (eventSumMagnitude e + m) (eventSampleCount e + 1)) st3, w)
      else if eventActive (event st3) then
        let eventDuration := usub (millis w) (eventStartTime (event st3)) in
        if decide (eventDuration >= MIN_EVENT_DURATION)%Z then endEvent st3 w
        else (st3, w)
      else (st3, w) in
    (checkCalibrationDrift st4 w4, w4).

(** One pass of the loop of [simulateEvent] that feeds ten synthetic samples
    to the running event. *)
Definition simulateSample (realisticPGA : R) (e : EventState) (i : nat) : EventState :=
  let sampleMagnitude := realisticPGA * (0.8 + INR i * 0.02) in
  mkEventState (eventActive e) (eventStartTime e)
    (if decide (sampleMagnitude > eventMaxMagnitude e) then sampleMagnitude
     else eventMaxMagnitude e)
    (eventSumMagnitude e + sampleMagnitude) (eventSampleCount e + 1).

Definition simulateEvent (richterMagnitude : R) (st : Seismograph) (w : World)
  : Seismograph * World :=
  let realisticPGA := calculatePGAFromRichter richterMagnitude in
  let '(st3, w3) :=
    if negb (eventActive (event st)) then
      let st1 := startEvent realisticPGA st w in
      let simulatedDuration := calculateEventDuration richterMagnitude in
      let st2 :=
        set_event (foldl (simulateSample realisticPGA) (event st1) (seq 0 10)) st1 in
      let w1 := delay (simulatedDuration / 10) w in
      endEvent st2 w1
    else (st, w) in
  let simulatedData :=
    SensorData.mk (realisticPGA * 0.6) (realisticPGA * 0.3) (realisticPGA * 0.1)
                  realisticPGA (millis w3) in
  processData simulatedData st3 w3.

(** ** Seismograph: calibration *)

(** [n] rounds of "read a frame, convert it to g, wait [d] ms". *)
Fixpoint readAccel (n : nat) (d : Z) (w : World) : list (R * R * R) * World :=
  match n with
  | O => ([], w)
  | S n' =>
      let '(f, w1) := getMotion6 w in
      let reading := (IZR (raw_ax f) / 16384, IZR (raw_ay f) / 16384,
                      IZR (raw_az f) / 16384) in
      let '(rest, w2) := readAccel n' d (delay d w1) in
      (reading :: rest, w2)
  end.

Definition axisX (r : R * R * R) : R := r.1.1.
Definition axisY (r : R * R * R) : R := r.1.2.
Definition axisZ (r : R * R * R) : R := r.2.

(** [sum += f(readings[i])] over the whole array. *)
Definition accumulate (f : R * R * R -> R) (readings : list (R * R * R)) : R :=
  foldl (fun acc r => acc + f r) 0 readings.

(** The standard deviation of one axis over the stability readings. *)
Definition stdDev (stabilityCheckSamples : nat) (axis : R * R * R -> R)
    (readings : list (R * R * R)) : R :=
  let mean := accumulate axis readings / INR stabilityCheckSamples in
  sqrt (accumulate (fun r => (axis r - mean) ^ 2) readings / INR stabilityCheckSamples).

(** The four checks of [calibrate], in the order the code makes them. *)
Inductive CalibrationVerdict :=
  | Unstable
  | UnreasonableXY
  | UnreasonableZOffset
  | UnreasonableZValue
  | Accepted.

Definition stabilityRejects (stabilityCheckSamples : nat)
    (stabilityReadings : list (R * R * R)) : bool :=
  let maxStdDev := 0.01 in
  bool_decide (stdDev stabilityCheckSamples axisX stabilityReadings > maxStdDev)
  || bool_decide (stdDev stabilityCheckSamples axisY stabilityReadings > maxStdDev)
  || bool_decide (stdDev stabilityCheckSamples axisZ stabilityReadings > maxStdDev).

Definition validateOffsets (proposedOffsetX proposedOffsetY proposedOffsetZ rawZMean : R)
  : CalibrationVerdict :=
  let maxOffsetXY := 0.5 in
  let minZOffset := 0.8 in
  let maxZOffset := 1.5 in
  let minZValue := 0.8 in
  let maxZValue := 1.5 in
  if bool_decide (fabs proposedOffsetX > maxOffsetXY)
     || bool_decide (fabs proposedOffsetY > maxOffsetXY) then UnreasonableXY
  else if bool_decide (fabs proposedOffsetZ < minZOffset)
          || bool_decide (fabs proposedOffsetZ > maxZOffset) then UnreasonableZOffset
  else if bool_decide (rawZMean < minZValue)
          || bool_decide (rawZMean > maxZValue) then UnreasonableZValue
  else Accepted.

(** Every rejection does the same two things: [calibrationValid = false;
    return false]. *)
Definition rejectCalibration (st : Seismograph) : Seismograph :=
  let c := cal st in
  set_cal (mkCalibration (offsetX c) (offsetY c) (offsetZ c) (calibrated c)
             (lastCalibrationOffsets c) (lastCalibrationTime c) (baselineLTA c)
             (lastDriftCheck c) false) st.

(** The magnitude of one calibrated test reading. *)
Definition testMagnitude (c : Calibration) (r : R * R * R) : R :=
  let testX := axisX r - offsetX c in
  let testY := axisY r - offsetY c in
  let testZ := axisZ r - offsetZ c in
  sqrt (testX * testX + testY * testY + testZ * testZ).

(** [calibrate] returns its result, the verdict it reached, and the new state
    and world. *)
Definition calibrate (st : Seismograph) (w : World)
  : bool * CalibrationVerdict * Seismograph * World :=
  let samples := 200%nat in
  let stabilityCheckSamples := 50%nat in
  let '(stabilityReadings, w1) := readAccel stabilityCheckSamples 20 w in
  if stabilityRejects stabilityCheckSamples stabilityReadings then
    (false, Unstable, rejectCalibration st, w1)
  else
    let '(readings, w2) := readAccel samples 10 w1 in
    let sumX := accumulate axisX readings in
    let sumY := accumulate axisY readings in
    let sumZ := accumulate axisZ readings in
    let proposedOffsetX := sumX / INR samples in
    let proposedOffsetY := sumY / INR samples in
    let proposedOffsetZ := sumZ / INR samples in
    let rawZMean := sumZ / INR samples in
    match validateOffsets proposedOffsetX proposedOffsetY proposedOffsetZ rawZMean with
    | Accepted =>
        let c := cal st in
        let c1 :=
          mkCalibration proposedOffsetX proposedOffsetY proposedOffsetZ true
            (proposedOffsetX, proposedOffsetY, proposedOffsetZ)
            (millis w2) (baselineLTA c) (lastDriftCheck c) true in
        let '(testReadings, w3) := readAccel 10 10 w2 in
        let testSumMagnitude := accumulate (testMagnitude c1) testReadings in
        let avgTestMagnitude := testSumMagnitude / 10 in
        let c2 :=
          mkCalibration (offsetX c1) (offsetY c1) (offsetZ c1) (calibrated c1)
            (lastCalibrationOffsets c1) (lastCalibrationTime c1) avgTestMagnitude
            (lastDriftCheck c1) (calibrationValid c1) in
        (true, Accepted, set_cal c2 st, w3)
    | verdict => (false, verdict, rejectCalibration st, w2)
    end.

(** [begin], given what [mpu.testConnection()] answers. *)
Definition begin (connected : bool) (st : Seismograph) (w : World)
  : bool * Seismograph * World :=
  if negb connected then (false, st, w)
  else
    let w1 := delay 1000 w in
    let '(ok, _, st1, w2) := calibrate st w1 in
    let st2 :=
      if negb ok then
        let c := cal st1 in
        set_cal (mkCalibration 0 0 0 false (lastCalibrationOffsets c)
                   (lastCalibrationTime c) (baselineLTA c) (lastDriftCheck c) false) st1
      else st1 in
    (true, set_initialized true st2, w2).

(** ** Runs and reference notions used by the properties *)

(** The STA/LTA state after feeding the admitted magnitudes [ms], in order,
    to [updateSTALTA], starting from the state the constructor leaves. *)
Definition feedSTALTA (ms : list R) : StaLta :=
  foldl (fun s m => updateSTALTA m s) (stalta Seismograph_new) ms.

(** The indices point into arrays of the declared sizes. *)
Definition staltaShape (s : StaLta) : Prop :=
  length (staBuffer s) = STA_WINDOW /\ length (ltaBuffer s) = LTA_WINDOW /\
  (staIndex s < STA_WINDOW)%nat /\ (ltaIndex s < LTA_WINDOW)%nat.

(** Both running sums equal the sums of their buffers. *)
Definition sumsAgree (s : StaLta) : Prop :=
  staSum s = Rsum (staBuffer s) /\ ltaSum s = Rsum (ltaBuffer s).



(** ** What the outside sees *)

(** The records persisted in the seismic file. *)
Definition seismicRecords (w : World) : list SeismicEventData.t :=
  match globalDataLogger w with
  | Some dl => DataLogger.seismicFile dl
  | None => []
  end.

(** The records handed to the broker. *)
Definition brokerRecords (w : World) : list SeismicEventData.t :=
  match globalDataLogger w with
  | Some dl => DataLogger.mqttSeismic dl
  | None => []
  end.

(** The packets waiting in the event queue, from which the background task
    feeds the broker and the broadcast. *)
Definition queuedEvents (w : World) : list EventPacket.t :=
  match globalCoreManager w with
  | Some cm => default [] (DualCoreManager.eventQueue cm)
  | None => []
  end.

(** The wall clock is trusted right now. *)
Definition timeTrusted (w : World) : bool :=
  TimeManager.isTimeValid (millis w) (timeManager w).

(** The logger is set, initialised and its file can be opened. *)
Definition loggerReady (w : World) : bool :=
  match globalDataLogger w with
  | Some dl => DataLogger.initialized dl && DataLogger.fileOpens dl
  | None => false
  end.

(** The three statistics counters of the detector. *)
Definition counters : list (Seismograph -> Z) :=
  [ (fun st => totalSamples (stats st));
    (fun st => eventsDetected (stats st));
    (fun st => spikesFiltered (stats st)) ].

(** A counter counts the events rejected for want of trusted time when
    ending an event without trusted time adds one to it and ending an event
    with trusted time leaves it alone. *)
Definition countsNoTimeRejections (c : Seismograph -> Z) : Prop :=
  forall (st : Seismograph) (w : World),
    eventActive (event st) = true ->
    (timeTrusted w = false -> c (endEvent st w).1 = c st + 1)%Z /\
    (timeTrusted w = true -> c (endEvent st w).1 = c st).

(** The detector driven by a stream of inputs: each input sets the clock to
    the time of the sample and hands the sample to [processData]. *)
Definition set_clock (now : Z) (w : World) : World :=
  {| clock := now;
     timeManager := timeManager w;
     globalDataLogger := globalDataLogger w;
     globalCoreManager := globalCoreManager w;
     mpuFrames := mpuFrames w;
     mpuReads := mpuReads w |}.

Definition runDetector (inputs : list (Z * SensorData.t)) (st : Seismograph) (w : World)
  : Seismograph * World :=
  foldl (fun sw input => processData input.2 sw.1 (set_clock input.1 sw.2))
        (st, w) inputs.

(** ** Concrete scenarios *)

(** A sensor at rest, levelled: every frame reads 0, 0 and 1 g; the clock
    was never synchronised and neither global is set. *)
Definition restingWorld : World :=
  {| clock := 0;
     timeManager := TimeManager.init 0;
     globalDataLogger := None;
     globalCoreManager := None;
     mpuFrames := fun _ => mkFrame 0 0 16384;
     mpuReads := 0 |}.


(** A sample of 0.5 g. *)
Definition impulseSample : SensorData.t := SensorData.mk 0.5 0 0 0.5 0.

(** A logger that is up, with an empty seismic file and a broker
    connection. *)
Definition emptyLogger : DataLogger.t :=
  {| DataLogger.initialized := true;
     DataLogger.fileOpens := true;
     DataLogger.seismicFile := [];
     DataLogger.mqttConnected := true;
     DataLogger.mqttSeismic := [] |}.

(** Ten seconds after boot, never synchronised, logger and queue in place. *)
Definition unsyncedWorld : World :=
  {| clock := 10000;
     timeManager := TimeManager.init 0;
     globalDataLogger := Some emptyLogger;
     globalCoreManager := Some (DualCoreManager.mk (Some []));
     mpuFrames := fun _ => mkFrame 0 0 16384;
     mpuReads := 0 |}.

(** The same, with a synchronisation five seconds old (2024-01-01). *)
Definition syncedWorld : World :=
  {| clock := 10000;
     timeManager := TimeManager.mk true 5000 1704067190 1704067200;
     globalDataLogger := Some emptyLogger;
     globalCoreManager := Some (DualCoreManager.mk (Some []));
     mpuFrames := fun _ => mkFrame 0 0 16384;
     mpuReads := 0 |}.

(** The detector with an event running since 9 s after boot. *)
Definition activeDetector : Seismograph :=
  set_event (mkEventState true 9000 0.03 0.3 12) Seismograph_new.

(** The detector with both buffers full of a steady 0.0005 g, and the world
    thirty seconds after boot. *)
Definition lowNoiseDetector : Seismograph :=
  set_stalta
    (mkStaLta (replicate STA_WINDOW 0.0005) (replicate LTA_WINDOW 0.0005)
              0 0 0.0125 1.25 true true) Seismograph_new.

Definition halfMinuteWorld : World := set_clock 30000 restingWorld.

(** A sensor whose every frame reads 0 on all three axes. *)
Definition flatWorld : World :=
  {| clock := 0;
     timeManager := TimeManager.init 0;
     globalDataLogger := None;
     globalCoreManager := None;
     mpuFrames := fun _ => mkFrame 0 0 0;
     mpuReads := 0 |}.

(** A detector calibrated earlier, with offsets 0.01, -0.02 and 0.98 g. *)
Definition calibratedDetector : Seismograph :=
  set_cal (mkCalibration 0.01 (-0.02) 0.98 true (0.01, -0.02, 0.98) 4000 0.002 0 true)
          Seismograph_new.

(** The entries of a ring buffer in the order they were written, oldest
    first, given the index the next write goes to. *)
Definition chronological (buf : list R) (next : nat) : list R :=
  drop next buf ++ take next buf.

(** The last [n] entries of a stream. *)
Definition lastN (n : nat) (l : list R) : list R := drop (length l - n) l.

(** Three admitted magnitudes, the second one large. *)
Definition shortStream : list R := [0.01; 0.5; 0.02].

(** The name of an intensity level, as the comments of [classifyEvent]
    give it. *)
Definition levelName (level : Z) : string :=
  if decide (level = 6)%Z then "Major"
  else if decide (level = 5)%Z then "Strong"
  else if decide (level = 4)%Z then "Moderate"
  else if decide (level = 3)%Z then "Light"
  else if decide (level = 2)%Z then "Minor"
  else "Micro".

(** What every record of a detected event satisfies, field by field. *)
Definition recordWellFormed (r : SeismicEventData.t) : Prop :=
  SeismicEventData.ntpValidated r = true /\
  SeismicEventData.richterMagnitude r
    = calculateRichterMagnitude (SeismicEventData.pgaG r) /\
  SeismicEventData.intensityLevel r = classifyEvent (SeismicEventData.pgaG r) /\
  (1 <= SeismicEventData.intensityLevel r <= 6)%Z /\
  SeismicEventData.eventType r = levelName (SeismicEventData.intensityLevel r) /\
  SeismicEventData.vectorMagnitude r = SeismicEventData.pgaG r /\
  1 <= SeismicEventData.peakFrequencyHz r <= 30 /\
  0 <= SeismicEventData.energyJoules r <= 10 ^ 20 /\
  -10 <= SeismicEventData.localMagnitude r <= 8 /\
  0 <= SeismicEventData.maxAccelX r /\
  0 <= SeismicEventData.maxAccelY r /\
  0 <= SeismicEventData.maxAccelZ r /\
  SeismicEventData.dataQuality r
    = (if SeismicEventData.calibrationValid r then "excellent" else "good")%string /\
  SeismicEventData.staWindowSamples r = STA_WINDOW /\
  SeismicEventData.ltaWindowSamples r = LTA_WINDOW.

(** The trigger condition [processData] finds once the admitted magnitude
    [m] has been fed to the STA/LTA state. *)
Definition triggerAfter (m : R) (st : Seismograph) : bool :=
  default false (checkEventTrigger (updateSTALTA m (stalta st))).

(** The event part of [processData] on its own: what an admitted magnitude
    [m], read at time [now] with trigger condition [trigger], does to the
    event variables. *)
Definition eventStep (m : R) (now : Z) (trigger : bool) (e : EventState) : EventState :=
  if trigger then
    if eventActive e then
      mkEventState true (eventStartTime e)
        (if decide (m > eventMaxMagnitude e) then m else eventMaxMagnitude e)
        (eventSumMagnitude e + m) (eventSampleCount e + 1)
    else mkEventState true now m m 1
  else if eventActive e
          && bool_decide (usub now (eventStartTime e) >= MIN_EVENT_DURATION)%Z
  then mkEventState false (eventStartTime e) (eventMaxMagnitude e)
                    (eventSumMagnitude e) (eventSampleCount e)
  else e.

(** While an event runs it has at least one sample, and the sum of its
    magnitudes is at most the number of samples times the maximum. *)
Definition eventInvariant (e : EventState) : Prop :=
  (0 <= eventSampleCount e)%Z /\
  (eventActive e = true -> (1 <= eventSampleCount e)%Z) /\
  eventSumMagnitude e <= IZR (eventSampleCount e) * eventMaxMagnitude e.

(** The three adaptive thresholds are their bases times one common factor
    between 1 and 3. *)
Definition adaptiveInvariant (a : Adaptive) : Prop :=
  exists f : R,
    1 <= f <= 3 /\
    adaptiveThresholdMicro a = THRESHOLD_MICRO * f /\
    adaptiveThresholdLight a = THRESHOLD_LIGHT * f /\
    adaptiveThresholdStrong a = THRESHOLD_STRONG * f.

(** What the sample path may change of the calibration data: nothing but
    the time of the last drift check, and [calibrationValid] from true to
    false. *)
Definition calibrationKept (c c' : Calibration) : Prop :=
  offsetX c' = offsetX c /\ offsetY c' = offsetY c /\ offsetZ c' = offsetZ c /\
  calibrated c' = calibrated c /\
  lastCalibrationOffsets c' = lastCalibrationOffsets c /\
  lastCalibrationTime c' = lastCalibrationTime c /\
  baselineLTA c' = baselineLTA c /\
  (calibrationValid c' = true -> calibrationValid c = true).

(** ** Traces of the time manager *)

(** Some server answered [syncWithNTP]. *)
Definition replied (r1 r2 r3 : option Z) : bool :=
  bool_decide (is_Some r1) || bool_decide (is_Some r2) || bool_decide (is_Some r3).

(** The calls that change a time manager, with what the environment
    answers to each: the WiFi status, [millis()], the three outcomes of
    [forceUpdate] and, for [loop], the epoch after [timeClient.update()]. *)
Inductive TimeOp :=
  | OpBegin (wifi : bool) (now : Z) (r1 r2 r3 : option Z)
  | OpLoop (wifi : bool) (now : Z) (r1 r2 r3 : option Z) (updated : Z)
  | OpForceSync (wifi : bool) (now : Z) (r1 r2 r3 : option Z).

Definition timeStep (tm : TimeManager.t) (op : TimeOp) : TimeManager.t :=
  match op with
  | OpBegin wifi now r1 r2 r3 => (TimeManager.begin wifi now r1 r2 r3 tm).2
  | OpLoop wifi now r1 r2 r3 updated => TimeManager.loop wifi now r1 r2 r3 updated tm
  | OpForceSync wifi now r1 r2 r3 => TimeManager.forceSync wifi now r1 r2 r3 tm
  end.

Definition timeRun (ops : list TimeOp) (tm : TimeManager.t) : TimeManager.t :=
  foldl timeStep tm ops.

(** A call of [begin] with WiFi up and a server answering. *)
Definition beginSucceeds (op : TimeOp) : bool :=
  match op with
  | OpBegin wifi _ r1 r2 r3 => wifi && replied r1 r2 r3
  | _ => false
  end.

(** ** The event queue seen from both cores *)

(** What every packet the detector queues satisfies. *)
Definition packetWellFormed (p : EventPacket.t) : Prop :=
  EventPacket.level p = classifyEvent (EventPacket.magnitude p) /\
  (1 <= EventPacket.level p <= 6)%Z /\
  EventPacket.eventType p = levelName (EventPacket.level p) /\
  (0 <= EventPacket.timestamp p < ULONG_MOD)%Z.

(** [receiveEvent]: [xQueueReceive] hands out the oldest packet; [None]
    stands for the return value false, when the handle is null or the wait
    ended with the queue still empty. *)
Definition receiveEvent (cm : DualCoreManager.t)
  : option EventPacket.t * DualCoreManager.t :=
  match DualCoreManager.eventQueue cm with
  | None => (None, cm)
  | Some [] => (None, cm)
  | Some (p :: q) => (Some p, {| DualCoreManager.eventQueue := Some q |})
  end.

(** The calls the two tasks make on the event queue, in the order the
    queue serves them. *)
Inductive QueueOp :=
  | Send (p : EventPacket.t)
  | Receive.

(** The manager, the packets [sendEvent] accepted and the packets
    [receiveEvent] delivered, both oldest first. *)
Definition queueStep (s : DualCoreManager.t * list EventPacket.t * list EventPacket.t)
    (op : QueueOp) : DualCoreManager.t * list EventPacket.t * list EventPacket.t :=
  let '(cm, accepted, received) := s in
  match op with
  | Send p =>
      let '(ok, cm1) := DualCoreManager.sendEvent p cm in
      (cm1, if ok then accepted ++ [p] else accepted, received)
  | Receive =>
      match receiveEvent cm with
      | (Some p, cm1) => (cm1, accepted, received ++ [p])
      | (None, cm1) => (cm1, accepted, received)
      end
  end.

Definition queueRun (ops : list QueueOp) (cm : DualCoreManager.t)
  : DualCoreManager.t * list EventPacket.t * list EventPacket.t :=
  foldl queueStep (cm, [], []) ops.

(** ** DataLogger: the event, system and sensor files *)

Module DataLoggerFiles.

(** One line of a file under /events, /system and /data: the fields of the
    JSON object the code serialises. *)
Record EventLine := mkEventLine {
  ev_timestamp : Z;
  ev_type : string;
  ev_description : string;
  ev_magnitude : R;
  ev_ntp_valid : bool
}.

Record SystemLine := mkSystemLine {
  sys_timestamp : Z;
  sys_ntp_valid : bool;
  sys_type : string;
  sys_description : string;
  sys_value : R
}.

Record SensorLine := mkSensorLine {
  sen_timestamp : Z;
  sen_accel_x : R;
  sen_accel_y : R;
  sen_accel_z : R;
  sen_magnitude : R
}.

(** The logger together with its daily files.  A directory is the list of
    the lines written to it, oldest first, each with the day number its
    file is named after (the file "/events/3.json" holds the lines paired
    with 3); removing a file removes its lines.  [lastSensorLog] is the
    static variable of [logSensorData]. *)
Record t := mk {
  logger : DataLogger.t;
  eventsDir : list (Z * EventLine);
  systemDir : list (Z * SystemLine);
  dataDir : list (Z * SensorLine);
  lastSensorLog : Z;
  lastCleanup : Z
}.

Definition MS_PER_DAY : Z := 86400000.
Definition DATA_RETENTION_DAYS : Z := 90.

(** [logSystemEvent]; [now] is [millis()], [tm] the global time manager and
    [sysTime] what [time(nullptr)] gives as an [unsigned long]. *)
Definition logSystemEvent (eventType description : string) (value : R)
    (now : Z) (tm : TimeManager.t) (sysTime : Z) (fs : t) : bool * t :=
  if negb (DataLogger.initialized (logger fs)) then (false, fs)
  else
    let '(timestamp, ntp_valid) :=
      if TimeManager.isTimeValid now tm then (TimeManager.getEpochTime now tm, true)
      else if decide (sysTime >= TimeManager.EPOCH_2020)%Z then (sysTime, false)
      else (now, false) in
    let line := mkSystemLine timestamp ntp_valid eventType description value in
    if negb (DataLogger.fileOpens (logger fs)) then (false, fs)
    else
      (true,
       {| logger := logger fs;
          eventsDir := eventsDir fs;
          systemDir := systemDir fs ++ [((now / MS_PER_DAY)%Z, line)];
          dataDir := dataDir fs;
          lastSensorLog := lastSensorLog fs;
          lastCleanup := lastCleanup fs |}).

(** The names [logEvent] treats as seismic. *)
Definition isSeismicEvent (eventType : string) : bool :=
  String.eqb eventType "Micro" || String.eqb eventType "Light"
  || String.eqb eventType "Strong".

Definition logEvent (eventType description : string) (magnitude : R)
    (now : Z) (tm : TimeManager.t) (sysTime : Z) (fs : t) : bool * t :=
  if negb (DataLogger.initialized (logger fs)) then (false, fs)
  else if isSeismicEvent eventType && negb (TimeManager.isTimeValid now tm) then
    (false,
     (logSystemEvent "EVENT_REJECTED"
        (String.append "Seismic event rejected due to invalid NTP time: " eventType)
        magnitude now tm sysTime fs).2)
  else
    let ntpValid := TimeManager.isTimeValid now tm in
    let unixTimestamp :=
      if ntpValid then Some (TimeManager.getEpochTime now tm)
      else if decide (sysTime < TimeManager.EPOCH_2020)%Z then None
      else Some sysTime in
    match unixTimestamp with
    | None => (false, fs)
    | Some unixTimestamp =>
        let line := mkEventLine unixTimestamp eventType description magnitude ntpValid in
        if negb (DataLogger.fileOpens (logger fs)) then (false, fs)
        else
          (true,
           {| logger := logger fs;
              eventsDir := eventsDir fs ++ [((now / MS_PER_DAY)%Z, line)];
              systemDir := systemDir fs;
              dataDir := dataDir fs;
              lastSensorLog := lastSensorLog fs;
              lastCleanup := lastCleanup fs |})
    end.

Definition logSensorData (accelX accelY accelZ magnitude : R) (now : Z) (fs : t)
  : bool * t :=
  if negb (DataLogger.initialized (logger fs)) then (false, fs)
  else
    let currentTime := now in
    if decide (usub currentTime (lastSensorLog fs) < 1000)%Z then (true, fs)
    else
      let line := mkSensorLine currentTime accelX accelY accelZ magnitude in
      if negb (DataLogger.fileOpens (logger fs)) then
        (false,
         {| logger := logger fs;
            eventsDir := eventsDir fs;
            systemDir := systemDir fs;
            dataDir := dataDir fs;
            lastSensorLog := currentTime;
            lastCleanup := lastCleanup fs |})
      else
        (true,
         {| logger := logger fs;
            eventsDir := eventsDir fs;
            systemDir := systemDir fs;
            dataDir := dataDir fs ++ [((currentTime / MS_PER_DAY)%Z, line)];
            lastSensorLog := currentTime;
            lastCleanup := lastCleanup fs |}).

(** [deleteOldData]: the files of /events and /data whose day number is
    below the cutoff day are removed. *)
Definition deleteOldData (daysToKeep : Z) (now : Z) (fs : t) : bool * t :=
  let cutoffTime := usub now (umul daysToKeep MS_PER_DAY) in
  let cutoffDay := (cutoffTime / MS_PER_DAY)%Z in
  (true,
   {| logger := logger fs;
      eventsDir := filter (fun p => ~ (p.1 < cutoffDay)%Z) (eventsDir fs);
      systemDir := systemDir fs;
      dataDir := filter (fun p => ~ (p.1 < cutoffDay)%Z) (dataDir fs);
      lastSensorLog := lastSensorLog fs;
      lastCleanup := lastCleanup fs |}).

Definition cleanupOldFiles (now : Z) (fs : t) : t :=
  let currentTime := now in
  if decide (usub currentTime (lastCleanup fs) < 3600000)%Z then fs
  else
    (deleteOldData DATA_RETENTION_DAYS now
       {| logger := logger fs;
          eventsDir := eventsDir fs;
          systemDir := systemDir fs;
          dataDir := dataDir fs;
          lastSensorLog := lastSensorLog fs;
          lastCleanup := currentTime |}).2.

End DataLoggerFiles.

(** ** Traces of the file logger *)

(** The calls that write or remove lines, each with what the environment
    answers while it runs: [millis()], the time manager and
    [time(nullptr)]. *)
Inductive LogOp :=
  | OpLogEvent (eventType description : string) (magnitude : R)
               (now : Z) (tm : TimeManager.t) (sysTime : Z)
  | OpLogSystemEvent (eventType description : string) (value : R)
                     (now : Z) (tm : TimeManager.t) (sysTime : Z)
  | OpLogSensorData (accelX accelY accelZ magnitude : R) (now : Z)
  | OpDeleteOldData (daysToKeep now : Z)
  | OpCleanupOldFiles (now : Z).

Definition logStep (fs : DataLoggerFiles.t) (op : LogOp) : DataLoggerFiles.t :=
  match op with
  | OpLogEvent eventType description magnitude now tm sysTime =>
      (DataLoggerFiles.logEvent eventType description magnitude now tm sysTime fs).2
  | OpLogSystemEvent eventType description value now tm sysTime =>
      (DataLoggerFiles.logSystemEvent eventType description value now tm sysTime fs).2
  | OpLogSensorData accelX accelY accelZ magnitude now =>
      (DataLoggerFiles.logSensorData accelX accelY accelZ magnitude now fs).2
  | OpDeleteOldData daysToKeep now => (DataLoggerFiles.deleteOldData daysToKeep now fs).2
  | OpCleanupOldFiles now => DataLoggerFiles.cleanupOldFiles now fs
  end.

Definition logRun (ops : list LogOp) (fs : DataLoggerFiles.t) : DataLoggerFiles.t :=
  foldl logStep fs ops.

(** A line of /events is trustworthy: a line of one of the three seismic
    types carries NTP-validated time, and a line without NTP-validated time
    carries a system time of 2020 or later. *)
Definition eventLineTrusted (p : Z * DataLoggerFiles.EventLine) : Prop :=
  (DataLoggerFiles.isSeismicEvent (DataLoggerFiles.ev_type p.2) = true ->
   DataLoggerFiles.ev_ntp_valid p.2 = true) /\
  (DataLoggerFiles.ev_ntp_valid p.2 = false ->
   (TimeManager.EPOCH_2020 <= DataLoggerFiles.ev_timestamp p.2)%Z).

(** The logger, initialised or not, with all its directories empty. *)
Definition emptyFiles (lg : DataLogger.t) : DataLoggerFiles.t :=
  {| DataLoggerFiles.logger := lg;
     DataLoggerFiles.eventsDir := [];
     DataLoggerFiles.systemDir := [];
     DataLoggerFiles.dataDir := [];
     DataLoggerFiles.lastSensorLog := 0;
     DataLoggerFiles.lastCleanup := 0 |}.

(** The timestamps of the lines under /data, oldest first. *)
Definition sensorTimes (fs : DataLoggerFiles.t) : list Z :=
  map (fun p => DataLoggerFiles.sen_timestamp p.2) (DataLoggerFiles.dataDir fs).

(** The outcome of the next [LittleFS.open]: every call finds the file
    system as it is at that moment. *)
Definition setFileOpens (opens : bool) (fs : DataLoggerFiles.t) : DataLoggerFiles.t :=
  {| DataLoggerFiles.logger :=
       {| DataLogger.initialized := DataLogger.initialized (DataLoggerFiles.logger fs);
          DataLogger.fileOpens := opens;
          DataLogger.seismicFile := DataLogger.seismicFile (DataLoggerFiles.logger fs);
          DataLogger.mqttConnected := DataLogger.mqttConnected (DataLoggerFiles.logger fs);
          DataLogger.mqttSeismic := DataLogger.mqttSeismic (DataLoggerFiles.logger fs) |};
     DataLoggerFiles.eventsDir := DataLoggerFiles.eventsDir fs;
     DataLoggerFiles.systemDir := DataLoggerFiles.systemDir fs;
     DataLoggerFiles.dataDir := DataLoggerFiles.dataDir fs;
     DataLoggerFiles.lastSensorLog := DataLoggerFiles.lastSensorLog fs;
     DataLoggerFiles.lastCleanup := DataLoggerFiles.lastCleanup fs |}.

(** One call of [logSensorData]: the reading of [millis()], whether the
    file opens this time, and the sample. *)
Definition SensorCall : Type := Z * bool * (R * R * R * R).

(** Calls of [logSensorData], each with its own clock reading and its own
    outcome of opening the file. *)
Definition sensorRun (calls : list SensorCall) (fs : DataLoggerFiles.t)
  : DataLoggerFiles.t :=
  foldl (fun fs c =>
           (DataLoggerFiles.logSensorData c.2.1.1.1 c.2.1.1.2 c.2.1.2 c.2.2 c.1.1
              (setFileOpens c.1.2 fs)).2)
        fs calls.

(** Clock readings that never go back and stay within one period of the
    32-bit millisecond counter, starting at or after [lo]. *)
Fixpoint nondecreasingFrom (lo : Z) (times : list Z) : Prop :=
  match times with
  | [] => True
  | t :: rest => (lo <= t < ULONG_MOD)%Z /\ nondecreasingFrom t rest
  end.

(** Neighbouring timestamps are at least a second apart. *)
Definition secondApart (times : list Z) : Prop :=
  forall (l1 l2 : list Z) (a b : Z),
    times = l1 ++ a :: b :: l2 -> (a + 1000 <= b)%Z.

(** ** The drift check on a long-term average that may be a NaN *)

(** A float that is a NaN or a number.  The detector state keeps its floats
    as reals; where a NaN decides what the code does, the float is given
    apart from the state, in this type. *)
Inductive MaybeNaN :=
  | NaN
  | Num (x : R).

(** Arithmetic on a NaN gives a NaN. *)
Definition mapNum (f : R -> R) (x : MaybeNaN) : MaybeNaN :=
  match x with
  | NaN => NaN
  | Num r => Num (f r)
  end.

Definition isnanF (x : MaybeNaN) : bool :=
  match x with
  | NaN => true
  | Num _ => false
  end.

(** Every comparison with a NaN is false. *)
Definition gtF (x : MaybeNaN) (c : R) : bool :=
  match x with
  | NaN => false
  | Num r => bool_decide (r > c)
  end.

Definition ltF (x : MaybeNaN) (c : R) : bool :=
  match x with
  | NaN => false
  | Num r => bool_decide (r < c)
  end.

(** [checkCalibrationDrift] with the float [ltaSum] given as [ltaSumF], a
    number or a NaN (a NaN magnitude that reaches [updateSTALTA] leaves
    [ltaSum] a NaN for good).  [abs] is the Arduino macro
    [(x) > 0 ? (x) : -(x)], which maps a NaN to a NaN. *)
Definition checkCalibrationDriftF (ltaSumF : MaybeNaN) (st : Seismograph) (w : World)
  : Seismograph :=
  let c := cal st in
  if decide (usub (millis w) (lastDriftCheck c) < 300000)%Z then st
  else
    let c1 := mkCalibration (offsetX c) (offsetY c) (offsetZ c) (calibrated c)
                (lastCalibrationOffsets c) (lastCalibrationTime c) (baselineLTA c)
                (millis w) (calibrationValid c) in
    if negb (calibrationValid c) || negb (ltaFull (stalta st))
       || bool_decide (baselineLTA c <= 0)
    then set_cal c1 st
    else
      let currentLTA := mapNum (fun s => s / INR LTA_WINDOW) ltaSumF in
      let driftPercent :=
        mapNum (fun l => (l - baselineLTA c) / baselineLTA c * 100) currentLTA in
      let absDriftPercent := mapNum fabs driftPercent in
      let valid1 := if gtF absDriftPercent 50 then false else calibrationValid c in
      let valid2 :=
        if valid1 && detailedLoggingEnabled st
        then (if isnanF currentLTA || ltF currentLTA 0 then false else valid1)
        else valid1 in
      set_cal
        (mkCalibration (offsetX c) (offsetY c) (offsetZ c) (calibrated c)
           (lastCalibrationOffsets c) (lastCalibrationTime c) (baselineLTA c)
           (millis w) valid2) st.

(** * Properties *)

(** ** Arithmetic helpers *)

Lemma wrap32_range (z : Z) : (0 <= wrap32 z < ULONG_MOD)%Z.
Proof. unfold wrap32, ULONG_MOD. apply Z.mod_pos_bound. lia. Qed.

Lemma wrap32_small (z : Z) : (0 <= z < ULONG_MOD)%Z -> wrap32 z = z.
Proof. intros H. unfold wrap32. apply Z.mod_small. exact H. Qed.

Lemma INR_STA_WINDOW : INR STA_WINDOW = 25.
Proof. unfold STA_WINDOW. rewrite INR_IZR_INZ. reflexivity. Qed.

Lemma INR_LTA_WINDOW : INR LTA_WINDOW = 2500.
Proof. unfold LTA_WINDOW. rewrite INR_IZR_INZ. reflexivity. Qed.

(** ** C2: when the clock reports trusted time *)

(** C2, as stated, fails: with a synchronisation one second old the clock
    reports trusted time although the NTP client's epoch value (here a date
    in 2017) does not exceed 2020-01-01T00:00:00Z. *)
Lemma isTimeValid_ignores_epoch :
  let tm := TimeManager.mk true 0 0 1500000000 in
  TimeManager.isTimeValid 1000 tm = true /\
  ~ (TimeManager.getEpochTime 1000 tm > TimeManager.EPOCH_2020)%Z.
Proof.
  split.
  - reflexivity.
  - unfold TimeManager.getEpochTime, TimeManager.EPOCH_2020. simpl. lia.
Qed.

(** A synchronisation that has just succeeded is not enough: after a
    successful [forceSync] on a manager whose [begin] never succeeded the
    time is still not trusted. *)
Lemma forceSync_without_begin (now epoch : Z) :
  let tm := TimeManager.forceSync true now (Some epoch) None None (TimeManager.init 0) in
  TimeManager.lastSync tm = now /\ TimeManager.isTimeValid now tm = false.
Proof. split; reflexivity. Qed.

(** After a successful [begin] the time is trusted for the next 7 200 000
    ms. *)
Lemma begin_trusted (now later : Z) (r1 r2 r3 : option Z) (tm tm' : TimeManager.t) :
  TimeManager.begin true now r1 r2 r3 tm = (true, tm') ->
  (usub later now < 7200000)%Z ->
  TimeManager.isTimeValid later tm' = true.
Proof.
  unfold TimeManager.begin, TimeManager.syncWithNTP. cbn [negb].
  intros Hb Hl.
  destruct r1 as [e|]; [|destruct r2 as [e|]; [|destruct r3 as [e|]]];
    cbn in Hb; try discriminate; injection Hb as <-;
    unfold TimeManager.isTimeValid; cbn;
    apply bool_decide_eq_true; unfold NTP_SYNC_INTERVAL; lia.
Qed.

(** C2, amended: [isTimeValid] holds exactly when the manager is initialised
    (the NTP synchronisation of [begin] succeeded) and the unsigned 32-bit
    difference between [millis()] and the last successful synchronisation is
    below twice the sync interval, 7 200 000 ms; the epoch value plays no
    part. *)
Theorem isTimeValid_iff (now : Z) (tm : TimeManager.t) :
  TimeManager.isTimeValid now tm = true <->
  TimeManager.initialized tm = true /\
  (wrap32 (now - TimeManager.lastSync tm) < 2 * 3600000)%Z.
Proof.
  unfold TimeManager.isTimeValid, usub, NTP_SYNC_INTERVAL.
  rewrite andb_true_iff, bool_decide_eq_true.
  split; intros [Hi Hd]; split; auto; lia.
Qed.

(** ** C3: windowed-sum fidelity *)

Lemma Rsum_replicate_0 (n : nat) : Rsum (replicate n 0) = 0.
Proof.
  induction n as [|n IH].
  - reflexivity.
  - change (0 + Rsum (replicate n 0) = 0). rewrite IH. lra.
Qed.

(** Overwriting one slot changes the sum by the difference of the values. *)
Lemma Rsum_insert (l : list R) (i : nat) (m : R) :
  (i < length l)%nat -> Rsum (<[i := m]> l) = Rsum l - aget l i + m.
Proof.
  revert i. induction l as [|a l IH]; intros i Hi; simpl in Hi.
  - lia.
  - destruct i as [|i].
    + change (m + Rsum l = a + Rsum l - a + m). lra.
    + change (a + Rsum (<[i := m]> l) = a + Rsum l - aget l i + m).
      rewrite IH by lia. lra.
Qed.

Lemma updateSTALTA_shape (m : R) (s : StaLta) :
  staltaShape s -> staltaShape (updateSTALTA m s).
Proof.
  intros (Hs & Hl & His & Hil). unfold staltaShape, updateSTALTA.
  cbn [staBuffer ltaBuffer staIndex ltaIndex].
  rewrite !length_insert. repeat split; auto.
  - apply Nat.mod_upper_bound. unfold STA_WINDOW. lia.
  - apply Nat.mod_upper_bound. unfold LTA_WINDOW. lia.
Qed.

Lemma updateSTALTA_sums (m : R) (s : StaLta) :
  staltaShape s -> sumsAgree s -> sumsAgree (updateSTALTA m s).
Proof.
  intros (Hs & Hl & His & Hil) [Hsta Hlta]. unfold sumsAgree, updateSTALTA.
  cbn [staBuffer ltaBuffer staSum ltaSum].
  rewrite !Rsum_insert by lia. rewrite Hsta, Hlta. split; lra.
Qed.

Lemma Seismograph_new_shape : staltaShape (stalta Seismograph_new).
Proof.
  unfold staltaShape, Seismograph_new; cbn [stalta staBuffer ltaBuffer staIndex ltaIndex].
  rewrite !length_replicate. unfold STA_WINDOW, LTA_WINDOW. repeat split; lia.
Qed.

Lemma Seismograph_new_sums : sumsAgree (stalta Seismograph_new).
Proof.
  unfold sumsAgree, Seismograph_new; cbn [stalta staBuffer ltaBuffer staSum ltaSum].
  rewrite !Rsum_replicate_0. split; reflexivity.
Qed.

Lemma feedSTALTA_snoc (ms : list R) (m : R) :
  feedSTALTA (ms ++ [m]) = updateSTALTA m (feedSTALTA ms).
Proof. unfold feedSTALTA. rewrite foldl_app. reflexivity. Qed.

Lemma feedSTALTA_invariant (ms : list R) :
  staltaShape (feedSTALTA ms) /\ sumsAgree (feedSTALTA ms).
Proof.
  induction ms as [|m ms IH] using rev_ind.
  - split; [apply Seismograph_new_shape | apply Seismograph_new_sums].
  - rewrite feedSTALTA_snoc. destruct IH as [Hshape Hsums]. split.
    + apply updateSTALTA_shape, Hshape.
    + apply updateSTALTA_sums; assumption.
Qed.

(** C3: whatever magnitudes [updateSTALTA] has been fed since the
    zero-initialised state, and however many, [staSum] is the sum of the
    entries of [staBuffer] and [ltaSum] the sum of the entries of
    [ltaBuffer], in exact arithmetic; the buffers keep their declared sizes
    of [STA_WINDOW] and [LTA_WINDOW] entries. *)
Theorem windowed_sum_fidelity (ms : list R) :
  let s := feedSTALTA ms in
  staSum s = Rsum (staBuffer s) /\ ltaSum s = Rsum (ltaBuffer s) /\
  length (staBuffer s) = STA_WINDOW /\ length (ltaBuffer s) = LTA_WINDOW.
Proof.
  destruct (feedSTALTA_invariant ms) as [(Hs & Hl & _ & _) [Hsta Hlta]].
  simpl. auto.
Qed.

(** ** C5: the trigger condition *)

Lemma fdiv_nonzero (a b : R) : b <> 0 -> fdiv a b = Some (a / b).
Proof. intros Hb. unfold fdiv. case_decide; [contradiction | reflexivity]. Qed.

(** Once both buffers are full the three divisions of [checkEventTrigger]
    are by 25, by 2500 and by a long-term average already tested against
    zero. *)
Lemma checkEventTrigger_full (s : StaLta) :
  staFull s = true -> ltaFull s = true ->
  checkEventTrigger s =
    Some (if decide (ltaSum s / 2500 = 0) then false
          else bool_decide (staSum s / 25 / (ltaSum s / 2500) > STA_LTA_RATIO)).
Proof.
  intros Hs Hl. unfold checkEventTrigger. rewrite Hs, Hl. cbn [negb orb].
  rewrite INR_STA_WINDOW, INR_LTA_WINDOW.
  rewrite !fdiv_nonzero by lra. cbn [mbind option_bind].
  case_decide as Hz; [reflexivity|].
  rewrite fdiv_nonzero by exact Hz. reflexivity.
Qed.

(** C5: [checkEventTrigger] always completes without dividing by zero; it
    returns true exactly when [staFull] and [ltaFull] are both latched and
    the ratio (staSum/STA_WINDOW)/(ltaSum/LTA_WINDOW), with [ltaSum] not
    zero, strictly exceeds [STA_LTA_RATIO] = 2.5; for [ltaSum] = 0 it
    returns false. *)
Theorem checkEventTrigger_spec (s : StaLta) :
  exists b : bool,
    checkEventTrigger s = Some b /\
    (b = true <->
       staFull s = true /\ ltaFull s = true /\ ltaSum s <> 0 /\
       staSum s / INR STA_WINDOW / (ltaSum s / INR LTA_WINDOW) > 2.5) /\
    (ltaSum s = 0 -> b = false).
Proof.
  rewrite INR_STA_WINDOW, INR_LTA_WINDOW.
  destruct (staFull s) eqn:Hs; [destruct (ltaFull s) eqn:Hl|].
  - rewrite checkEventTrigger_full by assumption.
    eexists; split; [reflexivity|]. unfold STA_LTA_RATIO.
    case_decide as Hz.
    + split.
      * split; [discriminate|]. intros (_ & _ & Hne & _). exfalso. lra.
      * reflexivity.
    + split.
      * rewrite bool_decide_eq_true. split.
        -- intros Hr. repeat split; auto. intros H0. apply Hz. rewrite H0. lra.
        -- intros (_ & _ & _ & Hr). exact Hr.
      * intros H0. exfalso. apply Hz. rewrite H0. lra.
  - exists false. unfold checkEventTrigger. rewrite Hs, Hl. cbn [negb orb].
    split; [reflexivity|]. split; [|reflexivity].
    split; [discriminate|]. intros (_ & Hc & _). discriminate.
  - exists false. unfold checkEventTrigger. rewrite Hs. cbn [negb orb].
    split; [reflexivity|]. split; [|reflexivity].
    split; [discriminate|]. intros (Hc & _). discriminate.
Qed.

(** ** The event life cycle: what ending an event changes *)

Lemma set_stats_same (st : Seismograph) : set_stats (stats st) st = st.
Proof. destruct st; reflexivity. Qed.

(** Reading the sensor touches only the statistics [totalSamples] and
    [lastMagnitude] and the read counter of the sensor. *)
Lemma readSensor_spec (st : Seismograph) (w : World) :
  exists (d : SensorData.t) (t : Stats) (n : nat),
    readSensor st w =
      (d, set_stats t st,
       mkWorld (clock w) (timeManager w) (globalDataLogger w)
               (globalCoreManager w) (mpuFrames w) n) /\
    eventsDetected t = eventsDetected (stats st) /\
    spikesFiltered t = spikesFiltered (stats st) /\
    (initialized st = false -> totalSamples t = totalSamples (stats st)).
Proof.
  unfold readSensor. destruct (initialized st) eqn:Hi; cbn [negb].
  - eexists _, _, _. split; [reflexivity|]. cbn. repeat split. discriminate.
  - exists (SensorData.mk 0 0 0 0 (millis w)), (stats st), (mpuReads w).
    rewrite set_stats_same. destruct w. cbn. repeat split.
Qed.

(** [createSeismicEvent] appends at most one record, and exactly one when
    the time is trusted and the logger is ready; the record carries the
    duration it was given. *)
Lemma createSeismicEvent_spec (magnitude : R) (duration : Z) (source : string)
    (st : Seismograph) (w : World) :
  exists (t : Stats) (n : nat) (dl : option DataLogger.t) (r : SeismicEventData.t),
    createSeismicEvent magnitude duration source st w =
      (set_stats t st,
       mkWorld (clock w) (timeManager w) dl (globalCoreManager w) (mpuFrames w) n) /\
    eventsDetected t = eventsDetected (stats st) /\
    spikesFiltered t = spikesFiltered (stats st) /\
    (initialized st = false -> totalSamples t = totalSamples (stats st)) /\
    SeismicEventData.durationMs r = duration /\
    SeismicEventData.ntpValidated r = true /\
    let w' := mkWorld (clock w) (timeManager w) dl (globalCoreManager w) (mpuFrames w) n in
    seismicRecords w' =
      seismicRecords w ++ (if timeTrusted w && loggerReady w then [r] else []) /\
    (timeTrusted w = false -> dl = globalDataLogger w).
Proof.
  unfold createSeismicEvent, timeTrusted.
  destruct (TimeManager.isTimeValid (millis w) (timeManager w)) eqn:Hv; cbn [negb andb].
  - destruct (readSensor_spec st w) as (d & t & n & -> & He & Hs & Ht).
    match goal with
    | |- context [DataLogger.logSeismicEvent ?e _] => set (rec := e)
    end.
    exists t, n.
    unfold seismicRecords, loggerReady. cbn [globalDataLogger].
    destruct (globalDataLogger w) as [dl|] eqn:Hdl.
    + unfold DataLogger.logSeismicEvent.
      change (SeismicEventData.ntpValidated rec) with true. cbn [negb].
      destruct (DataLogger.initialized dl) eqn:Hi; cbn [negb andb];
        [destruct (DataLogger.fileOpens dl) eqn:Hf; cbn [negb]|].
      * eexists _, rec. split; [reflexivity|]. cbn [set_globalDataLogger globalDataLogger
          DataLogger.seismicFile]. repeat split; auto. discriminate.
      * exists (Some dl), rec. split; [reflexivity|].
        rewrite app_nil_r. repeat split; auto.
      * exists (Some dl), rec. split; [reflexivity|].
        rewrite app_nil_r. repeat split; auto.
    + exists None, rec. split; [reflexivity|]. repeat split; auto.
  - exists (stats st), (mpuReads w), (globalDataLogger w).
    exists (SeismicEventData.mk 0 true 0 EmptyString 0 0 0 0 0 duration 0 0 0 0 0 0 false 0 0 0 0 0 EmptyString EmptyString).
    rewrite set_stats_same. destruct w; cbn. rewrite app_nil_r. repeat split; auto.
Qed.

(** The detector state an ended event leaves behind, given the statistics. *)
Lemma endEvent_inactive (st : Seismograph) (w : World) :
  eventActive (event st) = false -> endEvent st w = (st, w).
Proof. intros H. unfold endEvent. rewrite H. reflexivity. Qed.

(** Without trusted time [endEvent] stops right after the bookkeeping. *)
Lemma endEvent_rejected (st : Seismograph) (w : World) :
  eventActive (event st) = true -> timeTrusted w = false ->
  endEvent st w =
    (set_event
       (mkEventState false (eventStartTime (event st)) (eventMaxMagnitude (event st))
                     (eventSumMagnitude (event st)) (eventSampleCount (event st)))
       (set_stats
          (mkStats (totalSamples (stats st)) (uadd (eventsDetected (stats st)) 1)
                   (spikesFiltered (stats st)) (lastMagnitude (stats st))) st),
     w).
Proof.
  intros Ha Hv. unfold endEvent. rewrite Ha. cbn [negb].
  unfold timeTrusted in Hv. rewrite Hv. reflexivity.
Qed.

(** Ending a running event, in general: the event is closed, [eventsDetected]
    goes up by one, and the seismic file gains a record, with the duration
    measured now, exactly when the time is trusted and the logger is
    ready. *)
Lemma endEvent_spec (st : Seismograph) (w : World) :
  eventActive (event st) = true ->
  exists (t : Stats) (w' : World) (r : SeismicEventData.t),
    endEvent st w =
      (set_event
         (mkEventState false (eventStartTime (event st)) (eventMaxMagnitude (event st))
                       (eventSumMagnitude (event st)) (eventSampleCount (event st)))
         (set_stats t st), w') /\
    eventsDetected t = uadd (eventsDetected (stats st)) 1 /\
    spikesFiltered t = spikesFiltered (stats st) /\
    (initialized st = false -> totalSamples t = totalSamples (stats st)) /\
    clock w' = clock w /\ timeManager w' = timeManager w /\
    SeismicEventData.durationMs r = usub (millis w) (eventStartTime (event st)) /\
    SeismicEventData.ntpValidated r = true /\
    seismicRecords w' =
      seismicRecords w ++ (if timeTrusted w && loggerReady w then [r] else []).
Proof.
  intros Ha.
  destruct (timeTrusted w) eqn:Hv.
  - unfold endEvent. rewrite Ha. cbn [negb].
    unfold timeTrusted in Hv. rewrite Hv. cbn [negb].
    match goal with
    | |- context [createSeismicEvent ?m ?d ?s ?st1 w] =>
        destruct (createSeismicEvent_spec m d s st1 w)
          as (t & n & dl & r & -> & He & Hs & Ht & Hd & Hn & Hrec & _)
    end.
    cbv zeta in Hrec. unfold timeTrusted in Hrec. rewrite Hv in Hrec.
    cbn [andb] in *.
    exists t. cbn [globalCoreManager].
    destruct (globalCoreManager w) as [cm|].
    + destruct (DualCoreManager.sendEvent _ cm) as [ok cm1].
      eexists _, r. split; [destruct st; reflexivity|].
      cbn in He, Hs, Ht |- *. repeat split; auto.
    + eexists _, r. split; [destruct st; reflexivity|].
      cbn in He, Hs, Ht |- *. repeat split; auto.
  - rewrite (endEvent_rejected st w Ha Hv).
    eexists _, w, (SeismicEventData.mk 0 true 0 EmptyString 0 0 0 0 0
                     (usub (millis w) (eventStartTime (event st)))
                     0 0 0 0 0 0 false 0 0 0 0 0 EmptyString EmptyString).
    split; [destruct st; reflexivity|]. cbn. rewrite app_nil_r. repeat split.
Qed.

(** ** C6: the spike filter *)

#[local] Instance Rle_antisymm : AntiSymm (=) Rle.
Proof. intros x y Hxy Hyx. lra. Qed.












Lemma updateAdaptiveThresholds_stalta (st : Seismograph) (w : World) :
  stalta (updateAdaptiveThresholds st w) = stalta st.
Proof.
  unfold updateAdaptiveThresholds.
  destruct (adaptiveThresholdEnabled (adaptive st)); cbn [negb]; [|reflexivity].
  case_decide; [reflexivity|].
  destruct (ltaFull (stalta st)); reflexivity.
Qed.

Lemma checkCalibrationDrift_stalta (st : Seismograph) (w : World) :
  stalta (checkCalibrationDrift st w) = stalta st.
Proof.
  unfold checkCalibrationDrift. case_decide; [reflexivity|].
  destruct (negb _ || negb _ || bool_decide _); reflexivity.
Qed.

Lemma endEvent_stalta (st : Seismograph) (w : World) :
  stalta (endEvent st w).1 = stalta st.
Proof.
  destruct (eventActive (event st)) eqn:Ha.
  - destruct (endEvent_spec st w Ha) as (t & w' & r & -> & _). reflexivity.
  - rewrite (endEvent_inactive st w Ha). reflexivity.
Qed.

(** [processData] feeds exactly the admitted magnitudes to [updateSTALTA]. *)
Lemma processData_stalta (data : SensorData.t) (st : Seismograph) (w : World) :
  stalta (processData data st w).1 =
    if isSpikeFiltered (SensorData.magnitude data) st then stalta st
    else updateSTALTA (SensorData.magnitude data) (stalta st).
Proof.
  unfold processData.
  destruct (isSpikeFiltered _ st); [reflexivity|].
  match goal with
  | |- context [checkEventTrigger (stalta ?s)] => set (st3 := s)
  end.
  assert (Hs : stalta st3 = updateSTALTA (SensorData.magnitude data) (stalta st)).
  { subst st3. cbn [stalta set_stalta]. rewrite updateAdaptiveThresholds_stalta.
    reflexivity. }
  destruct (default false (checkEventTrigger (stalta st3))).
  - destruct (eventActive (event st3)); cbn [negb]; cbv beta iota; cbn [fst];
      rewrite checkCalibrationDrift_stalta; exact Hs.
  - destruct (eventActive (event st3)).
    + destruct (decide (usub (millis w) (eventStartTime (event st3))
                        >= MIN_EVENT_DURATION)%Z).
      * pose proof (endEvent_stalta st3 w) as He.
        destruct (endEvent st3 w) as [st4 w4]. cbv beta iota. cbn [fst] in *.
        rewrite checkCalibrationDrift_stalta, He. exact Hs.
      * cbv beta iota. cbn [fst]. rewrite checkCalibrationDrift_stalta. exact Hs.
    + cbv beta iota. cbn [fst]. rewrite checkCalibrationDrift_stalta. exact Hs.
Qed.

(** Windowed-sum fidelity along every run of the detector: however the
    detector is driven from the state its constructor leaves, the two sums
    equal the sums of their buffers. *)
Lemma runDetector_sums (inputs : list (Z * SensorData.t)) (w : World) :
  let s := stalta (runDetector inputs Seismograph_new w).1 in
  staltaShape s /\ sumsAgree s.
Proof.
  induction inputs as [|input inputs IH] using rev_ind.
  - split; [apply Seismograph_new_shape | apply Seismograph_new_sums].
  - cbv zeta in *. unfold runDetector in *. rewrite foldl_app. cbn [foldl].
    rewrite processData_stalta. destruct IH as [Hshape Hsums].
    destruct (isSpikeFiltered _ _); [split; assumption|]. split.
    + apply updateSTALTA_shape, Hshape.
    + apply updateSTALTA_sums; assumption.
Qed.


Lemma updateAdaptiveThresholds_spike (st : Seismograph) (w : World) :
  spike (updateAdaptiveThresholds st w) = spike st.
Proof.
  unfold updateAdaptiveThresholds.
  destruct (adaptiveThresholdEnabled (adaptive st)); cbn [negb]; [|reflexivity].
  case_decide; [reflexivity|].
  destruct (ltaFull (stalta st)); reflexivity.
Qed.

Lemma checkCalibrationDrift_spike (st : Seismograph) (w : World) :
  spike (checkCalibrationDrift st w) = spike st.
Proof.
  unfold checkCalibrationDrift. case_decide; [reflexivity|].
  destruct (negb _ || negb _ || bool_decide _); reflexivity.
Qed.

Lemma endEvent_spike (st : Seismograph) (w : World) :
  spike (endEvent st w).1 = spike st.
Proof.
  unfold endEvent. destruct (eventActive (event st)); cbn [negb]; [|reflexivity].
  destruct (TimeManager.isTimeValid _ _); cbn [negb]; [|reflexivity].
  match goal with
  | |- context [createSeismicEvent ?m ?d ?s ?st1 w] =>
      destruct (createSeismicEvent_spec m d s st1 w) as (t & n & dl & r & -> & _)
  end.
  cbn [globalCoreManager]. destruct (globalCoreManager w) as [cm|]; [|reflexivity].
  destruct (DualCoreManager.sendEvent _ cm). reflexivity.
Qed.

(** What [processData] does to the spike buffer: a rejected sample leaves
    it alone, an admitted one is written at [magnitudeIndex], the index
    moves on modulo 5 and [magnitudeBufferFull] latches when it wraps. *)
Lemma processData_spike (data : SensorData.t) (st : Seismograph) (w : World) :
  spike (processData data st w).1 =
    if isSpikeFiltered (SensorData.magnitude data) st then spike st
    else
      mkSpike (<[magnitudeIndex (spike st) := SensorData.magnitude data]>
                 (lastMagnitudes (spike st)))
              ((magnitudeIndex (spike st) + 1) mod 5)
              (if decide ((magnitudeIndex (spike st) + 1) mod 5 = 0)%nat then true
               else magnitudeBufferFull (spike st)).
Proof.
  unfold processData.
  destruct (isSpikeFiltered _ st); [reflexivity|].
  match goal with
  | |- context [checkEventTrigger (stalta ?s)] => set (st3 := s)
  end.
  assert (Hs : spike st3 =
                 mkSpike (<[magnitudeIndex (spike st) := SensorData.magnitude data]>
                            (lastMagnitudes (spike st)))
                         ((magnitudeIndex (spike st) + 1) mod 5)
                         (if decide ((magnitudeIndex (spike st) + 1) mod 5 = 0)%nat
                          then true else magnitudeBufferFull (spike st))).
  { subst st3. cbn [spike set_stalta]. rewrite updateAdaptiveThresholds_spike.
    reflexivity. }
  destruct (default false (checkEventTrigger (stalta st3))).
  - destruct (eventActive (event st3)); cbn [negb]; cbv beta iota; cbn [fst];
      rewrite checkCalibrationDrift_spike; exact Hs.
  - destruct (eventActive (event st3)).
    + destruct (decide (usub (millis w) (eventStartTime (event st3))
                        >= MIN_EVENT_DURATION)%Z).
      * pose proof (endEvent_spike st3 w) as He.
        destruct (endEvent st3 w) as [st4 w4]. cbv beta iota. cbn [fst] in *.
        rewrite checkCalibrationDrift_spike, He. exact Hs.
      * cbv beta iota. cbn [fst]. rewrite checkCalibrationDrift_spike. exact Hs.
    + cbv beta iota. cbn [fst]. rewrite checkCalibrationDrift_spike. exact Hs.
Qed.

(** The spike buffer keeps its five entries, whatever the detector is fed. *)
Lemma runDetector_spike_length (inputs : list (Z * SensorData.t))
    (st : Seismograph) (w : World) :
  length (lastMagnitudes (spike st)) = 5%nat ->
  length (lastMagnitudes (spike (runDetector inputs st w).1)) = 5%nat.
Proof.
  intros Hlen. induction inputs as [|input inputs IH] using rev_ind; [exact Hlen|].
  unfold runDetector in *. rewrite foldl_app. cbn [foldl].
  rewrite processData_spike.
  destruct (isSpikeFiltered _ _); [exact IH|].
  cbn [lastMagnitudes]. rewrite length_insert. exact IH.
Qed.

(** The warm-up: the first five samples after construction are all admitted
    and fill the buffer. *)
Lemma warm_up (d1 d2 d3 d4 d5 : SensorData.t) (t1 t2 t3 t4 t5 : Z) (w : World) :
  spike (runDetector [(t1, d1); (t2, d2); (t3, d3); (t4, d4); (t5, d5)]
                     Seismograph_new w).1 =
    mkSpike [SensorData.magnitude d1; SensorData.magnitude d2; SensorData.magnitude d3;
             SensorData.magnitude d4; SensorData.magnitude d5] 0 true.
Proof.
  unfold runDetector. cbn [foldl fst snd].
  assert (Hstep : forall d st w' l i,
            spike st = mkSpike l i false ->
            spike (processData d st w').1 =
              mkSpike (<[i := SensorData.magnitude d]> l) ((i + 1) mod 5)
                      (if decide ((i + 1) mod 5 = 0)%nat then true else false)).
  { intros d st w' l i Hs. rewrite processData_spike.
    unfold isSpikeFiltered. rewrite Hs. reflexivity. }
  pose proof (Hstep d1 Seismograph_new (set_clock t1 w) _ _ eq_refl) as H1.
  set (s1 := processData d1 Seismograph_new (set_clock t1 w)) in *. clearbody s1.
  cbn in H1.
  pose proof (Hstep d2 s1.1 (set_clock t2 s1.2) _ _ H1) as H2.
  set (s2 := processData d2 s1.1 (set_clock t2 s1.2)) in *. clearbody s2. cbn in H2.
  pose proof (Hstep d3 s2.1 (set_clock t3 s2.2) _ _ H2) as H3.
  set (s3 := processData d3 s2.1 (set_clock t3 s2.2)) in *. clearbody s3. cbn in H3.
  pose proof (Hstep d4 s3.1 (set_clock t4 s3.2) _ _ H3) as H4.
  set (s4 := processData d4 s3.1 (set_clock t4 s3.2)) in *. clearbody s4. cbn in H4.
  rewrite processData_spike. unfold isSpikeFiltered. rewrite H4. reflexivity.
Qed.



(** ** C1: events ended without trusted time *)

(** C1, as stated, fails: it has a rejection counter go up, but none of the
    three counters of the detector counts the rejections. [totalSamples] and
    [spikesFiltered] stay put when an event is rejected, and [eventsDetected]
    goes up for accepted events as well. *)
Lemma no_counter_counts_rejections :
  Forall (fun c => ~ countsNoTimeRejections c) counters.
Proof.
  unfold counters. constructor; [|constructor; [|constructor; [|constructor]]].
  - intros H. destruct (H activeDetector unsyncedWorld eq_refl) as [Hrej _].
    specialize (Hrej eq_refl).
    rewrite (endEvent_rejected activeDetector unsyncedWorld eq_refl eq_refl) in Hrej.
    cbn in Hrej. lia.
  - intros H. destruct (H activeDetector syncedWorld eq_refl) as [_ Hacc].
    specialize (Hacc eq_refl).
    destruct (endEvent_spec activeDetector syncedWorld eq_refl)
      as (t & w' & r & Heq & He & _).
    rewrite Heq in Hacc. cbn in Hacc, He. rewrite He in Hacc.
    vm_compute in Hacc. discriminate.
  - intros H. destruct (H activeDetector unsyncedWorld eq_refl) as [Hrej _].
    specialize (Hrej eq_refl).
    rewrite (endEvent_rejected activeDetector unsyncedWorld eq_refl eq_refl) in Hrej.
    cbn in Hrej. lia.
Qed.

(** C1, amended: when an event ends while the clock does not report trusted
    time, the record is dropped: the world is left exactly as it was, so
    nothing is appended to the seismic file, nothing is handed to the broker
    and nothing is put on the event queue. In the detector the event is
    closed and [eventsDetected] goes up by one (an [unsigned long]
    increment); [totalSamples] and [spikesFiltered] keep their values. *)
Theorem endEvent_without_trusted_time (st : Seismograph) (w : World) :
  eventActive (event st) = true ->
  TimeManager.isTimeValid (millis w) (timeManager w) = false ->
  let st' := (endEvent st w).1 in
  let w' := (endEvent st w).2 in
  w' = w /\
  seismicRecords w' = seismicRecords w /\
  brokerRecords w' = brokerRecords w /\
  queuedEvents w' = queuedEvents w /\
  eventActive (event st') = false /\
  eventsDetected (stats st') = wrap32 (eventsDetected (stats st) + 1) /\
  totalSamples (stats st') = totalSamples (stats st) /\
  spikesFiltered (stats st') = spikesFiltered (stats st).
Proof.
  intros Ha Hv. cbv zeta.
  rewrite (endEvent_rejected st w Ha Hv). cbn. repeat split.
Qed.

Lemma endEvent_without_trusted_time_witness :
  eventActive (event activeDetector) = true /\
  TimeManager.isTimeValid (millis unsyncedWorld) (timeManager unsyncedWorld) = false /\
  seismicRecords (endEvent activeDetector unsyncedWorld).2 = [] /\
  queuedEvents (endEvent activeDetector unsyncedWorld).2 = [].
Proof.
  pose proof (endEvent_without_trusted_time activeDetector unsyncedWorld eq_refl eq_refl)
    as (_ & Hrec & _ & Hq & _).
  repeat split; assumption.
Defined.

(** ** C10: every ended event is counted *)

(** C10: ending an active event adds exactly one to [eventsDetected] (an
    [unsigned long] increment) whether or not the clock reports trusted
    time; and an event rejected for want of trusted time leaves the counter
    above the number of persisted records. *)
Theorem endEvent_counts_every_event :
  (forall (st : Seismograph) (w : World),
     eventActive (event st) = true ->
     eventsDetected (stats (endEvent st w).1) = wrap32 (eventsDetected (stats st) + 1)) /\
  (exists (st : Seismograph) (w : World),
     eventActive (event st) = true /\
     (Z.of_nat (length (seismicRecords (endEvent st w).2))
      < eventsDetected (stats (endEvent st w).1))%Z).
Proof.
  split.
  - intros st w Ha.
    destruct (endEvent_spec st w Ha) as (t & w' & r & -> & He & _).
    cbn. exact He.
  - exists activeDetector, unsyncedWorld. split; [reflexivity|].
    rewrite (endEvent_rejected activeDetector unsyncedWorld eq_refl eq_refl).
    vm_compute. reflexivity.
Qed.

Lemma endEvent_counts_every_event_witness :
  eventActive (event activeDetector) = true /\
  eventsDetected (stats (endEvent activeDetector unsyncedWorld).1) = 1%Z /\
  eventsDetected (stats (endEvent activeDetector syncedWorld).1) = 1%Z.
Proof.
  destruct endEvent_counts_every_event as [Hall _].
  split; [reflexivity|]. split.
  - rewrite (Hall activeDetector unsyncedWorld eq_refl). reflexivity.
  - rewrite (Hall activeDetector syncedWorld eq_refl). reflexivity.
Defined.

(** ** C4: the duration of emitted records *)

Lemma updateAdaptiveThresholds_event (st : Seismograph) (w : World) :
  event (updateAdaptiveThresholds st w) = event st.
Proof.
  unfold updateAdaptiveThresholds.
  destruct (adaptiveThresholdEnabled (adaptive st)); cbn [negb]; [|reflexivity].
  case_decide; [reflexivity|].
  destruct (ltaFull (stalta st)); reflexivity.
Qed.

(** [processData] either leaves the world alone or ends, through [endEvent],
    an event that has been running for at least [MIN_EVENT_DURATION]. *)
Lemma processData_world (data : SensorData.t) (st : Seismograph) (w : World) :
  (processData data st w).2 = w \/
  exists st3 : Seismograph,
    event st3 = event st /\
    eventActive (event st3) = true /\
    (usub (millis w) (eventStartTime (event st3)) >= MIN_EVENT_DURATION)%Z /\
    (processData data st w).2 = (endEvent st3 w).2.
Proof.
  unfold processData.
  destruct (isSpikeFiltered _ st); [left; reflexivity|].
  match goal with
  | |- context [checkEventTrigger (stalta ?s)] => set (st3 := s)
  end.
  assert (He : event st3 = event st).
  { subst st3. cbn [event set_stalta]. rewrite updateAdaptiveThresholds_event. reflexivity. }
  destruct (default false (checkEventTrigger (stalta st3))).
  - destruct (eventActive (event st3)); left; reflexivity.
  - destruct (eventActive (event st3)) eqn:Ha; [|left; reflexivity].
    case_decide as Hd; [|left; reflexivity].
    right. exists st3. repeat split; auto.
    destruct (endEvent st3 w) as [st4 w4]. reflexivity.
Qed.

(** The records one call of [processData] appends last at least
    [MIN_EVENT_DURATION]. *)
Lemma processData_records (data : SensorData.t) (st : Seismograph) (w : World) :
  exists new : list SeismicEventData.t,
    seismicRecords (processData data st w).2 = seismicRecords w ++ new /\
    Forall (fun r => (MIN_EVENT_DURATION <= SeismicEventData.durationMs r)%Z) new.
Proof.
  destruct (processData_world data st w) as [-> | (st3 & _ & Ha & Hd & ->)].
  - exists []. rewrite app_nil_r. split; [reflexivity | constructor].
  - destruct (endEvent_spec st3 w Ha)
      as (t & w' & r & Heq & _ & _ & _ & _ & _ & Hr & _ & Hrec).
    rewrite Heq. cbn [snd]. rewrite Hrec. eexists. split; [reflexivity|].
    destruct (timeTrusted w && loggerReady w); constructor; [|constructor].
    rewrite Hr. lia.
Qed.

(** While no event is running [processData] leaves the world alone. *)
Lemma processData_idle (data : SensorData.t) (st : Seismograph) (w : World) :
  eventActive (event st) = false -> (processData data st w).2 = w.
Proof.
  intros Ha. destruct (processData_world data st w) as [H | (st3 & He & Ha3 & _)].
  - exact H.
  - rewrite He, Ha in Ha3. discriminate.
Qed.

Lemma simulateSample_foldl (pga : R) (e : EventState) (l : list nat) :
  eventActive (foldl (simulateSample pga) e l) = eventActive e /\
  eventStartTime (foldl (simulateSample pga) e l) = eventStartTime e.
Proof.
  revert e. induction l as [|i l IH]; intros e; [split; reflexivity|].
  cbn [foldl]. destruct (IH (simulateSample pga e i)) as [-> ->]. split; reflexivity.
Qed.

(** The record of a simulated event: its duration is the tenth of the
    synthetic duration that [simulateEvent] waits before ending the event. *)
Lemma simulateEvent_records (richter : R) (st : Seismograph) (w : World) :
  eventActive (event st) = false ->
  timeTrusted (delay (calculateEventDuration richter / 10) w) = true ->
  loggerReady w = true ->
  exists r : SeismicEventData.t,
    seismicRecords (simulateEvent richter st w).2 = seismicRecords w ++ [r] /\
    SeismicEventData.durationMs r =
      usub (uadd (clock w) (calculateEventDuration richter / 10)) (clock w).
Proof.
  intros Ha Hv Hl. unfold simulateEvent. rewrite Ha. cbn [negb].
  match goal with
  | |- context [endEvent ?s ?w1] =>
      assert (Ha2 : eventActive (event s) = true);
      [ cbn [event set_event];
        rewrite (proj1 (simulateSample_foldl _ _ _)); reflexivity
      | destruct (endEvent_spec s w1 Ha2)
          as (t & w' & r & Heq & _ & _ & _ & _ & _ & Hr & _ & Hrec) ]
  end.
  rewrite Heq. rewrite processData_idle by reflexivity.
  exists r. split.
  - rewrite Hrec, Hv. unfold loggerReady, seismicRecords in *.
    cbn [delay globalDataLogger] in *. rewrite Hl. reflexivity.
  - rewrite Hr. cbn [event set_event].
    rewrite (proj2 (simulateSample_foldl _ _ _)). reflexivity.
Qed.

Lemma Int_part_IZR (z : Z) (x : R) : x = IZR z -> Int_part x = z.
Proof. intros ->. symmetry. apply Int_part_spec. lra. Qed.

Lemma calculateEventDuration_1 : calculateEventDuration 1 = 300%Z.
Proof.
  unfold calculateEventDuration. case_decide; [|lra].
  unfold float_to_ulong, truncate. case_decide; [lra|].
  rewrite (Int_part_IZR 300) by lra. reflexivity.
Qed.

(** C4, as stated, fails on the simulation path: simulating Richter 1 with
    trusted time persists one record, and its duration is 30 ms. *)
Lemma simulated_record_shorter_than_minimum :
  exists r : SeismicEventData.t,
    seismicRecords (simulateEvent 1 Seismograph_new syncedWorld).2 = [r] /\
    SeismicEventData.durationMs r = 30%Z /\
    ~ (SeismicEventData.durationMs r >= 100)%Z.
Proof.
  destruct (simulateEvent_records 1 Seismograph_new syncedWorld) as (r & Hrec & Hr).
  - reflexivity.
  - rewrite calculateEventDuration_1. reflexivity.
  - reflexivity.
  - exists r. rewrite calculateEventDuration_1 in Hr.
    split; [exact Hrec|]. split; [rewrite Hr; reflexivity|]. rewrite Hr.
    vm_compute. intros H. apply H. reflexivity.
Qed.

Lemma runDetector_snoc (inputs : list (Z * SensorData.t)) (input : Z * SensorData.t)
    (st : Seismograph) (w : World) :
  runDetector (inputs ++ [input]) st w =
    processData input.2 (runDetector inputs st w).1
                (set_clock input.1 (runDetector inputs st w).2).
Proof. unfold runDetector. rewrite foldl_app. reflexivity. Qed.

(** A later reading of the clock only lengthens the measured duration, as
    long as the event is younger than the 2^32 ms after which [millis()]
    wraps. *)
Lemma usub_later (now start lag : Z) :
  (usub now start >= 100)%Z -> (0 <= lag)%Z ->
  (usub now start + lag < ULONG_MOD)%Z ->
  (usub (now + lag) start >= 100)%Z.
Proof.
  unfold usub, wrap32, ULONG_MOD. intros H1 H2 H3.
  replace (now + lag - start)%Z with ((now - start) + lag)%Z by lia.
  rewrite <- Zplus_mod_idemp_l.
  pose proof (Z.mod_pos_bound (now - start) (2 ^ 32) ltac:(lia)) as Hb.
  rewrite Z.mod_small by lia. lia.
Qed.

(** C4, amended to the detector path: however the detector is driven
    through [processData], from whatever state, every record it appends to
    the seismic file has a duration of at least [MIN_EVENT_DURATION] = 100
    ms. (The duration is the clock reading that passed the gate of
    [processData] minus the start of the event.) *)
Theorem detector_records_min_duration
    (inputs : list (Z * SensorData.t)) (st : Seismograph) (w : World) :
  exists new : list SeismicEventData.t,
    seismicRecords (runDetector inputs st w).2 = seismicRecords w ++ new /\
    Forall (fun r => (SeismicEventData.durationMs r >= 100)%Z) new.
Proof.
  induction inputs as [|input inputs IH] using rev_ind.
  - exists []. rewrite app_nil_r. split; [reflexivity | constructor].
  - destruct IH as (new & Hrec & Hall). rewrite runDetector_snoc.
    destruct (processData_records input.2 (runDetector inputs st w).1
                (set_clock input.1 (runDetector inputs st w).2))
      as (new' & -> & Hall').
    exists (new ++ new'). split.
    + change (seismicRecords (set_clock input.1 (runDetector inputs st w).2))
        with (seismicRecords (runDetector inputs st w).2).
      rewrite Hrec, app_assoc. reflexivity.
    + apply Forall_app. split; [exact Hall|].
      eapply Forall_impl; [exact Hall'|]. unfold MIN_EVENT_DURATION. intros r Hr. lia.
Qed.

(** ** C7: Richter to PGA and back *)

Lemma ln_10_pos : 0 < ln 10.
Proof. rewrite <- ln_1. apply ln_increasing; lra. Qed.

Lemma log10_pow10 (y : R) : log10 (pow10 y) = y.
Proof.
  unfold log10, pow10, Rpower. rewrite ln_exp.
  pose proof ln_10_pos. field. lra.
Qed.

Lemma pow10_pos (y : R) : 0 < pow10 y.
Proof. unfold pow10, Rpower. apply exp_pos. Qed.

Lemma pow10_le_of_log10 (y c : R) : 0 < c -> y <= log10 c -> pow10 y <= c.
Proof.
  intros Hc Hy. unfold pow10, Rpower.
  assert (H : exp (y * ln 10) <= exp (ln c)).
  { destruct (Rle_lt_or_eq_dec _ _ Hy) as [Hlt | ->].
    - left. apply exp_increasing. unfold log10 in Hlt.
      pose proof ln_10_pos as Hp.
      apply (Rmult_lt_compat_r (ln 10)) in Hlt; [|exact Hp].
      replace (ln c / ln 10 * ln 10) with (ln c) in Hlt by (field; lra). exact Hlt.
    - right. f_equal. unfold log10. pose proof ln_10_pos. field. lra. }
  rewrite (exp_ln c Hc) in H. exact H.
Qed.

Lemma pow10_ge_1 (y : R) : 0 <= y -> 1 <= pow10 y.
Proof.
  intros Hy. unfold pow10, Rpower. rewrite <- exp_0.
  destruct Hy as [Hy | <-].
  - left. apply exp_increasing. pose proof ln_10_pos. nra.
  - right. f_equal. lra.
Qed.

Lemma pow10_nat (n : nat) : pow10 (INR n) = 10 ^ n.
Proof. unfold pow10. apply Rpower_pow. lra. Qed.

(** The largest PGA [calculatePGAFromRichter] returns, 10 g, is the PGA of
    Richter log10(98066.5), a little below 5. *)
Lemma log10_clamp_lt_5 : log10 (10 * 9806.65) < 5.
Proof.
  unfold log10. pose proof ln_10_pos as Hp.
  apply (Rmult_lt_reg_r (ln 10)); [exact Hp|].
  replace (ln (10 * 9806.65) / ln 10 * ln 10) with (ln (10 * 9806.65)) by (field; lra).
  replace (5 * ln 10) with (ln (10 ^ 5)).
  - apply ln_increasing; lra.
  - rewrite ln_pow by lra. simpl. lra.
Qed.

Lemma log10_clamp_ge_499 : 4.99 <= log10 (10 * 9806.65).
Proof.
  unfold log10. pose proof ln_10_pos as Hp.
  apply (Rmult_le_reg_r (ln 10)); [exact Hp|].
  replace (ln (10 * 9806.65) / ln 10 * ln 10) with (ln (10 * 9806.65)) by (field; lra).
  apply (Rmult_le_reg_l 100); [lra|].
  replace (100 * (4.99 * ln 10)) with (INR 499 * ln 10)
    by (rewrite INR_IZR_INZ; change (Z.of_nat 499) with 499%Z; lra).
  replace (100 * ln (10 * 9806.65)) with (INR 100 * ln (10 * 9806.65))
    by (rewrite INR_IZR_INZ; change (Z.of_nat 100) with 100%Z; lra).
  rewrite <- !ln_pow by lra.
  assert (Hle : 10 ^ 499 <= (10 * 9806.65) ^ 100).
  { apply (Rmult_le_reg_r (2 ^ 100)); [apply pow_lt; lra|].
    rewrite <- Rpow_mult_distr.
    replace (10 * 9806.65 * 2) with (IZR 196133) by lra.
    rewrite !pow_IZR. rewrite <- mult_IZR. apply IZR_le.
    vm_compute. discriminate. }
  destruct Hle as [Hlt | Heq].
  - left. apply ln_increasing; [apply pow_lt; lra | exact Hlt].
  - right. rewrite Heq. reflexivity.
Qed.

Lemma constrain_inside (x lo hi : R) : lo <= x <= hi -> constrain x lo hi = x.
Proof. intros H. unfold constrain. rcases. Qed.

Lemma constrain_above (x lo hi : R) : lo <= hi -> hi < x -> constrain x lo hi = hi.
Proof. intros H1 H2. unfold constrain. rcases. Qed.

(** At 10 g, the largest PGA the inverse returns, the Richter value is
    log10(98066.5). *)
Lemma calculateRichterMagnitude_10 :
  calculateRichterMagnitude 10 = log10 (10 * 9806.65).
Proof.
  unfold calculateRichterMagnitude, LOCAL_MAGNITUDE_OFFSET.
  case_decide; [lra|].
  pose proof log10_clamp_lt_5. pose proof log10_clamp_ge_499.
  rewrite constrain_inside by lra. lra.
Qed.

Lemma calculatePGAFromRichter_8 : calculatePGAFromRichter 8 = 10.
Proof.
  unfold calculatePGAFromRichter, LOCAL_MAGNITUDE_OFFSET.
  case_decide as H; [destruct H; lra|].
  replace (8 + 0) with (INR 8) by (rewrite INR_IZR_INZ; change (Z.of_nat 8) with 8%Z; lra).
  rewrite pow10_nat. apply constrain_above; [lra|]. simpl. lra.
Qed.

(** C7, as stated, fails: Richter 8 maps to a PGA clamped at 10 g, which
    maps back to log10(98066.5), below 5 and so more than 3 away from 8. *)
Lemma richter_round_trip_fails_at_8 :
  ~ (Rabs (calculateRichterMagnitude (calculatePGAFromRichter 8) - 8) <= 0.001).
Proof.
  rewrite calculatePGAFromRichter_8, calculateRichterMagnitude_10.
  pose proof log10_clamp_lt_5 as H5. intros H.
  rewrite Rabs_left in H by lra. lra.
Qed.

(** C7, amended: for every Richter value R from 0 up to log10(98066.5)
    (about 4.9915, the Richter value of the 10 g at which
    [calculatePGAFromRichter] clamps), [calculateRichterMagnitude]
    of [calculatePGAFromRichter] of R is R itself in exact arithmetic, and
    so within 0.001 of R. *)
Theorem richter_round_trip (r : R) :
  0 <= r <= log10 (10 * 9806.65) ->
  calculateRichterMagnitude (calculatePGAFromRichter r) = r /\
  Rabs (calculateRichterMagnitude (calculatePGAFromRichter r) - r) <= 0.001.
Proof.
  intros [H0 Hmax].
  pose proof log10_clamp_lt_5 as H5.
  assert (Hpga : calculatePGAFromRichter r = pow10 r / 9806.65).
  { unfold calculatePGAFromRichter, LOCAL_MAGNITUDE_OFFSET.
    case_decide as H; [destruct H; lra|].
    replace (r + 0) with r by lra.
    pose proof (pow10_ge_1 r H0) as H1.
    pose proof (pow10_le_of_log10 r (10 * 9806.65) ltac:(lra) Hmax) as H2.
    apply constrain_inside. split.
    - apply (Rmult_le_reg_r 9806.65); [lra|].
      replace (pow10 r / 9806.65 * 9806.65) with (pow10 r) by (field; lra). lra.
    - apply (Rmult_le_reg_r 9806.65); [lra|].
      replace (pow10 r / 9806.65 * 9806.65) with (pow10 r) by (field; lra). lra. }
  assert (Heq : calculateRichterMagnitude (calculatePGAFromRichter r) = r).
  { rewrite Hpga. unfold calculateRichterMagnitude, LOCAL_MAGNITUDE_OFFSET.
    pose proof (pow10_pos r) as Hp.
    case_decide as H.
    - exfalso. apply (Rmult_le_compat_r 9806.65) in H; [|lra].
      replace (pow10 r / 9806.65 * 9806.65) with (pow10 r) in H by (field; lra). lra.
    - replace (pow10 r / 9806.65 * 9806.65) with (pow10 r) by (field; lra).
      rewrite log10_pow10. rewrite constrain_inside by lra. lra. }
  split; [exact Heq|]. rewrite Heq.
  replace (r - r) with 0 by lra. rewrite Rabs_R0. lra.
Qed.

Lemma richter_round_trip_witness :
  0 <= 4.99 <= log10 (10 * 9806.65) /\
  calculateRichterMagnitude (calculatePGAFromRichter 4.99) = 4.99.
Proof.
  assert (H : 0 <= 4.99 <= log10 (10 * 9806.65)).
  { split; [lra | exact log10_clamp_ge_499]. }
  split; [exact H|]. exact (proj1 (richter_round_trip 4.99 H)).
Defined.

(** ** C8: the adaptive thresholds *)

Lemma constrain_range (x lo hi : R) : lo <= hi -> lo <= constrain x lo hi <= hi.
Proof. intros H. unfold constrain. rcases. Qed.

(** The guard on a computed threshold: a value that is not positive gives
    way to the base, a positive one is kept. *)
Lemma validThreshold_spec (computed base : R) :
  (computed <= 0 -> validThreshold computed base = base) /\
  (0 < computed -> validThreshold computed base = computed).
Proof.
  unfold validThreshold. cbn [isnan orb]. split; intros H.
  - rewrite bool_decide_true by exact H. reflexivity.
  - rewrite bool_decide_false by lra. reflexivity.
Qed.

(** A long-term average of 0.0005 g is taken as the noise level as it is;
    it is not raised to 0.001. *)
Lemma noise_not_floored_at_0001 :
  let st' := updateAdaptiveThresholds lowNoiseDetector halfMinuteWorld in
  ltaSum (stalta lowNoiseDetector) / INR LTA_WINDOW = 0.0005 /\
  backgroundNoise (adaptive st') = 0.0005 /\
  ~ (0.001 <= backgroundNoise (adaptive st')).
Proof.
  assert (Hlta : ltaSum (stalta lowNoiseDetector) / INR LTA_WINDOW = 0.0005).
  { rewrite INR_LTA_WINDOW. change (ltaSum (stalta lowNoiseDetector)) with 1.25. lra. }
  assert (Hn : backgroundNoise
                 (adaptive (updateAdaptiveThresholds lowNoiseDetector halfMinuteWorld))
               = 0.0005).
  { unfold updateAdaptiveThresholds.
    change (adaptiveThresholdEnabled (adaptive lowNoiseDetector)) with true.
    change (ltaFull (stalta lowNoiseDetector)) with true. cbn [negb].
    case_decide as Hd; [vm_compute in Hd; discriminate|].
    rewrite Hlta. cbn [isnan orb].
    rewrite (bool_decide_false (0.0005 < 0.0001)) by lra. reflexivity. }
  cbv zeta. rewrite Hn. split; [exact Hlta|]. split; [reflexivity | lra].
Qed.

(** What one update computes from a long-term average that is a number.
    An update happens only with adaptive mode on, at least 30 s after the
    previous attempt, and with the LTA buffer full; otherwise thresholds and
    noise level keep their values. On an update the noise level is
    ltaSum/LTA_WINDOW, replaced by 0.001 when that is below 0.0001 (a value
    from 0.0001 up to 0.001 is kept as it is); the adaptation factor is
    1 + noise/THRESHOLD_MICRO clamped to [0.5, 3]; each new threshold is its
    base times the factor, clamped to [0.5, 3] times the base. *)
Theorem adaptive_update_spec (st : Seismograph) (w : World) :
  let a := adaptive st in
  let a' := adaptive (updateAdaptiveThresholds st w) in
  let lta := ltaSum (stalta st) / INR LTA_WINDOW in
  let noise := if decide (lta < 0.0001) then 0.001 else lta in
  let factor := constrain (1 + noise / THRESHOLD_MICRO) 0.5 3 in
  (adaptiveThresholdEnabled a = true ->
   (usub (millis w) (lastAdaptiveUpdate a) >= 30000)%Z ->
   ltaFull (stalta st) = true ->
     backgroundNoise a' = noise /\
     adaptiveThresholdMicro a' =
       constrain (THRESHOLD_MICRO * factor) (THRESHOLD_MICRO * 0.5) (THRESHOLD_MICRO * 3) /\
     adaptiveThresholdLight a' =
       constrain (THRESHOLD_LIGHT * factor) (THRESHOLD_LIGHT * 0.5) (THRESHOLD_LIGHT * 3) /\
     adaptiveThresholdStrong a' =
       constrain (THRESHOLD_STRONG * factor) (THRESHOLD_STRONG * 0.5) (THRESHOLD_STRONG * 3) /\
     lastAdaptiveUpdate a' = millis w) /\
  (adaptiveThresholdEnabled a = false \/
   (usub (millis w) (lastAdaptiveUpdate a) < 30000)%Z \/
   ltaFull (stalta st) = false ->
     backgroundNoise a' = backgroundNoise a /\
     adaptiveThresholdMicro a' = adaptiveThresholdMicro a /\
     adaptiveThresholdLight a' = adaptiveThresholdLight a /\
     adaptiveThresholdStrong a' = adaptiveThresholdStrong a) /\
  (forall computed base : R, computed <= 0 -> validThreshold computed base = base) /\
  0 < THRESHOLD_MICRO * factor /\ 0 < THRESHOLD_LIGHT * factor /\
  0 < THRESHOLD_STRONG * factor.
Proof.
  intros a a' lta noise factor.
  assert (Hnoise : 0.0001 <= noise) by (subst noise; case_decide; lra).
  assert (Hfac : 0.5 <= factor <= 3) by (apply constrain_range; lra).
  split; [|split; [|split]].
  - intros Hen Hel Hfull. subst a'. unfold updateAdaptiveThresholds.
    fold a. rewrite Hen, Hfull. cbn [negb].
    case_decide as Hd; [lia|].
    cbn [isnan orb adaptive set_adaptive backgroundNoise adaptiveThresholdMicro
         adaptiveThresholdLight adaptiveThresholdStrong lastAdaptiveUpdate].
    fold lta.
    assert (Hn : (if bool_decide (lta < 0.0001) then 0.001 else lta) = noise).
    { subst noise. case_decide.
      - rewrite bool_decide_true by assumption. reflexivity.
      - rewrite bool_decide_false by assumption. reflexivity. }
    rewrite Hn.
    rewrite (bool_decide_true (THRESHOLD_MICRO > 0)) by (unfold THRESHOLD_MICRO; lra).
    rewrite (bool_decide_true (noise > 0)) by lra. cbn [andb]. fold factor.
    rewrite !(proj2 (validThreshold_spec _ _))
      by (unfold THRESHOLD_MICRO, THRESHOLD_LIGHT, THRESHOLD_STRONG; nra).
    repeat split; reflexivity.
  - intros Hgate. subst a'. unfold updateAdaptiveThresholds. fold a.
    destruct (adaptiveThresholdEnabled a) eqn:Hen; cbn [negb];
      [|repeat split; reflexivity].
    case_decide as Hd; [repeat split; reflexivity|].
    destruct (ltaFull (stalta st)) eqn:Hfull; cbn [negb];
      [|repeat split; reflexivity].
    destruct Hgate as [H | [H | H]]; [discriminate | lia | discriminate].
  - intros computed base H. apply validThreshold_spec, H.
  - unfold THRESHOLD_MICRO, THRESHOLD_LIGHT, THRESHOLD_STRONG. repeat split; nra.
Qed.

Lemma adaptive_update_spec_witness :
  adaptiveThresholdEnabled (adaptive lowNoiseDetector) = true /\
  (usub (millis halfMinuteWorld) (lastAdaptiveUpdate (adaptive lowNoiseDetector))
   >= 30000)%Z /\
  ltaFull (stalta lowNoiseDetector) = true /\
  backgroundNoise (adaptive (updateAdaptiveThresholds lowNoiseDetector halfMinuteWorld))
    = 0.0005.
Proof.
  assert (H2 : (usub (millis halfMinuteWorld)
                     (lastAdaptiveUpdate (adaptive lowNoiseDetector)) >= 30000)%Z).
  { vm_compute. discriminate. }
  split; [reflexivity|]. split; [exact H2|]. split; [reflexivity|].
  destruct (adaptive_update_spec lowNoiseDetector halfMinuteWorld) as (Hupd & _).
  destruct (Hupd eq_refl H2 eq_refl) as (Hn & _).
  rewrite Hn. rewrite INR_LTA_WINDOW. change (ltaSum (stalta lowNoiseDetector)) with 1.25.
  destruct (decide (1.25 / 2500 < 0.0001)); lra.
Defined.

(** C8: the floor of 0.001 is missed.  The code replaces the noise level
    by 0.001 only when it is below 0.0001, under the comment "Set minimum
    background noise".  With the LTA buffer full of 0.0005 g, adaptive mode
    on and 30 s gone since the last update, the update keeps 0.0005 as the
    noise level and sets the thresholds to 1.5 times their bases (0.0015,
    0.0075 and 0.03 g); a noise level floored at 0.001 gives the factor 2
    and the thresholds 0.002, 0.01 and 0.04 g. *)
Theorem adaptive_update_misses_floor :
  let a' := adaptive (updateAdaptiveThresholds lowNoiseDetector halfMinuteWorld) in
  adaptiveThresholdEnabled (adaptive lowNoiseDetector) = true /\
  ltaFull (stalta lowNoiseDetector) = true /\
  ltaSum (stalta lowNoiseDetector) / INR LTA_WINDOW = 0.0005 /\
  backgroundNoise a' = 0.0005 /\
  backgroundNoise a' < 0.001 /\
  adaptiveThresholdMicro a' = 0.0015 /\
  adaptiveThresholdLight a' = 0.0075 /\
  adaptiveThresholdStrong a' = 0.03 /\
  THRESHOLD_MICRO * constrain (1 + 0.001 / THRESHOLD_MICRO) 0.5 3 = 0.002 /\
  THRESHOLD_LIGHT * constrain (1 + 0.001 / THRESHOLD_MICRO) 0.5 3 = 0.01 /\
  THRESHOLD_STRONG * constrain (1 + 0.001 / THRESHOLD_MICRO) 0.5 3 = 0.04.
Proof.
  cbv zeta.
  assert (H2 : (usub (millis halfMinuteWorld)
                     (lastAdaptiveUpdate (adaptive lowNoiseDetector)) >= 30000)%Z)
    by (vm_compute; discriminate).
  assert (Hlta : ltaSum (stalta lowNoiseDetector) / INR LTA_WINDOW = 0.0005).
  { rewrite INR_LTA_WINDOW. change (ltaSum (stalta lowNoiseDetector)) with 1.25. lra. }
  destruct (adaptive_update_spec lowNoiseDetector halfMinuteWorld) as (Hupd & _).
  destruct (Hupd eq_refl H2 eq_refl) as (Hn & Hm & Hl & Hs & _).
  rewrite Hlta in Hn, Hm, Hl, Hs.
  destruct (decide (0.0005 < 0.0001)) as [Hlt | _]; [lra|].
  rewrite Hn, Hm, Hl, Hs.
  unfold THRESHOLD_MICRO, THRESHOLD_LIGHT, THRESHOLD_STRONG, constrain.
  repeat split; try reflexivity; repeat case_decide; lra.
Qed.

(** ** C9: a rejected calibration *)

Lemma fabs_Rabs (x : R) : fabs x = Rabs x.
Proof.
  unfold fabs, Rabs. case_decide; destruct (Rcase_abs x); lra.
Qed.

Lemma stabilityRejects_iff (n : nat) (l : list (R * R * R)) :
  stabilityRejects n l = true <->
  stdDev n axisX l > 0.01 \/ stdDev n axisY l > 0.01 \/ stdDev n axisZ l > 0.01.
Proof.
  unfold stabilityRejects. cbv zeta.
  rewrite !orb_true_iff, !bool_decide_eq_true. tauto.
Qed.

Lemma validateOffsets_rejects_iff (x y z zm : R) :
  validateOffsets x y z zm <> Accepted <->
  Rabs x > 0.5 \/ Rabs y > 0.5 \/ Rabs z < 0.8 \/ Rabs z > 1.5 \/ zm < 0.8 \/ zm > 1.5.
Proof.
  unfold validateOffsets. cbv zeta. rewrite !fabs_Rabs.
  destruct (bool_decide (Rabs x > 0.5)) eqn:E1;
    [apply bool_decide_eq_true in E1; split; [intros _; tauto | discriminate]|].
  destruct (bool_decide (Rabs y > 0.5)) eqn:E2;
    [apply bool_decide_eq_true in E2; split; [intros _; tauto | discriminate]|].
  destruct (bool_decide (Rabs z < 0.8)) eqn:E3;
    [apply bool_decide_eq_true in E3; split; [intros _; tauto | discriminate]|].
  destruct (bool_decide (Rabs z > 1.5)) eqn:E4;
    [apply bool_decide_eq_true in E4; split; [intros _; tauto | discriminate]|].
  destruct (bool_decide (zm < 0.8)) eqn:E5;
    [apply bool_decide_eq_true in E5; split; [intros _; tauto | discriminate]|].
  destruct (bool_decide (zm > 1.5)) eqn:E6;
    [apply bool_decide_eq_true in E6; split; [intros _; tauto | discriminate]|].
  apply bool_decide_eq_false in E1, E2, E3, E4, E5, E6. cbn [orb].
  split; [intros H; contradiction | tauto].
Qed.

Lemma INR_200 : INR 200 = 200.
Proof. rewrite INR_IZR_INZ. reflexivity. Qed.

(** C9: [calibrate] fails exactly when the stability phase finds an axis
    with a standard deviation above 0.01 g or validation finds |off_x| or
    |off_y| above 0.5 g, |off_z| outside [0.8, 1.5] g or the raw-Z mean
    outside [0.8, 1.5] g; when it fails, [calibrationValid] is false on
    return and [offsetX], [offsetY], [offsetZ] (like everything but
    [calibrationValid]) are as before the call; the offsets are overwritten,
    by the per-axis means, only when it succeeds. *)
Theorem calibrate_rejection_keeps_offsets (st : Seismograph) (w : World) :
  let stability := (readAccel 50 20 w).1 in
  let readings := (readAccel 200 10 (readAccel 50 20 w).2).1 in
  let off_x := accumulate axisX readings / 200 in
  let off_y := accumulate axisY readings / 200 in
  let off_z := accumulate axisZ readings / 200 in
  let rawZMean := accumulate axisZ readings / 200 in
  let unstable :=
    stdDev 50 axisX stability > 0.01 \/ stdDev 50 axisY stability > 0.01 \/
    stdDev 50 axisZ stability > 0.01 in
  let invalid :=
    Rabs off_x > 0.5 \/ Rabs off_y > 0.5 \/ Rabs off_z < 0.8 \/ Rabs off_z > 1.5 \/
    rawZMean < 0.8 \/ rawZMean > 1.5 in
  let ok := (calibrate st w).1.1.1 in
  let st' := (calibrate st w).1.2 in
  (unstable \/ invalid ->
     ok = false /\ calibrationValid (cal st') = false /\
     offsetX (cal st') = offsetX (cal st) /\
     offsetY (cal st') = offsetY (cal st) /\
     offsetZ (cal st') = offsetZ (cal st) /\
     st' = rejectCalibration st) /\
  (ok = false -> unstable \/ invalid) /\
  (ok = true ->
     calibrationValid (cal st') = true /\
     offsetX (cal st') = off_x /\ offsetY (cal st') = off_y /\
     offsetZ (cal st') = off_z).
Proof.
  cbv zeta. unfold calibrate.
  destruct (readAccel 50 20 w) as [stability w1]. cbn [fst snd].
  pose proof (stabilityRejects_iff 50 stability) as Hstab.
  destruct (stabilityRejects 50 stability) eqn:Es.
  - cbn [fst snd]. split; [|split].
    + intros _. repeat split; reflexivity.
    + intros _. left. apply Hstab. reflexivity.
    + discriminate.
  - assert (Hns : ~ (stdDev 50 axisX stability > 0.01 \/
                     stdDev 50 axisY stability > 0.01 \/
                     stdDev 50 axisZ stability > 0.01)).
    { intros H. apply Hstab in H. discriminate. }
    destruct (readAccel 200 10 w1) as [readings w2]. cbn [fst snd].
    rewrite INR_200.
    pose proof (validateOffsets_rejects_iff
                  (accumulate axisX readings / 200) (accumulate axisY readings / 200)
                  (accumulate axisZ readings / 200) (accumulate axisZ readings / 200))
      as Hval.
    destruct (validateOffsets _ _ _ _) eqn:Ev.
    1-4: cbn [fst snd]; split; [|split];
      [ intros _; repeat split; reflexivity
      | intros _; right; apply Hval; discriminate
      | discriminate ].
    assert (Hnv : ~ (Rabs (accumulate axisX readings / 200) > 0.5 \/
                     Rabs (accumulate axisY readings / 200) > 0.5 \/
                     Rabs (accumulate axisZ readings / 200) < 0.8 \/
                     Rabs (accumulate axisZ readings / 200) > 1.5 \/
                     accumulate axisZ readings / 200 < 0.8 \/
                     accumulate axisZ readings / 200 > 1.5)).
    { intros H. apply Hval in H. apply H. reflexivity. }
    destruct (readAccel 10 10 w2) as [testReadings w3]. cbn [fst snd].
    split; [|split].
    + intros [H | H]; contradiction.
    + discriminate.
    + intros _. cbn. repeat split; reflexivity.
Qed.

(** A sensor that always reads the same frame delivers the same reading
    every time. *)
Lemma readAccel_const (f : Frame) (n : nat) (d : Z) (w : World) :
  (forall k, mpuFrames w k = f) ->
  (readAccel n d w).1 =
    replicate n (IZR (raw_ax f) / 16384, IZR (raw_ay f) / 16384, IZR (raw_az f) / 16384) /\
  (forall k, mpuFrames (readAccel n d w).2 k = f).
Proof.
  revert w. induction n as [|n IH]; intros w Hw.
  - split; [reflexivity | exact Hw].
  - cbn [readAccel]. unfold getMotion6. rewrite Hw.
    match goal with
    | |- context [readAccel n d ?w1] =>
        destruct (IH w1 Hw) as [Hl Hf]; destruct (readAccel n d w1) as [rest w2]
    end.
    cbn [fst snd] in *. rewrite Hl. split; [reflexivity | exact Hf].
Qed.

Lemma accumulate_replicate (g : R * R * R -> R) (r : R * R * R) (n : nat) :
  accumulate g (replicate n r) = INR n * g r.
Proof.
  unfold accumulate.
  assert (H : forall a, foldl (fun acc x => acc + g x) a (replicate n r) = a + INR n * g r).
  { induction n as [|n IH]; intros a.
    - cbn. lra.
    - cbn [replicate foldl]. rewrite IH, S_INR. lra. }
  rewrite H. lra.
Qed.

Lemma calibrate_rejection_keeps_offsets_witness :
  Rabs (accumulate axisZ (readAccel 200 10 (readAccel 50 20 flatWorld).2).1 / 200) < 0.8 /\
  (calibrate calibratedDetector flatWorld).1.1.1 = false /\
  calibrationValid (cal (calibrate calibratedDetector flatWorld).1.2) = false /\
  offsetZ (cal (calibrate calibratedDetector flatWorld).1.2) = 0.98.
Proof.
  assert (Hz : Rabs (accumulate axisZ
                       (readAccel 200 10 (readAccel 50 20 flatWorld).2).1 / 200) < 0.8).
  { destruct (readAccel_const (mkFrame 0 0 0) 50 20 flatWorld) as [_ Hf];
      [intros k; reflexivity|].
    destruct (readAccel_const (mkFrame 0 0 0) 200 10 _ Hf) as [-> _].
    rewrite accumulate_replicate. cbn [axisZ raw_ax raw_ay raw_az fst snd].
    replace (INR 200 * (0 / 16384) / 200) with 0 by lra.
    rewrite Rabs_R0. lra. }
  split; [exact Hz|].
  destruct (calibrate_rejection_keeps_offsets calibratedDetector flatWorld) as (Hrej & _).
  destruct Hrej as (Hok & Hvalid & _ & _ & Hoz & _).
  { right. right. right. left. exact Hz. }
  split; [exact Hok|]. split; [exact Hvalid|]. rewrite Hoz. reflexivity.
Defined.

(** ** STA/LTA: what the ring buffers hold *)

Lemma Rsum_app (l k : list R) : Rsum (l ++ k) = Rsum l + Rsum k.
Proof.
  induction l as [|a l IH].
  - change (Rsum k = 0 + Rsum k). lra.
  - change (a + Rsum (l ++ k) = a + Rsum l + Rsum k). rewrite IH. lra.
Qed.

Lemma Rsum_replicate (n : nat) (c : R) : Rsum (replicate n c) = INR n * c.
Proof.
  induction n as [|n IH].
  - change (0 = 0 * c). lra.
  - change (c + Rsum (replicate n c) = INR (S n) * c). rewrite IH, S_INR. lra.
Qed.

Lemma Rsum_chronological (buf : list R) (next : nat) :
  Rsum (chronological buf next) = Rsum buf.
Proof.
  unfold chronological. rewrite Rsum_app.
  rewrite <- (take_drop next buf) at 3. rewrite Rsum_app. lra.
Qed.

(** Writing at the write index and moving the index on drops the oldest
    entry and appends the new one. *)
Lemma ring_step (buf : list R) (idx : nat) (m : R) :
  (idx < length buf)%nat ->
  chronological (<[idx := m]> buf) ((idx + 1) mod length buf) =
    drop 1 (chronological buf idx) ++ [m].
Proof.
  intros Hidx. unfold chronological.
  destruct (lookup_lt_is_Some_2 buf idx Hidx) as [x Hx].
  assert (Hdrop : drop idx buf = x :: drop (S idx) buf) by (apply drop_S, Hx).
  rewrite Hdrop. cbn [app drop].
  assert (Hnew : <[idx := m]> buf !! idx = Some m)
    by (apply list_lookup_insert_eq, Hidx).
  destruct (decide (idx + 1 = length buf)%nat) as [Hlast | Hmid].
  - rewrite Hlast, Nat.Div0.mod_same. rewrite drop_0, take_0, app_nil_r.
    rewrite (drop_ge buf (S idx)) by lia. cbn [app].
    rewrite insert_take_drop by exact Hidx.
    rewrite (drop_ge buf (S idx)) by lia. reflexivity.
  - rewrite Nat.mod_small by lia.
    rewrite drop_insert_lt by lia.
    replace (idx + 1)%nat with (S idx) by lia.
    rewrite (take_S_r _ idx m Hnew), take_insert_ge by lia.
    rewrite app_assoc. reflexivity.
Qed.

Lemma lastN_snoc (n : nat) (l : list R) (m : R) :
  (1 <= n <= length l)%nat -> lastN n (l ++ [m]) = drop 1 (lastN n l) ++ [m].
Proof.
  intros Hn. unfold lastN. rewrite length_app. cbn [length].
  rewrite drop_app_le by lia. rewrite drop_drop. f_equal. f_equal. lia.
Qed.

(** The ring buffers of the detector, read in the order of writing, are the
    last [STA_WINDOW] and [LTA_WINDOW] entries of the stream of admitted
    magnitudes, padded in front with the zeros of the constructor. *)
Lemma feedSTALTA_chronological (ms : list R) :
  let s := feedSTALTA ms in
  chronological (staBuffer s) (staIndex s)
    = lastN STA_WINDOW (replicate STA_WINDOW 0 ++ ms) /\
  chronological (ltaBuffer s) (ltaIndex s)
    = lastN LTA_WINDOW (replicate LTA_WINDOW 0 ++ ms).
Proof.
  induction ms as [|m ms IH] using rev_ind.
  - cbv zeta. unfold feedSTALTA, Seismograph_new, chronological, lastN.
    cbn [foldl stalta staBuffer ltaBuffer staIndex ltaIndex].
    rewrite ?app_nil_r, !length_replicate, !Nat.sub_diag, ?drop_0, ?take_0, ?app_nil_r.
    split; reflexivity.
  - cbv zeta in *. rewrite feedSTALTA_snoc.
    destruct (feedSTALTA_invariant ms) as [(Hs & Hl & His & Hil) _].
    destruct IH as [IHs IHl].
    unfold updateSTALTA. cbn [staBuffer ltaBuffer staIndex ltaIndex].
    rewrite <- Hs at 1. rewrite <- Hl at 1.
    rewrite !ring_step by lia. rewrite IHs, IHl.
    rewrite !app_assoc.
    rewrite !lastN_snoc
      by (rewrite length_app, length_replicate; unfold STA_WINDOW, LTA_WINDOW; lia).
    split; reflexivity.
Qed.

(** The write indices count the admitted samples modulo the window sizes,
    and each full flag is set exactly from the sample on that fills its
    window. *)
Lemma feedSTALTA_counts (ms : list R) :
  let s := feedSTALTA ms in
  staIndex s = (length ms mod STA_WINDOW)%nat /\
  ltaIndex s = (length ms mod LTA_WINDOW)%nat /\
  (staFull s = true <-> (STA_WINDOW <= length ms)%nat) /\
  (ltaFull s = true <-> (LTA_WINDOW <= length ms)%nat).
Proof.
  induction ms as [|m ms IH] using rev_ind.
  - cbv zeta. unfold feedSTALTA, Seismograph_new, STA_WINDOW, LTA_WINDOW.
    cbn [foldl stalta staIndex ltaIndex staFull ltaFull length].
    repeat split; try reflexivity; try discriminate; lia.
  - cbv zeta in *. rewrite feedSTALTA_snoc, length_app. cbn [length].
    destruct IH as (Is & Il & Fs & Fl).
    unfold updateSTALTA. cbn [staIndex ltaIndex staFull ltaFull].
    rewrite Is, Il. rewrite !Nat.Div0.add_mod_idemp_l.
    split; [reflexivity|]. split; [reflexivity|].
    unfold STA_WINDOW, LTA_WINDOW in *. split.
    + case_decide as Hz.
      * split; [intros _|reflexivity].
        apply Nat.Div0.mod_divides in Hz as [k Hk]. lia.
      * rewrite Fs. split; [lia|]. intros H.
        destruct (decide (length ms + 1 = 25)%nat) as [E|E]; [|lia].
        rewrite E in Hz. exfalso. apply Hz. reflexivity.
    + case_decide as Hz.
      * split; [intros _|reflexivity].
        apply Nat.Div0.mod_divides in Hz as [k Hk]. lia.
      * rewrite Fl. split; [lia|]. intros H.
        destruct (decide (length ms + 1 = 2500)%nat) as [E|E]; [|lia].
        rewrite E in Hz. exfalso. apply Hz. reflexivity.
Qed.

Lemma Rsum_lastN_padded (n : nat) (ms : list R) :
  Rsum (lastN n (replicate n 0 ++ ms)) = Rsum (lastN n ms).
Proof.
  unfold lastN. rewrite length_app, length_replicate.
  destruct (decide (n <= length ms)%nat) as [Hge | Hlt].
  - rewrite drop_app_ge by (rewrite length_replicate; lia).
    rewrite length_replicate. f_equal. f_equal. lia.
  - rewrite drop_app_le by (rewrite length_replicate; lia).
    rewrite drop_replicate, Rsum_app, Rsum_replicate.
    replace (length ms - n)%nat with 0%nat by lia. rewrite drop_0. lra.
Qed.

(** X1: in exact arithmetic (the float sums read as exact reals), after any
    stream of admitted magnitudes fed to [updateSTALTA] since construction,
    [staSum] is the sum of the last 25 of them and [ltaSum] the sum of the
    last 2500 of them (of all of them while fewer have arrived).  The
    binary32 sums of the running code drift from these by rounding. *)
Theorem sums_are_recent_sums (ms : list R) :
  staSum (feedSTALTA ms) = Rsum (lastN STA_WINDOW ms) /\
  ltaSum (feedSTALTA ms) = Rsum (lastN LTA_WINDOW ms).
Proof.
  destruct (feedSTALTA_invariant ms) as [_ [Hsta Hlta]].
  destruct (feedSTALTA_chronological ms) as [Cs Cl].
  rewrite Hsta, Hlta.
  rewrite <- (Rsum_chronological (staBuffer _) (staIndex (feedSTALTA ms))).
  rewrite <- (Rsum_chronological (ltaBuffer _) (ltaIndex (feedSTALTA ms))).
  rewrite Cs, Cl, !Rsum_lastN_padded. split; reflexivity.
Qed.

(** X2: after [n] admitted samples the write indices are [n mod 25] and
    [n mod 2500], [staFull] is set exactly when [n >= 25] and [ltaFull]
    exactly when [n >= 2500]; and as long as fewer than 2500 samples have
    been admitted the trigger condition is false. *)
Theorem no_trigger_before_lta_window_fills (ms : list R) :
  (length ms < LTA_WINDOW)%nat ->
  let s := feedSTALTA ms in
  checkEventTrigger s = Some false /\
  staIndex s = (length ms mod STA_WINDOW)%nat /\
  ltaIndex s = length ms /\
  (staFull s = true <-> (STA_WINDOW <= length ms)%nat) /\
  ltaFull s = false.
Proof.
  intros Hn. cbv zeta.
  destruct (feedSTALTA_counts ms) as (Is & Il & Fs & Fl).
  assert (Hl : ltaFull (feedSTALTA ms) = false).
  { destruct (ltaFull (feedSTALTA ms)); [|reflexivity].
    pose proof (proj1 Fl eq_refl). lia. }
  split; [|split; [exact Is|split; [|split; [exact Fs | exact Hl]]]].
  - unfold checkEventTrigger. rewrite Hl.
    destruct (staFull (feedSTALTA ms)); reflexivity.
  - rewrite Il. apply Nat.mod_small. exact Hn.
Qed.

Lemma no_trigger_before_lta_window_fills_witness :
  (length shortStream < LTA_WINDOW)%nat /\
  checkEventTrigger (feedSTALTA shortStream) = Some false.
Proof.
  assert (H : (length shortStream < LTA_WINDOW)%nat)
    by (unfold LTA_WINDOW, shortStream; cbn [length]; lia).
  split; [exact H|].
  exact (proj1 (no_trigger_before_lta_window_fills shortStream H)).
Defined.

Lemma lastN_replicate (w n : nat) (c : R) :
  (w <= n)%nat -> lastN w (replicate n c) = replicate w c.
Proof.
  intros H. unfold lastN. rewrite length_replicate, drop_replicate. f_equal. lia.
Qed.

(** X3: a stream that holds one and the same magnitude never meets the
    trigger condition, however long it is. *)
Theorem constant_stream_never_triggers (n : nat) (c : R) :
  checkEventTrigger (feedSTALTA (replicate n c)) = Some false.
Proof.
  destruct (feedSTALTA_counts (replicate n c)) as (_ & _ & Fs & Fl).
  rewrite length_replicate in Fs, Fl.
  destruct (decide (LTA_WINDOW <= n)%nat) as [Hge | Hlt].
  - assert (Hs : (STA_WINDOW <= n)%nat) by (unfold STA_WINDOW, LTA_WINDOW in *; lia).
    rewrite checkEventTrigger_full by (first [apply Fs | apply Fl]; assumption).
    destruct (feedSTALTA_invariant (replicate n c)) as [_ [Hsta Hlta]].
    destruct (feedSTALTA_chronological (replicate n c)) as [Cs Cl].
    rewrite Hsta, Hlta.
    rewrite <- (Rsum_chronological (staBuffer _) (staIndex (feedSTALTA (replicate n c)))).
    rewrite <- (Rsum_chronological (ltaBuffer _) (ltaIndex (feedSTALTA (replicate n c)))).
    rewrite Cs, Cl, !Rsum_lastN_padded, !lastN_replicate by assumption.
    rewrite !Rsum_replicate, INR_STA_WINDOW, INR_LTA_WINDOW.
    f_equal. case_decide as Hz; [reflexivity|].
    apply bool_decide_eq_false. unfold STA_LTA_RATIO.
    assert (Hc : c <> 0) by (intros ->; apply Hz; lra).
    replace (25 * c / 25 / (2500 * c / 2500)) with 1 by (field; exact Hc). lra.
  - unfold checkEventTrigger.
    assert (Hl : ltaFull (feedSTALTA (replicate n c)) = false).
    { destruct (ltaFull (feedSTALTA (replicate n c))); [|reflexivity].
      pose proof (proj1 Fl eq_refl). lia. }
    rewrite Hl. destruct (staFull _); reflexivity.
Qed.

(** X4: in exact arithmetic (the float sums read as exact reals), after at
    least 2475 admitted samples at a steady level [c], a burst of 25 samples
    at level [d] (both levels non-negative, as magnitudes are) meets the
    trigger condition at its 25th sample exactly when 39 d > 99 c, that is
    when [d] exceeds about 2.54 times [c].  Within rounding distance of
    that boundary the binary32 code can decide either way. *)
Theorem step_triggers_iff (n : nat) (c d : R) :
  (2475 <= n)%nat -> 0 <= c -> 0 <= d ->
  checkEventTrigger (feedSTALTA (replicate n c ++ replicate 25 d))
    = Some (bool_decide (39 * d > 99 * c)).
Proof.
  intros Hn Hc Hd.
  set (ms := replicate n c ++ replicate 25 d).
  assert (Hlen : length ms = (n + 25)%nat)
    by (subst ms; rewrite length_app, !length_replicate; reflexivity).
  destruct (feedSTALTA_counts ms) as (_ & _ & Fs & Fl).
  rewrite Hlen in Fs, Fl.
  rewrite checkEventTrigger_full
    by (first [apply Fs | apply Fl]; unfold STA_WINDOW, LTA_WINDOW; lia).
  destruct (feedSTALTA_invariant ms) as [_ [Hsta Hlta]].
  destruct (feedSTALTA_chronological ms) as [Cs Cl].
  rewrite Hsta, Hlta.
  rewrite <- (Rsum_chronological (staBuffer _) (staIndex (feedSTALTA ms))).
  rewrite <- (Rsum_chronological (ltaBuffer _) (ltaIndex (feedSTALTA ms))).
  rewrite Cs, Cl, !Rsum_lastN_padded.
  assert (Es : lastN STA_WINDOW ms = replicate 25 d).
  { unfold lastN. rewrite Hlen. subst ms. unfold STA_WINDOW.
    replace (n + 25 - 25)%nat with n by lia.
    apply drop_app_length'. rewrite length_replicate. reflexivity. }
  assert (El : lastN LTA_WINDOW ms = replicate 2475 c ++ replicate 25 d).
  { unfold lastN. rewrite Hlen. subst ms. unfold LTA_WINDOW.
    rewrite drop_app_le by (rewrite length_replicate; lia).
    rewrite drop_replicate. f_equal. f_equal. lia. }
  rewrite Es, El, Rsum_app, !Rsum_replicate.
  replace (INR 25) with 25 by (rewrite INR_IZR_INZ; reflexivity).
  replace (INR 2475) with 2475 by (rewrite INR_IZR_INZ; reflexivity).
  f_equal. unfold STA_LTA_RATIO.
  replace (25 * d / 25) with d by lra.
  set (lta := (2475 * c + 25 * d) / 2500).
  assert (Hlta0 : 0 <= lta) by (subst lta; lra).
  case_decide as Hz.
  - symmetry. apply bool_decide_eq_false. subst lta. lra.
  - assert (Hpos : 0 < lta) by lra.
    destruct (decide (39 * d > 99 * c)) as [Hy | Hno].
    + rewrite (bool_decide_true _ Hy). apply bool_decide_eq_true.
      apply Rlt_gt. apply (Rmult_lt_reg_r lta); [exact Hpos|].
      replace (d / lta * lta) with d by (field; lra). subst lta. lra.
    + rewrite (bool_decide_false _ Hno). apply bool_decide_eq_false.
      intros Hr. apply Hno. apply Rgt_lt in Hr.
      apply (Rmult_lt_compat_r lta) in Hr; [|exact Hpos].
      replace (d / lta * lta) with d in Hr by (field; lra). subst lta. lra.
Qed.

Lemma step_triggers_iff_witness :
  (2475 <= 2475)%nat /\ 0 <= 0.01 /\ 0 <= 0.02 /\
  checkEventTrigger (feedSTALTA (replicate 2475 0.01 ++ replicate 25 0.02)) = Some false.
Proof.
  assert (H1 : (2475 <= 2475)%nat) by lia.
  assert (H2 : 0 <= 0.01) by lra.
  assert (H3 : 0 <= 0.02) by lra.
  split; [exact H1|]. split; [exact H2|]. split; [exact H3|].
  rewrite (step_triggers_iff 2475 0.01 0.02 H1 H2 H3).
  f_equal. apply bool_decide_eq_false. lra.
Defined.

(** ** The magnitude model: ranges, monotonicity, inverses *)

Lemma constrain_monotone (x y lo hi : R) :
  lo <= hi -> x <= y -> constrain x lo hi <= constrain y lo hi.
Proof. intros H1 H2. unfold constrain. rcases. Qed.

Lemma constrain_below (x lo hi : R) : x < lo -> constrain x lo hi = lo.
Proof. intros H. unfold constrain. rcases. Qed.

Lemma log10_le (x y : R) : 0 < x -> x <= y -> log10 x <= log10 y.
Proof.
  intros Hx Hxy. unfold log10. pose proof ln_10_pos as Hp.
  apply Rmult_le_compat_r; [left; apply Rinv_0_lt_compat, Hp|].
  destruct Hxy as [Hlt | ->]; [left; apply ln_increasing; assumption | right; reflexivity].
Qed.

Lemma pow10_le (x y : R) : x <= y -> pow10 x <= pow10 y.
Proof.
  intros Hxy. unfold pow10, Rpower. pose proof ln_10_pos as Hp.
  destruct Hxy as [Hlt | ->]; [|right; reflexivity].
  left. apply exp_increasing. nra.
Qed.

Lemma pow10_log10 (x : R) : 0 < x -> pow10 (log10 x) = x.
Proof.
  intros Hx. unfold pow10, log10, Rpower. pose proof ln_10_pos as Hp.
  replace (ln x / ln 10 * ln 10) with (ln x) by (field; lra).
  apply exp_ln, Hx.
Qed.

Lemma log10_ge_m2 (x : R) : 0.01 <= x -> -2 <= log10 x.
Proof.
  intros Hx. replace (-2) with (log10 (pow10 (-2))) by apply log10_pow10.
  assert (H : pow10 (-2) = 0.01).
  { unfold pow10.
    replace (-2) with (- INR 2) by (rewrite INR_IZR_INZ; change (Z.of_nat 2) with 2%Z; lra).
    rewrite Rpower_Ropp, Rpower_pow by lra. simpl. lra. }
  rewrite H. apply log10_le; lra.
Qed.

Lemma log10_le_10 (x : R) : 0 < x -> x <= 10 ^ 10 -> log10 x <= 10.
Proof.
  intros H0 Hx.
  assert (H : log10 (10 ^ 10) = 10).
  { rewrite <- pow10_nat, log10_pow10, INR_IZR_INZ. reflexivity. }
  rewrite <- H. apply log10_le; assumption.
Qed.

Lemma calculateRichterMagnitude_range (a : R) :
  -10 <= calculateRichterMagnitude a <= 10.
Proof.
  unfold calculateRichterMagnitude. case_decide; [lra|].
  pose proof (constrain_range (log10 (a * 9806.65) - LOCAL_MAGNITUDE_OFFSET) (-2) 10
                ltac:(lra)). lra.
Qed.

Lemma calculateRichterMagnitude_le (a b : R) :
  a <= b -> calculateRichterMagnitude a <= calculateRichterMagnitude b.
Proof.
  intros Hab. unfold calculateRichterMagnitude.
  destruct (decide (a <= 0)) as [Ha | Ha]; destruct (decide (b <= 0)) as [Hb | Hb].
  - lra.
  - pose proof (constrain_range (log10 (b * 9806.65) - LOCAL_MAGNITUDE_OFFSET) (-2) 10
                  ltac:(lra)). lra.
  - lra.
  - apply constrain_monotone; [lra|]. unfold LOCAL_MAGNITUDE_OFFSET.
    pose proof (log10_le (a * 9806.65) (b * 9806.65) ltac:(lra) ltac:(lra)). lra.
Qed.

Lemma getIntensityLevelFromRichter_le (r1 r2 : R) :
  r1 <= r2 ->
  (getIntensityLevelFromRichter r1 <= getIntensityLevelFromRichter r2)%Z.
Proof.
  intros H. unfold getIntensityLevelFromRichter.
  repeat case_decide; try lia; lra.
Qed.

Lemma classifyEvent_level (m : R) :
  classifyEvent m = getIntensityLevelFromRichter (calculateRichterMagnitude m).
Proof. reflexivity. Qed.

(** X5: [calculateRichterMagnitude] never decreases when the acceleration
    grows, and its values lie in [-10, 10]: -10 marks an acceleration that
    is not positive, every other value lies in [-2, 10]. *)
Theorem calculateRichterMagnitude_monotone (a b : R) :
  a <= b ->
  calculateRichterMagnitude a <= calculateRichterMagnitude b /\
  (a <= 0 -> calculateRichterMagnitude a = -10) /\
  (0 < b -> -2 <= calculateRichterMagnitude b <= 10).
Proof.
  intros Hab. split; [apply calculateRichterMagnitude_le, Hab|]. split.
  - intros Ha. unfold calculateRichterMagnitude. case_decide; [reflexivity | lra].
  - intros Hb. unfold calculateRichterMagnitude. case_decide; [lra|].
    apply constrain_range. lra.
Qed.

Lemma calculateRichterMagnitude_monotone_witness :
  0.01 <= 0.03 /\
  calculateRichterMagnitude 0.01 <= calculateRichterMagnitude 0.03.
Proof.
  assert (H : 0.01 <= 0.03) by lra.
  split; [exact H|]. exact (proj1 (calculateRichterMagnitude_monotone 0.01 0.03 H)).
Defined.

(** X6: a larger magnitude never gets a lower level from [classifyEvent];
    the level lies between 1 and 6; and the type name that
    [getEventTypeFromRichter] gives to the Richter value of a magnitude is
    the name of the level that [classifyEvent] gives to the magnitude. *)
Theorem classifyEvent_monotone (a b : R) :
  a <= b ->
  (classifyEvent a <= classifyEvent b)%Z /\
  (1 <= classifyEvent a <= 6)%Z /\
  getEventTypeFromRichter (calculateRichterMagnitude a) = levelName (classifyEvent a).
Proof.
  intros Hab. split; [|split].
  - rewrite !classifyEvent_level.
    apply getIntensityLevelFromRichter_le, calculateRichterMagnitude_le, Hab.
  - unfold classifyEvent. repeat case_decide; lia.
  - unfold classifyEvent, getEventTypeFromRichter, levelName.
    repeat (case_decide; try lra; try lia; try reflexivity).
Qed.

Lemma classifyEvent_monotone_witness :
  0.01 <= 0.03 /\ (classifyEvent 0.01 <= classifyEvent 0.03)%Z.
Proof.
  assert (H : 0.01 <= 0.03) by lra.
  split; [exact H|]. exact (proj1 (classifyEvent_monotone 0.01 0.03 H)).
Defined.

Lemma calculatePGAFromRichter_eq (r : R) :
  calculatePGAFromRichter r =
    constrain (pow10 (constrain r (-2) 10) / 9806.65) 0.0001 10.
Proof.
  unfold calculatePGAFromRichter, LOCAL_MAGNITUDE_OFFSET.
  assert (H : (if decide (r < -2 \/ r > 10) then constrain r (-2) 10 else r)
              = constrain r (-2) 10).
  { case_decide as Hd; [reflexivity|].
    symmetry. apply constrain_inside.
    split; [apply Rnot_lt_le | apply Rnot_gt_le]; intros Hc; apply Hd; tauto. }
  rewrite H. replace (constrain r (-2) 10 + 0) with (constrain r (-2) 10) by lra.
  reflexivity.
Qed.

Lemma calculatePGAFromRichter_range (r : R) :
  0.0001 <= calculatePGAFromRichter r <= 10.
Proof. rewrite calculatePGAFromRichter_eq. apply constrain_range. lra. Qed.

Lemma calculatePGAFromRichter_le (r1 r2 : R) :
  r1 <= r2 -> calculatePGAFromRichter r1 <= calculatePGAFromRichter r2.
Proof.
  intros H. rewrite !calculatePGAFromRichter_eq.
  apply constrain_monotone; [lra|].
  apply Rmult_le_compat_r; [lra|].
  apply pow10_le, constrain_monotone; [lra | exact H].
Qed.

(** X7: the PGA that [calculatePGAFromRichter] computes from the Richter
    value of an acceleration between 0.0001 g and 10 g is that
    acceleration. *)
Theorem pga_round_trip (a : R) :
  0.0001 <= a <= 10 ->
  calculatePGAFromRichter (calculateRichterMagnitude a) = a.
Proof.
  intros [Hlo Hhi].
  assert (Hr : calculateRichterMagnitude a = log10 (a * 9806.65)).
  { unfold calculateRichterMagnitude, LOCAL_MAGNITUDE_OFFSET.
    case_decide; [lra|].
    pose proof (log10_ge_m2 (a * 9806.65) ltac:(lra)).
    pose proof (log10_le_10 (a * 9806.65) ltac:(lra) ltac:(simpl; lra)).
    rewrite constrain_inside by lra. lra. }
  rewrite Hr, calculatePGAFromRichter_eq.
  pose proof (log10_ge_m2 (a * 9806.65) ltac:(lra)).
  pose proof (log10_le_10 (a * 9806.65) ltac:(lra) ltac:(simpl; lra)).
  rewrite (constrain_inside (log10 _)) by lra.
  rewrite pow10_log10 by lra.
  replace (a * 9806.65 / 9806.65) with a by (field; lra).
  apply constrain_inside. lra.
Qed.

Lemma pga_round_trip_witness :
  0.0001 <= 0.03 <= 10 /\
  calculatePGAFromRichter (calculateRichterMagnitude 0.03) = 0.03.
Proof.
  assert (H : 0.0001 <= 0.03 <= 10) by lra.
  split; [exact H|]. exact (pga_round_trip 0.03 H).
Defined.

(** X8: [calculatePGAFromRichter] never decreases when the Richter value
    grows, returns a PGA between 0.0001 g and 10 g, and treats a Richter
    value outside [-2, 10] like the nearest end of that range. *)
Theorem calculatePGAFromRichter_monotone (r1 r2 : R) :
  r1 <= r2 ->
  calculatePGAFromRichter r1 <= calculatePGAFromRichter r2 /\
  0.0001 <= calculatePGAFromRichter r1 <= 10 /\
  calculatePGAFromRichter r1 = calculatePGAFromRichter (constrain r1 (-2) 10).
Proof.
  intros H. split; [apply calculatePGAFromRichter_le, H|].
  split; [apply calculatePGAFromRichter_range|].
  rewrite !calculatePGAFromRichter_eq.
  rewrite (constrain_inside (constrain r1 (-2) 10)) by (apply constrain_range; lra).
  reflexivity.
Qed.

Lemma calculatePGAFromRichter_monotone_witness :
  2 <= 4 /\ calculatePGAFromRichter 2 <= calculatePGAFromRichter 4.
Proof.
  assert (H : 2 <= 4) by lra.
  split; [exact H|]. exact (proj1 (calculatePGAFromRichter_monotone 2 4 H)).
Defined.

Lemma classifyEvent_10 : classifyEvent 10 = 3%Z.
Proof.
  unfold classifyEvent. rewrite calculateRichterMagnitude_10.
  pose proof log10_clamp_lt_5. pose proof log10_clamp_ge_499.
  repeat (case_decide; try lra). reflexivity.
Qed.

(** X9: whatever Richter value is simulated, the PGA that
    [calculatePGAFromRichter] derives from it is classified as level 1, 2 or
    3 (Micro, Minor or Light): a simulation never yields a Moderate, Strong
    or Major event. *)
Theorem simulated_level_at_most_light (r : R) :
  (1 <= classifyEvent (calculatePGAFromRichter r) <= 3)%Z.
Proof.
  pose proof (calculatePGAFromRichter_range r) as [_ Hhi].
  split.
  - unfold classifyEvent. repeat case_decide; lia.
  - rewrite <- classifyEvent_10. rewrite !classifyEvent_level.
    apply getIntensityLevelFromRichter_le, calculateRichterMagnitude_le, Hhi.
Qed.

(** ** The records of detected events *)

Lemma getEventType_levelName (r : R) :
  getEventTypeFromRichter r = levelName (getIntensityLevelFromRichter r).
Proof.
  unfold getEventTypeFromRichter, getIntensityLevelFromRichter, levelName.
  repeat (case_decide; try lra; try lia; try reflexivity).
Qed.

Lemma getIntensityLevelFromRichter_range (r : R) :
  (1 <= getIntensityLevelFromRichter r <= 6)%Z.
Proof. unfold getIntensityLevelFromRichter. repeat case_decide; lia. Qed.

Lemma fabs_nonneg (x : R) : 0 <= fabs x.
Proof. unfold fabs. case_decide; lra. Qed.

Lemma calculateEnergyJoules_range (r : R) : 0 <= calculateEnergyJoules r <= 10 ^ 20.
Proof.
  unfold calculateEnergyJoules.
  assert (H : 1 <= 10 ^ 20) by (apply pow_R1_Rle; lra).
  case_decide; [lra|].
  pose proof (constrain_range (pow10 (11.8 + 1.5 * r)) 1 (10 ^ 20) H). lra.
Qed.

Lemma calculateLocalMagnitude_range (a : R) : -10 <= calculateLocalMagnitude a <= 8.
Proof.
  unfold calculateLocalMagnitude. case_decide; [lra|].
  match goal with
  | |- _ <= constrain ?x _ _ <= _ => pose proof (constrain_range x (-3) 8 ltac:(lra))
  end. lra.
Qed.

(** The record [createSeismicEvent] builds is well formed, carries the
    magnitude, duration and source it was given, and is appended to the
    seismic file exactly when the time is trusted and the logger is ready. *)
Lemma createSeismicEvent_record (magnitude : R) (duration : Z) (source : string)
    (st : Seismograph) (w : World) :
  exists r : SeismicEventData.t,
    recordWellFormed r /\
    SeismicEventData.pgaG r = magnitude /\
    SeismicEventData.durationMs r = duration /\
    SeismicEventData.source r = source /\
    SeismicEventData.timestamp r = TimeManager.getEpochTime (millis w) (timeManager w) /\
    seismicRecords (createSeismicEvent magnitude duration source st w).2 =
      seismicRecords w ++ (if timeTrusted w && loggerReady w then [r] else []).
Proof.
  unfold createSeismicEvent, timeTrusted.
  destruct (TimeManager.isTimeValid (millis w) (timeManager w)) eqn:Hv; cbn [negb andb].
  - destruct (readSensor_spec st w) as (d & t & n & -> & _).
    match goal with
    | |- context [DataLogger.logSeismicEvent ?e _] => set (rec := e)
    end.
    exists rec. split.
    { unfold recordWellFormed. subst rec.
      cbn [SeismicEventData.ntpValidated SeismicEventData.richterMagnitude
           SeismicEventData.pgaG SeismicEventData.intensityLevel
           SeismicEventData.eventType SeismicEventData.vectorMagnitude
           SeismicEventData.peakFrequencyHz SeismicEventData.energyJoules
           SeismicEventData.localMagnitude SeismicEventData.maxAccelX
           SeismicEventData.maxAccelY SeismicEventData.maxAccelZ
           SeismicEventData.dataQuality SeismicEventData.calibrationValid
           SeismicEventData.staWindowSamples SeismicEventData.ltaWindowSamples].
      repeat split; try reflexivity;
        try apply getIntensityLevelFromRichter_range;
        try apply getEventType_levelName;
        try apply calculateEnergyJoules_range;
        try apply calculateLocalMagnitude_range;
        try apply fabs_nonneg;
        try (apply constrain_range; lra). }
    split; [reflexivity|]. split; [reflexivity|]. split; [reflexivity|].
    split; [reflexivity|].
    unfold seismicRecords, loggerReady. cbn [globalDataLogger].
    destruct (globalDataLogger w) as [dl|] eqn:Hdl; [|reflexivity].
    unfold DataLogger.logSeismicEvent.
    change (SeismicEventData.ntpValidated rec) with true. cbn [negb].
    destruct (DataLogger.initialized dl); cbn [negb andb];
      [destruct (DataLogger.fileOpens dl); cbn [negb]|];
      cbn [set_globalDataLogger globalDataLogger DataLogger.seismicFile snd];
      rewrite ?app_nil_r; reflexivity.
  - exists (SeismicEventData.mk
              (TimeManager.getEpochTime (millis w) (timeManager w)) true 0
              (levelName (classifyEvent magnitude)) (classifyEvent magnitude) 0
              magnitude (calculateRichterMagnitude magnitude) 0 duration 1 0
              0 0 0 magnitude false 0 0 STA_WINDOW LTA_WINDOW 0 source "good").
    split.
    { unfold recordWellFormed. cbn.
      repeat split; try reflexivity; try lra;
        try apply getIntensityLevelFromRichter_range. }
    cbn. rewrite app_nil_r. repeat split; reflexivity.
Qed.

Lemma endEvent_record (st : Seismograph) (w : World) :
  eventActive (event st) = true ->
  exists r : SeismicEventData.t,
    recordWellFormed r /\
    SeismicEventData.pgaG r = eventMaxMagnitude (event st) /\
    SeismicEventData.source r = "seismograph_detection"%string /\
    seismicRecords (endEvent st w).2 =
      seismicRecords w ++ (if timeTrusted w && loggerReady w then [r] else []).
Proof.
  intros Ha. destruct (timeTrusted w) eqn:Hv.
  - unfold endEvent. rewrite Ha. cbn [negb].
    unfold timeTrusted in Hv. rewrite Hv. cbn [negb].
    match goal with
    | |- context [createSeismicEvent ?m ?d ?s ?st1 w] =>
        destruct (createSeismicEvent_record m d s st1 w)
          as (r & Hwf & Hp & _ & Hs & _ & Hrec);
        destruct (createSeismicEvent m d s st1 w) as [st2 w2]
    end.
    unfold timeTrusted in Hrec. rewrite Hv in Hrec. cbn [andb snd] in Hrec.
    exists r. split; [exact Hwf|]. split; [exact Hp|]. split; [exact Hs|].
    cbn [andb]. rewrite <- Hrec.
    destruct (globalCoreManager w2) as [cm|]; [|reflexivity].
    destruct (DualCoreManager.sendEvent _ cm). reflexivity.
  - rewrite (endEvent_rejected st w Ha Hv).
    destruct (createSeismicEvent_record (eventMaxMagnitude (event st)) 0
                "seismograph_detection" st w) as (r & Hwf & Hp & _ & Hs & _).
    exists r. split; [exact Hwf|]. split; [exact Hp|]. split; [exact Hs|].
    cbn. rewrite app_nil_r. reflexivity.
Qed.

Lemma processData_records_wf (data : SensorData.t) (st : Seismograph) (w : World) :
  exists new : list SeismicEventData.t,
    seismicRecords (processData data st w).2 = seismicRecords w ++ new /\
    Forall (fun r => recordWellFormed r /\
                     SeismicEventData.source r = "seismograph_detection"%string) new.
Proof.
  destruct (processData_world data st w) as [-> | (st3 & _ & Ha & _ & ->)].
  - exists []. rewrite app_nil_r. split; [reflexivity | constructor].
  - destruct (endEvent_record st3 w Ha) as (r & Hwf & _ & Hs & ->).
    eexists. split; [reflexivity|].
    destruct (timeTrusted w && loggerReady w); constructor; [|constructor].
    split; assumption.
Qed.

(** X10: every record the detector appends to the seismic file, however it
    is driven through [processData], is well formed: it is marked
    NTP-validated, its Richter value, level and type name are those of its
    PGA (level between 1 and 6), its peak frequency lies in [1, 30] Hz, its
    energy in [0, 1e20] J, its local magnitude in [-10, 8], the axis maxima
    are not negative, the data quality is "excellent" exactly when the
    calibration is valid, and its source is "seismograph_detection". *)
Theorem detector_records_well_formed
    (inputs : list (Z * SensorData.t)) (st : Seismograph) (w : World) :
  exists new : list SeismicEventData.t,
    seismicRecords (runDetector inputs st w).2 = seismicRecords w ++ new /\
    Forall (fun r => recordWellFormed r /\
                     SeismicEventData.source r = "seismograph_detection"%string) new.
Proof.
  induction inputs as [|input inputs IH] using rev_ind.
  - exists []. rewrite app_nil_r. split; [reflexivity | constructor].
  - destruct IH as (new & Hrec & Hall). rewrite runDetector_snoc.
    destruct (processData_records_wf input.2 (runDetector inputs st w).1
                (set_clock input.1 (runDetector inputs st w).2))
      as (new' & -> & Hall').
    exists (new ++ new'). split.
    + change (seismicRecords (set_clock input.1 (runDetector inputs st w).2))
        with (seismicRecords (runDetector inputs st w).2).
      rewrite Hrec, app_assoc. reflexivity.
    + apply Forall_app. split; assumption.
Qed.

(** ** The event state machine inside [processData] *)

Lemma set_adaptive_same (st : Seismograph) : set_adaptive (adaptive st) st = st.
Proof. destruct st; reflexivity. Qed.

Lemma set_cal_same (st : Seismograph) : set_cal (cal st) st = st.
Proof. destruct st; reflexivity. Qed.

(** [updateAdaptiveThresholds] touches the adaptive thresholds only. *)
Lemma updateAdaptiveThresholds_frame (st : Seismograph) (w : World) :
  exists a : Adaptive,
    updateAdaptiveThresholds st w = set_adaptive a st /\
    adaptiveThresholdEnabled a = adaptiveThresholdEnabled (adaptive st).
Proof.
  unfold updateAdaptiveThresholds.
  destruct (adaptiveThresholdEnabled (adaptive st)) eqn:He; cbn [negb].
  - case_decide.
    + exists (adaptive st). rewrite set_adaptive_same. auto.
    + destruct (ltaFull (stalta st)); cbn [negb]; eexists; split; reflexivity.
  - exists (adaptive st). rewrite set_adaptive_same. auto.
Qed.

(** [checkCalibrationDrift] touches the calibration data only, and there
    only [lastDriftCheck] and [calibrationValid]. *)
Lemma checkCalibrationDrift_frame (st : Seismograph) (w : World) :
  exists (t : Z) (v : bool),
    checkCalibrationDrift st w =
      set_cal (mkCalibration (offsetX (cal st)) (offsetY (cal st)) (offsetZ (cal st))
                 (calibrated (cal st)) (lastCalibrationOffsets (cal st))
                 (lastCalibrationTime (cal st)) (baselineLTA (cal st)) t v) st /\
    (v = true -> calibrationValid (cal st) = true).
Proof.
  unfold checkCalibrationDrift. case_decide.
  - exists (lastDriftCheck (cal st)), (calibrationValid (cal st)).
    split; [|auto]. destruct st as [? ? [] ? ? ? ? ?]; reflexivity.
  - destruct (calibrationValid (cal st)) eqn:Hv; cbn [negb orb].
    + destruct (negb (ltaFull (stalta st)) || bool_decide (baselineLTA (cal st) <= 0));
        eexists _, _; (split; [reflexivity | auto]).
    + exists (millis w), false. split; [reflexivity | discriminate].
Qed.

Lemma processData_stalta3 (m : R) (st : Seismograph) (w : World) (p : Spike) :
  stalta (set_stalta (updateSTALTA m (stalta (updateAdaptiveThresholds (set_spike p st) w)))
            (updateAdaptiveThresholds (set_spike p st) w))
    = updateSTALTA m (stalta st).
Proof.
  destruct (updateAdaptiveThresholds_frame (set_spike p st) w) as (a & -> & _).
  reflexivity.
Qed.

(** The event variables after [processData]. *)
Lemma processData_event (data : SensorData.t) (st : Seismograph) (w : World) :
  let m := SensorData.magnitude data in
  event (processData data st w).1 =
    if isSpikeFiltered m st then event st
    else eventStep m (millis w) (triggerAfter m st) (event st).
Proof.
  cbv zeta. unfold processData, triggerAfter.
  destruct (isSpikeFiltered _ st); [reflexivity|].
  rewrite processData_stalta3.
  match goal with
  | |- context [startEvent _ ?s w] => set (st3 := s)
  end.
  assert (He : event st3 = event st).
  { subst st3. cbn [event set_stalta]. rewrite updateAdaptiveThresholds_event.
    reflexivity. }
  unfold eventStep. rewrite <- He.
  destruct (default false (checkEventTrigger _)).
  - destruct (eventActive (event st3)); cbn [negb]; cbv beta iota; cbn [fst];
      match goal with
      | |- context [checkCalibrationDrift ?s w] =>
          destruct (checkCalibrationDrift_frame s w) as (t & v & -> & _)
      end; reflexivity.
  - destruct (eventActive (event st3)) eqn:Ha; cbn [andb].
    + destruct (decide (usub (millis w) (eventStartTime (event st3))
                        >= MIN_EVENT_DURATION)%Z) as [Hd | Hd].
      * rewrite (bool_decide_true _ Hd).
        destruct (endEvent_spec st3 w Ha) as (ts & w' & r & -> & _).
        cbv beta iota. cbn [fst].
        destruct (checkCalibrationDrift_frame
                    (set_event
                       (mkEventState false (eventStartTime (event st3))
                          (eventMaxMagnitude (event st3)) (eventSumMagnitude (event st3))
                          (eventSampleCount (event st3))) (set_stats ts st3)) w')
          as (t & v & -> & _).
        reflexivity.
      * rewrite (bool_decide_false _ Hd). cbv beta iota. cbn [fst].
        destruct (checkCalibrationDrift_frame st3 w) as (t & v & -> & _). reflexivity.
    + cbv beta iota. cbn [fst].
      destruct (checkCalibrationDrift_frame st3 w) as (t & v & -> & _). reflexivity.
Qed.

(** The counters [eventsDetected] and [spikesFiltered] after
    [processData]. *)
Lemma processData_counters (data : SensorData.t) (st : Seismograph) (w : World) :
  let m := SensorData.magnitude data in
  let ends :=
    negb (isSpikeFiltered m st) && negb (triggerAfter m st)
    && eventActive (event st)
    && bool_decide (usub (millis w) (eventStartTime (event st))
                    >= MIN_EVENT_DURATION)%Z in
  let st' := (processData data st w).1 in
  eventsDetected (stats st') =
    (if ends then uadd (eventsDetected (stats st)) 1 else eventsDetected (stats st)) /\
  spikesFiltered (stats st') =
    (if isSpikeFiltered m st then uadd (spikesFiltered (stats st)) 1
     else spikesFiltered (stats st)).
Proof.
  cbv zeta. unfold processData, triggerAfter.
  destruct (isSpikeFiltered _ st); [split; reflexivity|]. cbn [negb andb].
  rewrite processData_stalta3.
  match goal with
  | |- context [startEvent _ ?s w] => set (st3 := s)
  end.
  assert (He : event st3 = event st).
  { subst st3. cbn [event set_stalta]. rewrite updateAdaptiveThresholds_event.
    reflexivity. }
  assert (Hs : stats st3 = stats st).
  { subst st3. cbn [stats set_stalta].
    destruct (updateAdaptiveThresholds_frame
                (set_spike
                   (mkSpike (<[magnitudeIndex (spike st) := SensorData.magnitude data]>
                               (lastMagnitudes (spike st)))
                            ((magnitudeIndex (spike st) + 1) mod 5)
                            (if decide ((magnitudeIndex (spike st) + 1) mod 5 = 0)%nat
                             then true else magnitudeBufferFull (spike st))) st) w)
      as (a & -> & _). reflexivity. }
  rewrite <- He, <- Hs.
  destruct (default false (checkEventTrigger _)); cbn [negb andb].
  - destruct (eventActive (event st3)); cbn [negb]; cbv beta iota; cbn [fst];
      match goal with
      | |- context [checkCalibrationDrift ?s w] =>
          destruct (checkCalibrationDrift_frame s w) as (t & v & -> & _)
      end; split; reflexivity.
  - destruct (eventActive (event st3)) eqn:Ha; cbn [andb].
    + destruct (decide (usub (millis w) (eventStartTime (event st3))
                        >= MIN_EVENT_DURATION)%Z) as [Hd | Hd].
      * rewrite (bool_decide_true _ Hd).
        destruct (endEvent_spec st3 w Ha) as (ts & w' & r & -> & Hev & Hsp & _).
        cbv beta iota. cbn [fst].
        match goal with
        | |- context [checkCalibrationDrift ?s ?w0] =>
            destruct (checkCalibrationDrift_frame s w0) as (t & v & -> & _)
        end.
        cbn [stats set_cal set_event set_stats]. split; assumption.
      * rewrite (bool_decide_false _ Hd). cbv beta iota. cbn [fst].
        destruct (checkCalibrationDrift_frame st3 w) as (t & v & -> & _).
        split; reflexivity.
    + cbv beta iota. cbn [fst].
      destruct (checkCalibrationDrift_frame st3 w) as (t & v & -> & _).
      split; reflexivity.
Qed.

(** X11: [processData] drives the event variables as the state machine
    [eventStep] says. A rejected sample leaves them alone. An admitted one
    starts an event (start time now, one sample, maximum and sum the
    magnitude) when the trigger condition holds and none runs, adds to the
    running event when the condition holds, ends the running event when the
    condition fails and the event has lasted at least 100 ms, and does
    nothing otherwise. [eventsDetected] goes up by one exactly when an event
    is ended, [spikesFiltered] exactly when the sample is rejected. *)
Theorem processData_event_machine (data : SensorData.t) (st : Seismograph) (w : World) :
  let m := SensorData.magnitude data in
  let rejected := isSpikeFiltered m st in
  let ends :=
    negb rejected && negb (triggerAfter m st) && eventActive (event st)
    && bool_decide (usub (millis w) (eventStartTime (event st)) >= 100)%Z in
  let st' := (processData data st w).1 in
  event st' =
    (if rejected then event st
     else eventStep m (millis w) (triggerAfter m st) (event st)) /\
  eventsDetected (stats st') =
    (if ends then wrap32 (eventsDetected (stats st) + 1)
     else eventsDetected (stats st)) /\
  spikesFiltered (stats st') =
    (if rejected then wrap32 (spikesFiltered (stats st) + 1)
     else spikesFiltered (stats st)).
Proof.
  cbv zeta. split; [apply processData_event | apply processData_counters].
Qed.

Lemma eventStep_invariant (m : R) (now : Z) (trigger : bool) (e : EventState) :
  eventInvariant e -> eventInvariant (eventStep m now trigger e).
Proof.
  intros (H0 & H1 & Hs). unfold eventStep, eventInvariant.
  destruct trigger.
  - destruct (eventActive e) eqn:Ha;
      cbn [eventSampleCount eventActive eventSumMagnitude eventMaxMagnitude].
    + split; [lia|]. split; [intros _; lia|].
      rewrite plus_IZR. pose proof (IZR_le _ _ H0) as Hc.
      case_decide; nra.
    + split; [lia|]. split; [intros _; lia|]. lra.
  - destruct (eventActive e && bool_decide _);
      cbn [eventSampleCount eventActive eventSumMagnitude eventMaxMagnitude].
    + split; [exact H0|]. split; [discriminate | exact Hs].
    + split; [exact H0|]. split; assumption.
Qed.

(** X12: however the detector is driven through [processData], starting
    from a state where it holds (the constructor state is one), the event
    variables keep this invariant: the sample count is not negative, it is
    at least 1 while an event is active, and, in exact arithmetic (the
    float sum read as an exact real), the sum of the magnitudes is at most
    the count times the maximum.  The binary32 sum of the running code can
    exceed that bound by rounding. *)
Theorem event_invariant_preserved
    (inputs : list (Z * SensorData.t)) (st : Seismograph) (w : World) :
  eventInvariant (event st) ->
  eventInvariant (event (runDetector inputs st w).1).
Proof.
  intros Hinv. induction inputs as [|input inputs IH] using rev_ind; [exact Hinv|].
  rewrite runDetector_snoc.
  pose proof (processData_event input.2 (runDetector inputs st w).1
                (set_clock input.1 (runDetector inputs st w).2)) as He.
  cbv zeta in He. rewrite He.
  destruct (isSpikeFiltered _ _); [exact IH|].
  apply eventStep_invariant, IH.
Qed.

Lemma event_invariant_preserved_witness :
  eventInvariant (event Seismograph_new) /\
  eventInvariant
    (event (runDetector [(0%Z, impulseSample); (2%Z, impulseSample)]
                        Seismograph_new restingWorld).1).
Proof.
  assert (H : eventInvariant (event Seismograph_new)).
  { unfold eventInvariant. cbn. split; [lia|]. split; [discriminate | lra]. }
  split; [exact H|].
  exact (event_invariant_preserved _ Seismograph_new restingWorld H).
Defined.

(** ** The adaptive thresholds along a run *)

Lemma updateAdaptiveThresholds_invariant (st : Seismograph) (w : World) :
  adaptiveInvariant (adaptive st) ->
  adaptiveInvariant (adaptive (updateAdaptiveThresholds st w)).
Proof.
  intros Hinv. unfold updateAdaptiveThresholds.
  destruct (adaptiveThresholdEnabled (adaptive st)); cbn [negb]; [|exact Hinv].
  destruct (decide (usub (millis w) (lastAdaptiveUpdate (adaptive st)) < 30000)%Z);
    [exact Hinv|].
  destruct (ltaFull (stalta st)); cbn [negb].
  - cbn [isnan orb adaptive set_adaptive].
    set (lta := ltaSum (stalta st) / INR LTA_WINDOW).
    set (noise := if bool_decide (lta < 0.0001) then 0.001 else lta).
    assert (Hnoise : 0.0001 <= noise).
    { subst noise. destruct (decide (lta < 0.0001)) as [Hd | Hd].
      - rewrite (bool_decide_true _ Hd). lra.
      - rewrite (bool_decide_false _ Hd). lra. }
    rewrite (bool_decide_true (THRESHOLD_MICRO > 0)) by (unfold THRESHOLD_MICRO; lra).
    rewrite (bool_decide_true (noise > 0)) by lra. cbn [andb].
    set (f := constrain (1 + noise / THRESHOLD_MICRO) 0.5 3).
    assert (Hf : 1 <= f <= 3).
    { subst f. unfold constrain, THRESHOLD_MICRO.
      assert (0.1 <= noise / 0.001) by lra. rcases. }
    exists f. split; [exact Hf|].
    unfold adaptiveInvariant.
    cbn [adaptiveThresholdMicro adaptiveThresholdLight adaptiveThresholdStrong].
    rewrite !(proj2 (validThreshold_spec _ _))
      by (unfold THRESHOLD_MICRO, THRESHOLD_LIGHT, THRESHOLD_STRONG; nra).
    rewrite !constrain_inside
      by (unfold THRESHOLD_MICRO, THRESHOLD_LIGHT, THRESHOLD_STRONG; nra).
    repeat split; reflexivity.
  - destruct Hinv as (f & Hf & Hm & Hl & Hs). exists f. cbn. auto.
Qed.

Lemma processData_adaptive (data : SensorData.t) (st : Seismograph) (w : World) :
  adaptive (processData data st w).1 = adaptive st \/
  exists p : Spike,
    adaptive (processData data st w).1
      = adaptive (updateAdaptiveThresholds (set_spike p st) w).
Proof.
  unfold processData.
  destruct (isSpikeFiltered _ st); [left; reflexivity|]. right.
  match goal with
  | |- context [updateAdaptiveThresholds (set_spike ?p0 st) w] => exists p0
  end.
  match goal with
  | |- context [startEvent _ ?s w] => set (st3 := s)
  end.
  assert (Ha : adaptive st3 = adaptive (updateAdaptiveThresholds
                 (set_spike
                    (mkSpike (<[magnitudeIndex (spike st) := SensorData.magnitude data]>
                                (lastMagnitudes (spike st)))
                             ((magnitudeIndex (spike st) + 1) mod 5)
                             (if decide ((magnitudeIndex (spike st) + 1) mod 5 = 0)%nat
                              then true else magnitudeBufferFull (spike st))) st) w))
    by reflexivity.
  rewrite <- Ha.
  destruct (default false (checkEventTrigger _)).
  - destruct (eventActive (event st3)); cbn [negb]; cbv beta iota; cbn [fst];
      match goal with
      | |- context [checkCalibrationDrift ?s w] =>
          destruct (checkCalibrationDrift_frame s w) as (t & v & -> & _)
      end; reflexivity.
  - destruct (eventActive (event st3)) eqn:Hact.
    + destruct (decide (usub (millis w) (eventStartTime (event st3))
                        >= MIN_EVENT_DURATION)%Z).
      * destruct (endEvent_spec st3 w Hact) as (ts & w' & r & -> & _).
        cbv beta iota. cbn [fst].
        match goal with
        | |- context [checkCalibrationDrift ?s ?w0] =>
            destruct (checkCalibrationDrift_frame s w0) as (t & v & -> & _)
        end. reflexivity.
      * cbv beta iota. cbn [fst].
        destruct (checkCalibrationDrift_frame st3 w) as (t & v & -> & _). reflexivity.
    + cbv beta iota. cbn [fst].
      destruct (checkCalibrationDrift_frame st3 w) as (t & v & -> & _). reflexivity.
Qed.

Lemma runDetector_adaptiveInvariant
    (inputs : list (Z * SensorData.t)) (st : Seismograph) (w : World) :
  adaptiveInvariant (adaptive st) ->
  adaptiveInvariant (adaptive (runDetector inputs st w).1).
Proof.
  intros Hinv. induction inputs as [|input inputs IH] using rev_ind; [exact Hinv|].
  rewrite runDetector_snoc.
  destruct (processData_adaptive input.2 (runDetector inputs st w).1
              (set_clock input.1 (runDetector inputs st w).2)) as [-> | (p & ->)].
  - exact IH.
  - apply updateAdaptiveThresholds_invariant. exact IH.
Qed.

Lemma Seismograph_new_adaptiveInvariant : adaptiveInvariant (adaptive Seismograph_new).
Proof. exists 1. cbn. repeat split; lra. Qed.

(** X13: however the detector is driven through [processData] from the
    state its constructor leaves, the adaptive thresholds are their bases
    times one common factor between 1 and 3: they never fall below 0.001,
    0.005 and 0.02 g and never exceed 0.003, 0.015 and 0.06 g. *)
Theorem adaptive_thresholds_bounded (inputs : list (Z * SensorData.t)) (w : World) :
  let a := adaptive (runDetector inputs Seismograph_new w).1 in
  adaptiveInvariant a /\
  0.001 <= adaptiveThresholdMicro a <= 0.003 /\
  0.005 <= adaptiveThresholdLight a <= 0.015 /\
  0.02 <= adaptiveThresholdStrong a <= 0.06.
Proof.
  cbv zeta.
  pose proof (runDetector_adaptiveInvariant inputs Seismograph_new w
                Seismograph_new_adaptiveInvariant) as Hinv.
  split; [exact Hinv|].
  destruct Hinv as (f & Hf & -> & -> & ->).
  unfold THRESHOLD_MICRO, THRESHOLD_LIGHT, THRESHOLD_STRONG. lra.
Qed.

(** X14: however the detector has been driven through [processData] since
    construction, a sample of at most 0.002 g is never rejected by the
    spike filter. *)
Theorem small_samples_never_filtered
    (inputs : list (Z * SensorData.t)) (w : World) (m : R) :
  m <= 0.002 ->
  isSpikeFiltered m (runDetector inputs Seismograph_new w).1 = false.
Proof.
  intros Hm.
  pose proof (runDetector_adaptiveInvariant inputs Seismograph_new w
                Seismograph_new_adaptiveInvariant) as (f & Hf & Hmicro & _).
  unfold isSpikeFiltered.
  destruct (magnitudeBufferFull _); cbn [negb]; [|reflexivity].
  assert (Ht : 0.001 <= activeThresholdMicro
                          (adaptive (runDetector inputs Seismograph_new w).1)).
  { unfold activeThresholdMicro. destruct (adaptiveThresholdEnabled _).
    - rewrite Hmicro. unfold THRESHOLD_MICRO. lra.
    - unfold THRESHOLD_MICRO. lra. }
  rewrite (bool_decide_false (m > _ * SPIKE_THRESHOLD_MULTIPLIER))
    by (unfold SPIKE_THRESHOLD_MULTIPLIER; lra).
  rewrite andb_false_r. reflexivity.
Qed.

Lemma small_samples_never_filtered_witness :
  0.0015 <= 0.002 /\
  isSpikeFiltered 0.0015
    (runDetector [(0%Z, impulseSample)] Seismograph_new restingWorld).1 = false.
Proof.
  assert (H : 0.0015 <= 0.002) by lra.
  split; [exact H|].
  exact (small_samples_never_filtered [(0%Z, impulseSample)] restingWorld 0.0015 H).
Defined.

(** ** Calibration: success, cost, stationary sensors *)

Lemma uadd_wrap (a b : Z) : wrap32 (uadd a b) = wrap32 (a + b).
Proof. unfold uadd, wrap32. apply Z.mod_mod. unfold ULONG_MOD. lia. Qed.

Lemma wrap32_add_l (a b : Z) : wrap32 (wrap32 a + b) = wrap32 (a + b).
Proof. unfold wrap32. apply Zplus_mod_idemp_l. Qed.

(** [readAccel n d] takes [n] frames and [n] times [d] milliseconds and
    leaves the rest of the world alone. *)
Lemma readAccel_world (n : nat) (d : Z) (w : World) :
  let w' := (readAccel n d w).2 in
  mpuReads w' = (mpuReads w + n)%nat /\
  wrap32 (clock w') = wrap32 (clock w + Z.of_nat n * d) /\
  timeManager w' = timeManager w /\
  globalDataLogger w' = globalDataLogger w /\
  globalCoreManager w' = globalCoreManager w /\
  mpuFrames w' = mpuFrames w /\
  length (readAccel n d w).1 = n.
Proof.
  revert w. induction n as [|n IH]; intros w.
  - cbn. repeat split; try reflexivity; try lia. f_equal. lia.
  - cbn [readAccel]. unfold getMotion6.
    match goal with
    | |- context [readAccel n d ?w1] =>
        specialize (IH w1); destruct (readAccel n d w1) as [rest w2]
    end.
    cbv zeta in IH. cbn [fst snd delay clock mpuReads timeManager globalDataLogger
                         globalCoreManager mpuFrames] in IH |- *.
    destruct IH as (Hr & Hc & Ht & Hl & Hm & Hf & Hlen).
    repeat split; auto.
    + lia.
    + rewrite Hc. rewrite <- (wrap32_add_l (uadd (clock w) d)).
      rewrite uadd_wrap, wrap32_add_l. f_equal. lia.
    + cbn [length]. rewrite Hlen. reflexivity.
Qed.

Lemma accumulate_nonneg (g : R * R * R -> R) (l : list (R * R * R)) :
  (forall r, 0 <= g r) -> 0 <= accumulate g l.
Proof.
  intros Hg. unfold accumulate.
  assert (H : forall a, 0 <= a -> 0 <= foldl (fun acc r => acc + g r) a l).
  { induction l as [|r l IH]; intros a Ha; [exact Ha|].
    cbn [foldl]. apply IH. pose proof (Hg r). lra. }
  apply H. lra.
Qed.

Lemma validateOffsets_accepted (x y z zm : R) :
  validateOffsets x y z zm = Accepted ->
  Rabs x <= 0.5 /\ Rabs y <= 0.5 /\ 0.8 <= Rabs z <= 1.5 /\ 0.8 <= zm <= 1.5.
Proof.
  intros H. pose proof (validateOffsets_rejects_iff x y z zm) as [_ Hrej].
  assert (Hno : ~ (Rabs x > 0.5 \/ Rabs y > 0.5 \/ Rabs z < 0.8 \/ Rabs z > 1.5 \/
                   zm < 0.8 \/ zm > 1.5))
    by (intros Hc; exact (Hrej Hc H)).
  repeat split; apply Rnot_lt_le; intros Hc; apply Hno; lra.
Qed.

Lemma INR_pos_div (n : nat) (v : R) : (0 < n)%nat -> INR n * v / INR n = v.
Proof.
  intros Hn. assert (0 < INR n) by (apply lt_0_INR; exact Hn). field. lra.
Qed.

(** Readings that do not vary have standard deviation zero. *)
Lemma stdDev_const (n : nat) (axis : R * R * R -> R) (r : R * R * R) :
  (0 < n)%nat -> stdDev n axis (replicate n r) = 0.
Proof.
  intros Hn. unfold stdDev. rewrite !accumulate_replicate.
  rewrite (INR_pos_div n (axis r) Hn).
  replace ((axis r - axis r) ^ 2) with 0 by (simpl; lra).
  rewrite Rmult_0_r. unfold Rdiv. rewrite Rmult_0_l. apply sqrt_0.
Qed.

Lemma validateOffsets_accepts (x y z zm : R) :
  Rabs x <= 0.5 -> Rabs y <= 0.5 -> 0.8 <= Rabs z <= 1.5 -> 0.8 <= zm <= 1.5 ->
  validateOffsets x y z zm = Accepted.
Proof.
  intros Hx Hy Hz Hzm.
  pose proof (validateOffsets_rejects_iff x y z zm) as [Hrej _].
  destruct (validateOffsets x y z zm) eqn:E; try reflexivity;
    exfalso; destruct (Hrej ltac:(discriminate)) as [H | [H | [H | [H | [H | H]]]]]; lra.
Qed.

(** Calibrating on a sensor that delivers one and the same frame: with the
    frame inside the validation bounds the calibration succeeds, the
    offsets are the frame in g and the baseline is zero. *)
Lemma calibrate_stationary (f : Frame) (st : Seismograph) (w : World) :
  let x := IZR (raw_ax f) / 16384 in
  let y := IZR (raw_ay f) / 16384 in
  let z := IZR (raw_az f) / 16384 in
  (forall k, mpuFrames w k = f) ->
  Rabs x <= 0.5 -> Rabs y <= 0.5 -> 0.8 <= z <= 1.5 ->
  exists (t : Z) (w' : World),
    calibrate st w =
      (true, Accepted,
       set_cal (mkCalibration x y z true (x, y, z) t 0 (lastDriftCheck (cal st)) true) st,
       w') /\
    (forall k, mpuFrames w' k = f).
Proof.
  intros x y z Hf Hx Hy Hz. unfold calibrate.
  destruct (readAccel_const f 50 20 w Hf) as [Hl1 Hf1].
  destruct (readAccel 50 20 w) as [stability w1]. cbn [fst snd] in Hl1, Hf1.
  fold x y z in Hl1. subst stability.
  assert (Hstab : stabilityRejects 50 (replicate 50 (x, y, z)) = false).
  { unfold stabilityRejects. cbv zeta. rewrite !stdDev_const by lia.
    rewrite !bool_decide_false by lra. reflexivity. }
  rewrite Hstab.
  destruct (readAccel_const f 200 10 w1 Hf1) as [Hl2 Hf2].
  destruct (readAccel 200 10 w1) as [readings w2]. cbn [fst snd] in Hl2, Hf2.
  fold x y z in Hl2. subst readings.
  rewrite !accumulate_replicate, !INR_pos_div by lia.
  cbn [axisX axisY axisZ fst snd].
  rewrite validateOffsets_accepts; try assumption;
    [|rewrite Rabs_right by lra; exact Hz].
  destruct (readAccel_const f 10 10 w2 Hf2) as [Hl3 Hf3].
  destruct (readAccel 10 10 w2) as [testReadings w3]. cbn [fst snd] in Hl3, Hf3.
  fold x y z in Hl3. subst testReadings.
  rewrite accumulate_replicate.
  assert (Ht : testMagnitude
                 (mkCalibration x y z true (x, y, z) (millis w2)
                    (baselineLTA (cal st)) (lastDriftCheck (cal st)) true) (x, y, z) = 0).
  { unfold testMagnitude. cbn [axisX axisY axisZ fst snd offsetX offsetY offsetZ].
    replace ((x - x) * (x - x) + (y - y) * (y - y) + (z - z) * (z - z)) with 0 by lra.
    apply sqrt_0. }
  rewrite Ht. cbn [offsetX offsetY offsetZ calibrated lastCalibrationOffsets
                   lastCalibrationTime lastDriftCheck calibrationValid].
  replace (INR 10 * 0 / 10) with 0 by lra.
  exists (millis w2), w3. split; [reflexivity | exact Hf3].
Qed.

Lemma testMagnitude_nonneg (c : Calibration) (r : R * R * R) : 0 <= testMagnitude c r.
Proof. unfold testMagnitude. cbv zeta. apply sqrt_pos. Qed.

(** What a successful calibration leaves behind. *)
Lemma calibrate_success (st : Seismograph) (w : World) :
  (calibrate st w).1.1.1 = true ->
  let c := cal (calibrate st w).1.2 in
  Rabs (offsetX c) <= 0.5 /\ Rabs (offsetY c) <= 0.5 /\
  0.8 <= offsetZ c <= 1.5 /\
  calibrated c = true /\ calibrationValid c = true /\
  lastCalibrationOffsets c = (offsetX c, offsetY c, offsetZ c) /\
  0 <= baselineLTA c /\
  lastDriftCheck c = lastDriftCheck (cal st) /\
  (calibrate st w).1.1.2 = Accepted.
Proof.
  unfold calibrate.
  destruct (readAccel 50 20 w) as [stability w1].
  destruct (stabilityRejects 50 stability); [discriminate|].
  destruct (readAccel 200 10 w1) as [readings w2].
  cbv zeta.
  destruct (validateOffsets _ _ _ _) eqn:Ev; try discriminate.
  apply validateOffsets_accepted in Ev. destruct Ev as (Hx & Hy & Hz & Hzm).
  destruct (readAccel 10 10 w2) as [testReadings w3].
  intros _. cbn [fst snd]. destruct st as [? ? c0 ? ? ? ? ?].
  cbn [cal set_cal offsetX offsetY offsetZ calibrated calibrationValid
       lastCalibrationOffsets baselineLTA lastDriftCheck].
  repeat split; try assumption; try lra.
  apply Rmult_le_pos; [|lra].
  apply accumulate_nonneg. intros r. apply testMagnitude_nonneg.
Qed.

(** X15: a calibration that reports success leaves plausible data behind:
    the X and Y offsets are at most 0.5 g in absolute value, the Z offset
    lies in [0.8, 1.5] g, both flags are set, the remembered offsets are
    the offsets in force, the baseline is not negative, and the time of
    the last drift check is untouched. *)
Theorem calibrate_success_bounds (st : Seismograph) (w : World) :
  (calibrate st w).1.1.1 = true ->
  let c := cal (calibrate st w).1.2 in
  Rabs (offsetX c) <= 0.5 /\ Rabs (offsetY c) <= 0.5 /\
  0.8 <= offsetZ c <= 1.5 /\
  calibrated c = true /\ calibrationValid c = true /\
  lastCalibrationOffsets c = (offsetX c, offsetY c, offsetZ c) /\
  0 <= baselineLTA c /\
  lastDriftCheck c = lastDriftCheck (cal st) /\
  (calibrate st w).1.1.2 = Accepted.
Proof. apply calibrate_success. Qed.

Lemma restingWorld_calibrates :
  exists (t : Z) (w' : World),
    calibrate Seismograph_new restingWorld =
      (true, Accepted,
       set_cal (mkCalibration (0 / 16384) (0 / 16384) (16384 / 16384) true
                  (0 / 16384, 0 / 16384, 16384 / 16384) t 0
                  (lastDriftCheck (cal Seismograph_new)) true) Seismograph_new,
       w') /\
    (forall k, mpuFrames w' k = mkFrame 0 0 16384).
Proof.
  apply (calibrate_stationary (mkFrame 0 0 16384) Seismograph_new restingWorld).
  - intros k. reflexivity.
  - cbn [raw_ax]. rewrite Rabs_right; lra.
  - cbn [raw_ay]. rewrite Rabs_right; lra.
  - cbn [raw_az]. lra.
Qed.

Lemma calibrate_success_bounds_witness :
  (calibrate Seismograph_new restingWorld).1.1.1 = true /\
  0.8 <= offsetZ (cal (calibrate Seismograph_new restingWorld).1.2) <= 1.5.
Proof.
  assert (H : (calibrate Seismograph_new restingWorld).1.1.1 = true).
  { destruct restingWorld_calibrates as (t & w' & -> & _). reflexivity. }
  split; [exact H|].
  apply (calibrate_success_bounds Seismograph_new restingWorld H).
Defined.

Lemma validateOffsets_not_Unstable (x y z zm : R) : validateOffsets x y z zm <> Unstable.
Proof.
  unfold validateOffsets. cbv zeta.
  repeat (match goal with |- context [if ?b then _ else _] => destruct b end);
    discriminate.
Qed.

(** X16: what a calibration costs.  It reads 50 frames and takes 1000 ms
    when the stability check rejects, 250 frames and 3000 ms when the
    validation rejects, 260 frames and 3100 ms when it succeeds (the clock
    is the 32-bit millisecond counter); it reports success exactly with the
    verdict [Accepted]; and it leaves the time manager, the logger, the core
    manager and the sensor untouched. *)
Theorem calibrate_cost (st : Seismograph) (w : World) :
  let ok := (calibrate st w).1.1.1 in
  let verdict := (calibrate st w).1.1.2 in
  let w' := (calibrate st w).2 in
  let frames := match verdict with Unstable => 50 | Accepted => 260 | _ => 250 end%nat in
  let ms := match verdict with Unstable => 1000 | Accepted => 3100 | _ => 3000 end%Z in
  mpuReads w' = (mpuReads w + frames)%nat /\
  wrap32 (clock w') = wrap32 (clock w + ms) /\
  (ok = true <-> verdict = Accepted) /\
  timeManager w' = timeManager w /\ globalDataLogger w' = globalDataLogger w /\
  globalCoreManager w' = globalCoreManager w /\ mpuFrames w' = mpuFrames w.
Proof.
  cbv zeta. unfold calibrate.
  pose proof (readAccel_world 50 20 w) as H1. cbv zeta in H1.
  destruct (readAccel 50 20 w) as [stability w1]. cbn [fst snd] in H1.
  destruct H1 as (Hr1 & Hc1 & Ht1 & Hd1 & Hm1 & Hf1 & _).
  destruct (stabilityRejects 50 stability).
  { cbn [fst snd]. repeat split; try assumption; discriminate. }
  pose proof (readAccel_world 200 10 w1) as H2. cbv zeta in H2.
  destruct (readAccel 200 10 w1) as [readings w2]. cbn [fst snd] in H2.
  destruct H2 as (Hr2 & Hc2 & Ht2 & Hd2 & Hm2 & Hf2 & _).
  assert (Hc12 : wrap32 (clock w2) = wrap32 (clock w + 3000)).
  { rewrite Hc2, <- wrap32_add_l, Hc1, wrap32_add_l. f_equal. lia. }
  destruct (validateOffsets _ _ _ _) eqn:Ev.
  1: exfalso; revert Ev; apply validateOffsets_not_Unstable.
  1-3: cbn [fst snd]; repeat split; try discriminate; try congruence;
    try lia; exact Hc12.
  pose proof (readAccel_world 10 10 w2) as H3. cbv zeta in H3.
  destruct (readAccel 10 10 w2) as [testReadings w3]. cbn [fst snd] in H3.
  destruct H3 as (Hr3 & Hc3 & Ht3 & Hd3 & Hm3 & Hf3 & _).
  cbn [fst snd]. repeat split; try congruence; try lia.
  rewrite Hc3, <- wrap32_add_l, Hc12, wrap32_add_l. f_equal. lia.
Qed.

(** The reading of an initialized detector: the next frame in g, less the
    offsets, and the Euclidean norm of the result. *)
Lemma readSensor_initialized (st : Seismograph) (w : World) :
  (readSensor (set_initialized true st) w).1.1 =
    let f := mpuFrames w (mpuReads w) in
    let ax := IZR (raw_ax f) / MPU6050_ACCEL_SCALE - offsetX (cal st) in
    let ay := IZR (raw_ay f) / MPU6050_ACCEL_SCALE - offsetY (cal st) in
    let az := IZR (raw_az f) / MPU6050_ACCEL_SCALE - offsetZ (cal st) in
    SensorData.mk ax ay az (calculateMagnitude ax ay az) (millis w).
Proof.
  destruct st; reflexivity.
Qed.

(** X17: a sensor at rest calibrates to zero.  When every frame the sensor
    delivers is the same frame [f], with X and Y within 0.5 g and Z in
    [0.8, 1.5] g, the calibration succeeds, the offsets are [f] in g, the
    baseline is 0, and the next reading of the initialized detector has
    zero acceleration on every axis and zero magnitude. *)
Theorem stationary_sensor_calibrates_to_zero (f : Frame) (st : Seismograph) (w : World) :
  let x := IZR (raw_ax f) / 16384 in
  let y := IZR (raw_ay f) / 16384 in
  let z := IZR (raw_az f) / 16384 in
  (forall k, mpuFrames w k = f) ->
  Rabs x <= 0.5 -> Rabs y <= 0.5 -> 0.8 <= z <= 1.5 ->
  let st' := (calibrate st w).1.2 in
  let w' := (calibrate st w).2 in
  let d := (readSensor (set_initialized true st') w').1.1 in
  (calibrate st w).1.1.1 = true /\
  offsetX (cal st') = x /\ offsetY (cal st') = y /\ offsetZ (cal st') = z /\
  baselineLTA (cal st') = 0 /\
  SensorData.accelX d = 0 /\ SensorData.accelY d = 0 /\ SensorData.accelZ d = 0 /\
  SensorData.magnitude d = 0.
Proof.
  intros x y z Hf Hx Hy Hz.
  destruct (calibrate_stationary f st w Hf Hx Hy Hz) as (t & w' & Hc & Hf').
  fold x y z in Hc. cbv zeta. rewrite Hc. cbn [fst snd].
  rewrite readSensor_initialized. cbv zeta.
  rewrite Hf'. unfold MPU6050_ACCEL_SCALE, calculateMagnitude. fold x y z.
  destruct st as [? ? c0 ? ? ? ? ?].
  cbn [cal set_cal set_initialized offsetX offsetY offsetZ baselineLTA
       SensorData.accelX SensorData.accelY SensorData.accelZ SensorData.magnitude].
  repeat split; try lra.
  replace ((x - x) * (x - x) + (y - y) * (y - y) + (z - z) * (z - z)) with 0 by lra.
  apply sqrt_0.
Qed.

Lemma stationary_sensor_calibrates_to_zero_witness :
  (calibrate Seismograph_new restingWorld).1.1.1 = true /\
  offsetZ (cal (calibrate Seismograph_new restingWorld).1.2) = 16384 / 16384 /\
  SensorData.magnitude
    (readSensor (set_initialized true (calibrate Seismograph_new restingWorld).1.2)
       (calibrate Seismograph_new restingWorld).2).1.1 = 0.
Proof.
  assert (H1 : forall k, mpuFrames restingWorld k = mkFrame 0 0 16384)
    by (intros k; reflexivity).
  assert (H2 : Rabs (IZR (raw_ax (mkFrame 0 0 16384)) / 16384) <= 0.5)
    by (cbn [raw_ax]; rewrite Rabs_right; lra).
  assert (H3 : Rabs (IZR (raw_ay (mkFrame 0 0 16384)) / 16384) <= 0.5)
    by (cbn [raw_ay]; rewrite Rabs_right; lra).
  assert (H4 : 0.8 <= IZR (raw_az (mkFrame 0 0 16384)) / 16384 <= 1.5)
    by (cbn [raw_az]; lra).
  pose proof (stationary_sensor_calibrates_to_zero (mkFrame 0 0 16384)
                Seismograph_new restingWorld H1 H2 H3 H4) as H.
  cbv zeta in H. cbn [raw_az] in H.
  destruct H as (Ha & _ & _ & Hb & _ & _ & _ & _ & Hc).
  split; [exact Ha | split; [exact Hb | exact Hc]].
Defined.

(** ** The drift monitor *)

Lemma calibrationKept_refl (c : Calibration) : calibrationKept c c.
Proof. unfold calibrationKept. tauto. Qed.

Lemma calibrationKept_trans (c1 c2 c3 : Calibration) :
  calibrationKept c1 c2 -> calibrationKept c2 c3 -> calibrationKept c1 c3.
Proof.
  unfold calibrationKept.
  intros (? & ? & ? & ? & ? & ? & ? & ?) (? & ? & ? & ? & ? & ? & ? & ?).
  repeat split; try congruence. auto.
Qed.

Lemma checkCalibrationDrift_kept (st : Seismograph) (w : World) :
  calibrationKept (cal st) (cal (checkCalibrationDrift st w)).
Proof.
  destruct (checkCalibrationDrift_frame st w) as (t & v & -> & Hv).
  destruct st. unfold calibrationKept. cbn. tauto.
Qed.

Lemma processData_cal (data : SensorData.t) (st : Seismograph) (w : World) :
  calibrationKept (cal st) (cal (processData data st w).1).
Proof.
  unfold processData.
  destruct (isSpikeFiltered _ st).
  { destruct st. cbn. apply calibrationKept_refl. }
  match goal with
  | |- context [startEvent _ ?s w] => set (st3 := s)
  end.
  assert (Hc : cal st3 = cal st).
  { subst st3. cbn [cal set_stalta].
    match goal with
    | |- context [updateAdaptiveThresholds ?s w] =>
        destruct (updateAdaptiveThresholds_frame s w) as (a & -> & _)
    end.
    reflexivity. }
  rewrite <- Hc.
  assert (Hk : forall s w0, cal s = cal st3 ->
                 calibrationKept (cal st3) (cal (checkCalibrationDrift s w0))).
  { intros s w0 Hs. rewrite <- Hs. apply checkCalibrationDrift_kept. }
  destruct (default false (checkEventTrigger _)).
  - destruct (eventActive (event st3)); cbn [negb]; cbv beta iota; cbn [fst];
      apply Hk; reflexivity.
  - destruct (eventActive (event st3)) eqn:Ha.
    + case_decide.
      * destruct (endEvent_spec st3 w Ha) as (ts & w' & r & -> & _).
        cbv beta iota. cbn [fst]. apply Hk. reflexivity.
      * cbv beta iota. cbn [fst]. apply Hk. reflexivity.
    + cbv beta iota. cbn [fst]. apply Hk. reflexivity.
Qed.

(** X18: the sample path never recalibrates.  However the detector is
    driven through [processData], the offsets, the remembered offsets, the
    calibration time, the baseline and the [calibrated] flag stay what they
    were, and a calibration that is marked invalid is never marked valid
    again. *)
Theorem detector_never_recalibrates
    (inputs : list (Z * SensorData.t)) (st : Seismograph) (w : World) :
  let c := cal st in
  let c' := cal (runDetector inputs st w).1 in
  offsetX c' = offsetX c /\ offsetY c' = offsetY c /\ offsetZ c' = offsetZ c /\
  calibrated c' = calibrated c /\
  lastCalibrationOffsets c' = lastCalibrationOffsets c /\
  lastCalibrationTime c' = lastCalibrationTime c /\
  baselineLTA c' = baselineLTA c /\
  (calibrationValid c = false -> calibrationValid c' = false).
Proof.
  cbv zeta.
  assert (H : calibrationKept (cal st) (cal (runDetector inputs st w).1)).
  { induction inputs as [|input inputs IH] using rev_ind.
    - apply calibrationKept_refl.
    - rewrite runDetector_snoc.
      eapply calibrationKept_trans; [exact IH | apply processData_cal]. }
  destruct H as (? & ? & ? & ? & ? & ? & ? & Hv).
  repeat split; try assumption.
  intros Hf. destruct (calibrationValid (cal (runDetector inputs st w).1)); [|reflexivity].
  rewrite Hv in Hf by reflexivity. discriminate.
Qed.

Lemma drift_threshold (lta b : R) :
  0 < b ->
  (Rabs ((lta - b) / b * 100) > 50 <-> lta < 0.5 * b \/ 1.5 * b < lta).
Proof.
  intros Hb.
  assert (Hq : (lta - b) / b * b = lta - b) by (field; lra).
  set (q := (lta - b) / b) in *. clearbody q.
  split.
  - intros H. unfold Rabs in H. destruct (Rcase_abs (q * 100)); [left | right]; nra.
  - intros [H | H]; unfold Rabs; destruct (Rcase_abs (q * 100)); nra.
Qed.

(** One drift check on a long-term average that is a number. *)
Lemma checkCalibrationDrift_cases (st : Seismograph) (w : World) :
  let c := cal st in
  let c' := cal (checkCalibrationDrift st w) in
  let due := (300000 <= usub (millis w) (lastDriftCheck c))%Z in
  let lta := ltaSum (stalta st) / INR LTA_WINDOW in
  let b := baselineLTA c in
  (due -> lastDriftCheck c' = millis w) /\
  (~ due -> checkCalibrationDrift st w = st) /\
  (calibrationValid c' = true <->
   calibrationValid c = true /\
   ~ (due /\ ltaFull (stalta st) = true /\ 0 < b /\ (lta < 0.5 * b \/ 1.5 * b < lta))).
Proof.
  cbv zeta. unfold checkCalibrationDrift.
  destruct (decide (usub (millis w) (lastDriftCheck (cal st)) < 300000)%Z) as [Hd | Hd].
  { split; [lia|]. split; [reflexivity|]. split; [|tauto].
    intros H. split; [exact H | lia]. }
  split.
  { intros _. destruct (_ || _ || _); destruct st; reflexivity. }
  split; [lia|].
  destruct (calibrationValid (cal st)) eqn:Hv; cbn [negb orb];
    [|destruct st; cbn; split; [discriminate | tauto]].
  destruct (ltaFull (stalta st)) eqn:Hl; cbn [negb orb];
    [|destruct st; cbn; split; [intros _; split; [reflexivity | intros (_ & ? & _); discriminate] | reflexivity]].
  destruct (decide (baselineLTA (cal st) <= 0)) as [Hb | Hb].
  { rewrite (bool_decide_true _ Hb). destruct st; cbn in *.
    split; [intros _; split; [reflexivity | intros (_ & _ & ? & _); lra] | reflexivity]. }
  rewrite (bool_decide_false _ Hb).
  assert (Hb' : 0 < baselineLTA (cal st)) by lra.
  pose proof (drift_threshold (ltaSum (stalta st) / INR LTA_WINDOW)
                (baselineLTA (cal st)) Hb') as Hdr.
  rewrite fabs_Rabs. unfold isnan. cbn [orb].
  destruct (decide (Rabs ((ltaSum (stalta st) / INR LTA_WINDOW - baselineLTA (cal st))
                          / baselineLTA (cal st) * 100) > 50)) as [Hbig | Hsmall].
  - cbn [andb]. destruct st; cbn in *. split; [discriminate|].
    intros (_ & Hno). exfalso. apply Hno. repeat split; try assumption; try lia.
    apply Hdr. exact Hbig.
  - assert (Hin : ~ (ltaSum (stalta st) / INR LTA_WINDOW < 0.5 * baselineLTA (cal st) \/
                     1.5 * baselineLTA (cal st) < ltaSum (stalta st) / INR LTA_WINDOW))
      by (intros H; apply Hsmall, Hdr, H).
    assert (Hpos : ~ ltaSum (stalta st) / INR LTA_WINDOW < 0) by (intros H; apply Hin; left; lra).
    rewrite (bool_decide_false _ Hpos).
    destruct (detailedLoggingEnabled st); cbn [andb]; destruct st; cbn in *;
      (split; [intros _; split; [reflexivity | tauto] | reflexivity]).
Qed.

(** With a number for [ltaSum] the NaN-aware drift check is the drift check
    of the detector. *)
Lemma checkCalibrationDriftF_Num (st : Seismograph) (w : World) :
  checkCalibrationDriftF (Num (ltaSum (stalta st))) st w = checkCalibrationDrift st w.
Proof.
  unfold checkCalibrationDriftF, checkCalibrationDrift.
  cbn [mapNum isnanF gtF ltF isnan orb].
  case_decide; [reflexivity|].
  destruct (negb (calibrationValid (cal st)) || negb (ltaFull (stalta st))
            || bool_decide (baselineLTA (cal st) <= 0)); [reflexivity|].
  destruct (decide (fabs ((ltaSum (stalta st) / INR LTA_WINDOW - baselineLTA (cal st))
                          / baselineLTA (cal st) * 100) > 50)) as [Hd | Hd].
  - rewrite (bool_decide_true _ Hd). reflexivity.
  - rewrite (bool_decide_false _ Hd). reflexivity.
Qed.

(** X19: one drift check, NaN included.  The check is due when 300000 ms
    or more have passed (on the 32-bit clock) since the last one; a due
    check sets [lastDriftCheck] to now, any other call changes nothing.
    The calibration is valid afterwards exactly when it was valid before
    and the check did not find a drift.  A due check with the LTA window
    full and a positive baseline [b] finds one, when [ltaSum] is a number,
    exactly when the current LTA is below 0.5 b or above 1.5 b, whatever
    [detailedLoggingEnabled] is; when [ltaSum] is a NaN the drift test is
    false and it finds one exactly when [detailedLoggingEnabled] is set. *)
Theorem checkCalibrationDrift_spec (ltaSumF : MaybeNaN) (st : Seismograph) (w : World) :
  let c := cal st in
  let c' := cal (checkCalibrationDriftF ltaSumF st w) in
  let due := (300000 <= usub (millis w) (lastDriftCheck c))%Z in
  let b := baselineLTA c in
  let drifted :=
    match ltaSumF with
    | Num s => s / INR LTA_WINDOW < 0.5 * b \/ 1.5 * b < s / INR LTA_WINDOW
    | NaN => detailedLoggingEnabled st = true
    end in
  (due -> lastDriftCheck c' = millis w) /\
  (~ due -> checkCalibrationDriftF ltaSumF st w = st) /\
  (calibrationValid c' = true <->
   calibrationValid c = true /\
   ~ (due /\ ltaFull (stalta st) = true /\ 0 < b /\ drifted)).
Proof.
  cbv zeta. unfold checkCalibrationDriftF.
  destruct (decide (usub (millis w) (lastDriftCheck (cal st)) < 300000)%Z) as [Hd | Hd].
  { split; [lia|]. split; [reflexivity|]. split; [|tauto].
    intros H. split; [exact H | lia]. }
  split.
  { intros _. destruct (_ || _ || _); destruct st; reflexivity. }
  split; [lia|].
  destruct (calibrationValid (cal st)) eqn:Hv; cbn [negb orb];
    [|destruct st; cbn; split; [discriminate | tauto]].
  destruct (ltaFull (stalta st)) eqn:Hl; cbn [negb orb];
    [|destruct st; cbn; split;
      [intros _; split; [reflexivity | intros (_ & ? & _); discriminate] | reflexivity]].
  destruct (decide (baselineLTA (cal st) <= 0)) as [Hb | Hb].
  { rewrite (bool_decide_true _ Hb). destruct st; cbn in *.
    split; [intros _; split; [reflexivity | intros (_ & _ & ? & _); lra] | reflexivity]. }
  rewrite (bool_decide_false _ Hb).
  assert (Hb' : 0 < baselineLTA (cal st)) by lra.
  destruct ltaSumF as [|s]; cbn [mapNum isnanF gtF ltF orb andb].
  - destruct (detailedLoggingEnabled st) eqn:Hlog; destruct st; cbn in *.
    + split; [discriminate|]. intros (_ & Hno). exfalso. apply Hno.
      repeat split; try assumption; try lia.
    + split; [intros _; split; [reflexivity|] | reflexivity].
      intros (_ & _ & _ & Hc). discriminate.
  - pose proof (drift_threshold (s / INR LTA_WINDOW) (baselineLTA (cal st)) Hb') as Hdr.
    rewrite fabs_Rabs.
    destruct (decide (Rabs ((s / INR LTA_WINDOW - baselineLTA (cal st))
                            / baselineLTA (cal st) * 100) > 50)) as [Hbig | Hsmall].
    + rewrite (bool_decide_true _ Hbig). cbn [andb]. destruct st; cbn in *.
      split; [discriminate|].
      intros (_ & Hno). exfalso. apply Hno. repeat split; try assumption; try lia.
      apply Hdr. exact Hbig.
    + rewrite (bool_decide_false _ Hsmall).
      assert (Hin : ~ (s / INR LTA_WINDOW < 0.5 * baselineLTA (cal st) \/
                       1.5 * baselineLTA (cal st) < s / INR LTA_WINDOW))
        by (intros H; apply Hsmall, Hdr, H).
      assert (Hpos : ~ s / INR LTA_WINDOW < 0) by (intros H; apply Hin; left; lra).
      rewrite (bool_decide_false _ Hpos).
      destruct (detailedLoggingEnabled st); cbn [andb]; destruct st; cbn in *;
        (split; [intros _; split; [reflexivity | tauto] | reflexivity]).
Qed.

(** ** Start-up *)

(** X20: [begin] fails only when the sensor does not answer, and then
    changes nothing.  With the sensor connected it returns true with the
    detector initialized, whatever the calibration said, and the detector
    is in one of two states: calibrated and valid, with X and Y offsets of
    at most 0.5 g and a Z offset in [0.8, 1.5] g, or uncalibrated and
    invalid with all three offsets zero, whatever offsets it held before. *)
Theorem begin_calibrated_or_default (connected : bool) (st : Seismograph) (w : World) :
  let ok := (begin connected st w).1.1 in
  let st' := (begin connected st w).1.2 in
  let c := cal st' in
  ok = connected /\
  (connected = false -> begin connected st w = (false, st, w)) /\
  (connected = true ->
   initialized st' = true /\
   ((calibrated c = true /\ calibrationValid c = true /\
     Rabs (offsetX c) <= 0.5 /\ Rabs (offsetY c) <= 0.5 /\ 0.8 <= offsetZ c <= 1.5 /\
     (calibrate st (delay 1000 w)).1.1.1 = true)
    \/
    (calibrated c = false /\ calibrationValid c = false /\
     offsetX c = 0 /\ offsetY c = 0 /\ offsetZ c = 0 /\
     (calibrate st (delay 1000 w)).1.1.1 = false))).
Proof.
  cbv zeta. unfold begin. destruct connected; cbn [negb].
  2: { split; [reflexivity|]. split; [reflexivity | discriminate]. }
  pose proof (calibrate_success st (delay 1000 w)) as Hb. cbv zeta in Hb.
  destruct (calibrate st (delay 1000 w)) as [[[ok verdict] st1] w2].
  cbn [fst snd] in *.
  split; [reflexivity|]. split; [discriminate|]. intros _.
  destruct ok; cbn [negb].
  - destruct (Hb eq_refl) as (Hx & Hy & Hz & Hc & Hv & _).
    split; [destruct st1; reflexivity|]. left.
    destruct st1; cbn in *. repeat split; try assumption; lra.
  - split; [destruct st1; reflexivity|]. right.
    destruct st1; cbn. repeat split; reflexivity.
Qed.

(** ** The time manager: synchronisation and trust *)

Lemma syncWithNTP_spec (now : Z) (r1 r2 r3 : option Z) (tm : TimeManager.t) :
  (replied r1 r2 r3 = true /\
   exists epoch,
     TimeManager.syncWithNTP now r1 r2 r3 tm = (true, TimeManager.synced now epoch tm) /\
     (r1 = Some epoch \/ r2 = Some epoch \/ r3 = Some epoch)) \/
  (replied r1 r2 r3 = false /\ TimeManager.syncWithNTP now r1 r2 r3 tm = (false, tm)).
Proof.
  unfold TimeManager.syncWithNTP, replied.
  destruct r1 as [e|]; [left; split; [reflexivity | exists e; auto]|].
  destruct r2 as [e|]; [left; split; [reflexivity | exists e; auto]|].
  destruct r3 as [e|]; [left; split; [reflexivity | exists e; auto]|].
  right. split; reflexivity.
Qed.

Lemma usub_self (a : Z) : usub a a = 0%Z.
Proof. unfold usub, wrap32. rewrite Z.sub_diag. reflexivity. Qed.

(** X21: what one [loop] does to the trust in the clock.  Right after
    [loop] ran at time [now], the time is valid exactly when the manager is
    initialized and either the last synchronisation is less than two hours
    old or WiFi is up and one of the three servers answered: with the
    network available the time never expires, and without it [loop] changes
    nothing about the trust. *)
Theorem loop_keeps_time_valid
    (wifi : bool) (now : Z) (r1 r2 r3 : option Z) (updated : Z) (tm : TimeManager.t) :
  let tm' := TimeManager.loop wifi now r1 r2 r3 updated tm in
  TimeManager.isTimeValid now tm' =
    TimeManager.initialized tm &&
    (bool_decide (usub now (TimeManager.lastSync tm) < 7200000)%Z
     || (wifi && replied r1 r2 r3)) /\
  TimeManager.initialized tm' = TimeManager.initialized tm /\
  TimeManager.bootTime tm' = TimeManager.bootTime tm /\
  ((usub now (TimeManager.lastSync tm) < 3600000)%Z ->
   TimeManager.lastSync tm' = TimeManager.lastSync tm).
Proof.
  cbv zeta. unfold TimeManager.loop, TimeManager.isTimeValid, NTP_SYNC_INTERVAL.
  change (3600000 * 2)%Z with 7200000%Z.
  destruct (TimeManager.initialized tm) eqn:Hi; cbn [negb andb].
  2: { rewrite Hi. repeat split. }
  destruct (decide (usub now (TimeManager.lastSync tm) >= 3600000)%Z) as [Hd | Hd].
  - destruct wifi; cbn [andb].
    + destruct (syncWithNTP_spec now r1 r2 r3 tm) as [(Hr & e & -> & _) | (Hr & ->)];
        rewrite Hr; cbn [snd TimeManager.initialized TimeManager.lastSync
                         TimeManager.bootTime TimeManager.synced].
      * rewrite Hi, usub_self, orb_true_r. cbn [andb].
        repeat split; try (apply bool_decide_eq_true; lia); try lia.
      * rewrite Hi, orb_false_r. cbn [andb]. repeat split.
    + cbn [TimeManager.initialized TimeManager.lastSync TimeManager.bootTime].
      rewrite Hi, orb_false_r. cbn [andb]. repeat split.
  - cbn [TimeManager.initialized TimeManager.lastSync TimeManager.bootTime].
    rewrite Hi. cbn [andb].
    rewrite (bool_decide_true (usub now (TimeManager.lastSync tm) < 7200000)%Z) by lia.
    repeat split.
Qed.

Lemma timeStep_initialized (tm : TimeManager.t) (op : TimeOp) :
  TimeManager.initialized (timeStep tm op) = true ->
  TimeManager.initialized tm = true \/ beginSucceeds op = true.
Proof.
  destruct op as [wifi now r1 r2 r3 | wifi now r1 r2 r3 updated | wifi now r1 r2 r3];
    cbn [timeStep beginSucceeds].
  - unfold TimeManager.begin. destruct wifi; cbn [negb andb]; [|auto].
    destruct (syncWithNTP_spec now r1 r2 r3 tm) as [(Hr & e & -> & _) | (Hr & ->)];
      rewrite Hr; cbn; auto.
  - unfold TimeManager.loop.
    destruct (TimeManager.initialized tm) eqn:Hi; cbn [negb]; [auto|].
    rewrite Hi. auto.
  - unfold TimeManager.forceSync. destruct wifi; [|auto].
    destruct (syncWithNTP_spec now r1 r2 r3 tm) as [(Hr & e & -> & _) | (Hr & ->)];
      cbn; auto.
Qed.

(** X22: only a successful [begin] establishes trust.  If the time is
    valid after any sequence of [begin], [loop] and [forceSync] calls on a
    freshly constructed manager, one of the calls was a [begin] made with
    WiFi connected and answered by one of the three servers; [loop] and
    [forceSync] alone never make the time valid. *)
Theorem time_valid_needs_successful_begin (ops : list TimeOp) (ntp now : Z) :
  TimeManager.isTimeValid now (timeRun ops (TimeManager.init ntp)) = true ->
  Exists (fun op => beginSucceeds op = true) ops.
Proof.
  unfold TimeManager.isTimeValid. intros H. apply andb_true_iff in H as [H _].
  revert H. unfold timeRun.
  induction ops as [|op ops IH] using rev_ind; [discriminate|].
  rewrite foldl_app. cbn [foldl]. intros H.
  apply Exists_app.
  destruct (timeStep_initialized _ _ H) as [Hi | Hb].
  - left. apply IH, Hi.
  - right. constructor. exact Hb.
Qed.

Lemma time_valid_needs_successful_begin_witness :
  TimeManager.isTimeValid 5000
    (timeRun [OpLoop true 1000 None None None 0; OpBegin true 2000 None (Some 1700000000%Z) None]
       (TimeManager.init 0)) = true /\
  Exists (fun op => beginSucceeds op = true)
    [OpLoop true 1000 None None None 0; OpBegin true 2000 None (Some 1700000000%Z) None].
Proof.
  assert (H : TimeManager.isTimeValid 5000
                (timeRun [OpLoop true 1000 None None None 0;
                          OpBegin true 2000 None (Some 1700000000%Z) None]
                   (TimeManager.init 0)) = true) by reflexivity.
  split; [exact H|].
  exact (time_valid_needs_successful_begin _ 0 5000 H).
Defined.

(** X23: a successful [begin] fixes the epoch and the boot time
    consistently.  With WiFi up and the first answering server reporting
    [epoch] (an [unsigned long]) at time [now], [begin] returns true, the
    time is valid at every reading of the clock less than two hours after
    [now], [getEpochTime] at [now] is [epoch], and the boot time is such
    that boot time plus the uptime in seconds at [now] gives [epoch]
    again. *)
Theorem begin_sets_epoch_and_boot_time
    (now epoch : Z) (r1 r2 r3 : option Z) (tm : TimeManager.t) (later : Z) :
  (0 <= epoch < ULONG_MOD)%Z ->
  (r1 = Some epoch \/ (r1 = None /\ (r2 = Some epoch \/ (r2 = None /\ r3 = Some epoch)))) ->
  (usub later now < 7200000)%Z ->
  let tm' := (TimeManager.begin true now r1 r2 r3 tm).2 in
  (TimeManager.begin true now r1 r2 r3 tm).1 = true /\
  TimeManager.isTimeValid later tm' = true /\
  TimeManager.getEpochTime now tm' = epoch /\
  uadd (TimeManager.bootTime tm') (now / 1000) = epoch.
Proof.
  intros He Hr Hl. cbv zeta.
  assert (Hs : TimeManager.syncWithNTP now r1 r2 r3 tm
               = (true, TimeManager.synced now epoch tm)).
  { unfold TimeManager.syncWithNTP.
    destruct Hr as [-> | (-> & [-> | (-> & ->)])]; reflexivity. }
  unfold TimeManager.begin. cbn [negb]. rewrite Hs.
  cbn [fst snd TimeManager.synced TimeManager.lastSync TimeManager.bootTime
       TimeManager.ntpEpoch].
  unfold TimeManager.isTimeValid, TimeManager.getEpochTime, NTP_SYNC_INTERVAL.
  cbn [TimeManager.initialized TimeManager.lastSync TimeManager.ntpEpoch
       TimeManager.bootTime andb].
  repeat split.
  - apply bool_decide_eq_true. lia.
  - unfold uadd, usub, wrap32, ULONG_MOD in *.
    rewrite Zplus_mod_idemp_l.
    replace (epoch - now / 1000 + now / 1000)%Z with epoch by lia.
    apply Z.mod_small. lia.
Qed.

Lemma begin_sets_epoch_and_boot_time_witness :
  TimeManager.getEpochTime 2000
    (TimeManager.begin true 2000 None (Some 1700000000%Z) None (TimeManager.init 0)).2
  = 1700000000%Z.
Proof.
  apply (begin_sets_epoch_and_boot_time 2000 1700000000 None (Some 1700000000%Z) None
           (TimeManager.init 0) 5000).
  - unfold ULONG_MOD. lia.
  - right. split; [reflexivity|]. left. reflexivity.
  - vm_compute. reflexivity.
Defined.

(** ** The event queue *)

Lemma endEvent_queue (st : Seismograph) (w : World) :
  exists new : list EventPacket.t,
    queuedEvents (endEvent st w).2 = queuedEvents w ++ new /\
    Forall packetWellFormed new /\
    (length (queuedEvents w) <= EVENT_QUEUE_SIZE ->
     length (queuedEvents w ++ new) <= EVENT_QUEUE_SIZE)%nat /\
    (timeTrusted w = false -> new = []).
Proof.
  assert (Hnil : forall w0 : World, w0 = w ->
            exists new : list EventPacket.t,
              queuedEvents w0 = queuedEvents w ++ new /\
              Forall packetWellFormed new /\
              (length (queuedEvents w) <= EVENT_QUEUE_SIZE ->
               length (queuedEvents w ++ new) <= EVENT_QUEUE_SIZE)%nat /\
              (timeTrusted w = false -> new = [])).
  { intros w0 ->. exists []. rewrite app_nil_r. repeat split; auto. }
  unfold endEvent. destruct (eventActive (event st)); cbn [negb]; [|apply Hnil; reflexivity].
  fold (timeTrusted w). destruct (timeTrusted w) eqn:Hv; cbn [negb];
    [|apply Hnil; reflexivity].
  match goal with
  | |- context [createSeismicEvent ?m ?d ?s ?st1 w] =>
      destruct (createSeismicEvent_spec m d s st1 w) as (t & n & dl & r & -> & _)
  end.
  cbn [globalCoreManager timeManager millis clock].
  unfold queuedEvents at 2 3 4.
  destruct (globalCoreManager w) as [cm|] eqn:Hcm.
  2: { exists []. unfold queuedEvents. cbn [snd globalCoreManager].
       repeat split; auto. }
  unfold DualCoreManager.sendEvent.
  destruct (DualCoreManager.eventQueue cm) as [q|] eqn:Hq.
  2: { exists []. unfold queuedEvents. cbn [snd set_globalCoreManager globalCoreManager].
       rewrite Hq. repeat split; auto. }
  destruct (decide (length q < EVENT_QUEUE_SIZE)%nat) as [Hl | Hl].
  - eexists [_]. unfold queuedEvents.
    cbn [snd set_globalCoreManager globalCoreManager DualCoreManager.eventQueue default].
    split; [reflexivity|]. split; [|split; [|discriminate]].
    + constructor; [|constructor]. unfold packetWellFormed.
      cbn [EventPacket.level EventPacket.magnitude EventPacket.eventType
           EventPacket.timestamp].
      split; [reflexivity|]. rewrite classifyEvent_level.
      split; [apply getIntensityLevelFromRichter_range|].
      split; [apply getEventType_levelName|].
      unfold umul. apply wrap32_range.
    + intros _. rewrite length_app. cbn [length]. unfold Datatypes.id. lia.
  - exists []. unfold queuedEvents.
    cbn [snd set_globalCoreManager globalCoreManager]. rewrite Hq, app_nil_r.
    repeat split; auto.
Qed.

Lemma processData_queue (data : SensorData.t) (st : Seismograph) (w : World) :
  exists new : list EventPacket.t,
    queuedEvents (processData data st w).2 = queuedEvents w ++ new /\
    Forall packetWellFormed new /\
    (length (queuedEvents w) <= EVENT_QUEUE_SIZE ->
     length (queuedEvents w ++ new) <= EVENT_QUEUE_SIZE)%nat /\
    (timeTrusted w = false -> new = []).
Proof.
  destruct (processData_world data st w) as [-> | (st3 & _ & _ & _ & ->)].
  - exists []. rewrite app_nil_r. repeat split; auto.
  - apply endEvent_queue.
Qed.

(** X24: what the detector puts into the event queue.  However it is
    driven through [processData], it only appends to the queue; every
    packet it appends carries the level of its magnitude (between 1 and 6),
    the type name of that level and a 32-bit timestamp; and a queue within
    its capacity of 20 stays within it: the packet of an event that ends
    while the queue is full is dropped, the queued ones are kept. *)
Theorem detector_queue_appends_well_formed
    (inputs : list (Z * SensorData.t)) (st : Seismograph) (w : World) :
  exists new : list EventPacket.t,
    queuedEvents (runDetector inputs st w).2 = queuedEvents w ++ new /\
    Forall packetWellFormed new /\
    (length (queuedEvents w) <= EVENT_QUEUE_SIZE ->
     length (queuedEvents (runDetector inputs st w).2) <= EVENT_QUEUE_SIZE)%nat.
Proof.
  induction inputs as [|input inputs IH] using rev_ind.
  - exists []. rewrite app_nil_r. repeat split; auto.
  - destruct IH as (new & Hq & Hwf & Hlen). rewrite runDetector_snoc.
    destruct (processData_queue input.2 (runDetector inputs st w).1
                (set_clock input.1 (runDetector inputs st w).2))
      as (new' & Hq' & Hwf' & Hlen' & _).
    assert (Hsc : forall w0 t, queuedEvents (set_clock t w0) = queuedEvents w0)
      by reflexivity.
    rewrite Hsc in Hq', Hlen'.
    exists (new ++ new'). split; [rewrite Hq', Hq, app_assoc; reflexivity|].
    split; [apply Forall_app; split; assumption|].
    intros Hw. rewrite Hq'. apply Hlen', Hlen, Hw.
Qed.

Lemma queueStep_invariant
    (s : DualCoreManager.t * list EventPacket.t * list EventPacket.t) (op : QueueOp)
    (q0 : list EventPacket.t) :
  (exists q, DualCoreManager.eventQueue s.1.1 = Some q /\
             q0 ++ s.1.2 = s.2 ++ q /\ (length q <= EVENT_QUEUE_SIZE)%nat) ->
  exists q, DualCoreManager.eventQueue (queueStep s op).1.1 = Some q /\
            q0 ++ (queueStep s op).1.2 = (queueStep s op).2 ++ q /\
            (length q <= EVENT_QUEUE_SIZE)%nat.
Proof.
  destruct s as [[cm accepted] received]. cbn [fst snd].
  intros (q & Hq & Heq & Hlen).
  destruct op as [p|]; cbn [queueStep].
  - unfold DualCoreManager.sendEvent. rewrite Hq.
    destruct (decide (length q < EVENT_QUEUE_SIZE)%nat) as [Hl | Hl]; cbn [fst snd].
    + exists (q ++ [p]). cbn [DualCoreManager.eventQueue].
      split; [reflexivity|]. rewrite !app_assoc, Heq. split; [reflexivity|].
      rewrite length_app. cbn [length]. lia.
    + exists q. auto.
  - unfold receiveEvent. rewrite Hq. destruct q as [|p q]; cbn [fst snd].
    + exists []. auto.
    + exists q. cbn [DualCoreManager.eventQueue]. split; [reflexivity|].
      rewrite Heq, <- app_assoc. split; [reflexivity|]. cbn [length] in Hlen. lia.
Qed.

Lemma queueStep_null
    (s : DualCoreManager.t * list EventPacket.t * list EventPacket.t) (op : QueueOp) :
  DualCoreManager.eventQueue s.1.1 = None ->
  DualCoreManager.eventQueue (queueStep s op).1.1 = None /\
  (queueStep s op).1.2 = s.1.2 /\ (queueStep s op).2 = s.2.
Proof.
  destruct s as [[cm accepted] received]. cbn [fst snd]. intros Hq.
  destruct op as [p|]; cbn [queueStep].
  - unfold DualCoreManager.sendEvent. rewrite Hq. cbn [fst snd]. auto.
  - unfold receiveEvent. rewrite Hq. cbn [fst snd]. auto.
Qed.

(** X25: the event queue loses and reorders nothing it accepted.  After
    any sequence of [sendEvent] and [receiveEvent] calls on a queue holding
    [q0] (at most 20 packets), the packets held at the start followed by
    those [sendEvent] accepted are the packets [receiveEvent] delivered
    followed by those still queued, in the same order, and the queue never
    holds more than 20.  While the queue handle is null nothing is accepted
    and nothing delivered. *)
Theorem event_queue_is_fifo (ops : list QueueOp) (q0 : list EventPacket.t) :
  (length q0 <= EVENT_QUEUE_SIZE)%nat ->
  (let '(cm', accepted, received) :=
     queueRun ops {| DualCoreManager.eventQueue := Some q0 |} in
   exists q, DualCoreManager.eventQueue cm' = Some q /\
             q0 ++ accepted = received ++ q /\ (length q <= EVENT_QUEUE_SIZE)%nat) /\
  (let '(cm', accepted, received) :=
     queueRun ops {| DualCoreManager.eventQueue := None |} in
   DualCoreManager.eventQueue cm' = None /\ accepted = [] /\ received = []).
Proof.
  intros Hlen. unfold queueRun. split.
  - assert (H : exists q,
               DualCoreManager.eventQueue
                 (foldl queueStep ({| DualCoreManager.eventQueue := Some q0 |}, [], []) ops).1.1
               = Some q /\
               q0 ++ (foldl queueStep ({| DualCoreManager.eventQueue := Some q0 |}, [], []) ops).1.2
               = (foldl queueStep ({| DualCoreManager.eventQueue := Some q0 |}, [], []) ops).2 ++ q /\
               (length q <= EVENT_QUEUE_SIZE)%nat).
    { induction ops as [|op ops IH] using rev_ind.
      - exists q0. cbn. rewrite app_nil_r. auto.
      - rewrite foldl_app. cbn [foldl]. apply queueStep_invariant, IH. }
    destruct (foldl queueStep _ ops) as [[cm' accepted] received]. exact H.
  - assert (H : DualCoreManager.eventQueue
                  (foldl queueStep ({| DualCoreManager.eventQueue := None |}, [], []) ops).1.1
                = None /\
                (foldl queueStep ({| DualCoreManager.eventQueue := None |}, [], []) ops).1.2 = [] /\
                (foldl queueStep ({| DualCoreManager.eventQueue := None |}, [], []) ops).2 = []).
    { induction ops as [|op ops IH] using rev_ind.
      - cbn. auto.
      - rewrite foldl_app. cbn [foldl]. destruct IH as (Hq & Ha & Hr).
        destruct (queueStep_null _ op Hq) as (Hq' & -> & ->). auto. }
    destruct (foldl queueStep _ ops) as [[cm' accepted] received]. exact H.
Qed.

Lemma event_queue_is_fifo_witness :
  let p := EventPacket.mk "Light" 0.01 3 0 in
  let '(cm', accepted, received) :=
    queueRun [Send p; Receive; Receive] {| DualCoreManager.eventQueue := Some [] |} in
  exists q, DualCoreManager.eventQueue cm' = Some q /\
            [] ++ accepted = received ++ q /\ (length q <= EVENT_QUEUE_SIZE)%nat.
Proof.
  cbv zeta.
  apply (event_queue_is_fifo
           [Send (EventPacket.mk "Light" 0.01 3 0); Receive; Receive] []).
  cbn. unfold EVENT_QUEUE_SIZE. lia.
Defined.

(** ** The file logger *)

Import DataLoggerFiles.

Lemma logSystemEvent_frame (eventType description : string) (value : R)
    (now : Z) (tm : TimeManager.t) (sysTime : Z) (fs : DataLoggerFiles.t) :
  let r := logSystemEvent eventType description value now tm sysTime fs in
  eventsDir r.2 = eventsDir fs /\ dataDir r.2 = dataDir fs /\
  logger r.2 = logger fs /\ lastSensorLog r.2 = lastSensorLog fs /\
  (r.1 = true <->
   DataLogger.initialized (logger fs) && DataLogger.fileOpens (logger fs) = true) /\
  (r.1 = true ->
   exists line,
     systemDir r.2 = systemDir fs ++ [((now / MS_PER_DAY)%Z, line)] /\
     sys_type line = eventType /\ sys_description line = description /\
     sys_value line = value /\
     sys_ntp_valid line = TimeManager.isTimeValid now tm).
Proof.
  cbv zeta. unfold logSystemEvent.
  destruct (DataLogger.initialized (logger fs)); cbn [negb andb].
  2: { repeat split; try discriminate. }
  destruct (DataLogger.fileOpens (logger fs)); cbn [negb].
  2: { destruct (TimeManager.isTimeValid now tm); [|case_decide];
         cbn [fst snd]; repeat split; try discriminate. }
  destruct (TimeManager.isTimeValid now tm); [|case_decide];
    cbn [fst snd eventsDir dataDir logger lastSensorLog systemDir];
    repeat split; intros _; eexists; (split; [reflexivity|]); repeat split.
Qed.

(** What [logEvent] returns and writes, case by case. *)
Lemma logEvent_cases (eventType description : string) (magnitude : R)
    (now : Z) (tm : TimeManager.t) (sysTime : Z) (fs : DataLoggerFiles.t) :
  let r := logEvent eventType description magnitude now tm sysTime fs in
  let valid := TimeManager.isTimeValid now tm in
  let ready := DataLogger.initialized (logger fs) && DataLogger.fileOpens (logger fs) in
  (r.1 = true <->
   ready = true /\
   (valid = true \/
    (isSeismicEvent eventType = false /\ (TimeManager.EPOCH_2020 <= sysTime)%Z))) /\
  (r.1 = true ->
   eventsDir r.2 =
     eventsDir fs ++
       [((now / MS_PER_DAY)%Z,
         mkEventLine (if valid then TimeManager.getEpochTime now tm else sysTime)
                     eventType description magnitude valid)] /\
   systemDir r.2 = systemDir fs) /\
  (r.1 = false -> eventsDir r.2 = eventsDir fs) /\
  (ready = true -> isSeismicEvent eventType = true -> valid = false ->
   exists line,
     systemDir r.2 = systemDir fs ++ [((now / MS_PER_DAY)%Z, line)] /\
     sys_type line = "EVENT_REJECTED"%string /\ sys_value line = magnitude /\
     sys_ntp_valid line = false) /\
  (forall richter : R,
     isSeismicEvent (getEventTypeFromRichter richter) = true <->
     richter < 2 \/ 4 <= richter < 5 \/ 6 <= richter < 7).
Proof.
  cbv zeta. split; [|split; [|split; [|split]]].
  5: { intros richter. unfold getEventTypeFromRichter.
       repeat case_decide; cbn; split; intros Hx; try discriminate; try reflexivity;
         try lra; try (destruct Hx as [Hx | [Hx | Hx]]; lra). }
  all: unfold logEvent.
  all: pose proof (logSystemEvent_frame "EVENT_REJECTED"
         (String.append "Seismic event rejected due to invalid NTP time: " eventType)
         magnitude now tm sysTime fs) as Hsys; cbv zeta in Hsys.
  all: destruct Hsys as (Hse & _ & _ & _ & Hsok & Hsline).
  all: destruct (DataLogger.initialized (logger fs)) eqn:Hi; cbn [negb andb] in *.
  all: destruct (isSeismicEvent eventType) eqn:Hs;
       destruct (TimeManager.isTimeValid now tm) eqn:Hv; cbn [negb andb] in *.
  all: try (destruct (decide (sysTime < TimeManager.EPOCH_2020)%Z) as [Hy | Hy]).
  all: destruct (DataLogger.fileOpens (logger fs)) eqn:Ho; cbn [negb fst snd] in *.
  all: try (split; [intros H; discriminate H | intros (H & _); discriminate H]).
  all: try discriminate.
  all: try (intros _; split; reflexivity).
  all: try (intros _; reflexivity).
  all: try (intros _; exact Hse).
  all: try (intros H; discriminate H).
  all: try (intros _ H; discriminate H).
  all: try (intros _ _ H; discriminate H).
  all: try (split; [intros _; split; [reflexivity | left; reflexivity] | reflexivity]).
  all: try (split; [intros H; discriminate H
                   | intros (_ & [H | (H & H')]); [discriminate H | try discriminate H; lia]]).
  all: try (split; [intros _; split; [reflexivity | right; split; [reflexivity | lia]]
                   | reflexivity]).
  all: try (intros _ _ _; destruct (Hsline (proj2 Hsok eq_refl))
              as (line & Hl & Ht & _ & Hval & Hn);
            exists line; rewrite Hl, Ht, Hval, Hn; repeat split).
Qed.

(** X26: when [logEvent] writes.  It returns true exactly when the logger
    is initialized, the file opens, and either the NTP time is valid or the
    type is none of "Micro", "Light", "Strong" and the system time is 2020
    or later; it then appends one line to the /events file of the current
    uptime day, with the NTP epoch and [ntp_valid] true, or the system time
    and [ntp_valid] false.  A rejected seismic type leaves /events alone
    and puts an "EVENT_REJECTED" line into /system.  Of the six type names
    the detector assigns by Richter value, the guard covers three: "Minor",
    "Moderate" and "Major" (Richter in [2, 4), [5, 6) and from 7) are not
    treated as seismic. *)
Theorem logEvent_spec (eventType description : string) (magnitude : R)
    (now : Z) (tm : TimeManager.t) (sysTime : Z) (fs : DataLoggerFiles.t) :
  let r := logEvent eventType description magnitude now tm sysTime fs in
  let valid := TimeManager.isTimeValid now tm in
  let ready := DataLogger.initialized (logger fs) && DataLogger.fileOpens (logger fs) in
  (r.1 = true <->
   ready = true /\
   (valid = true \/
    (isSeismicEvent eventType = false /\ (TimeManager.EPOCH_2020 <= sysTime)%Z))) /\
  (r.1 = true ->
   eventsDir r.2 =
     eventsDir fs ++
       [((now / MS_PER_DAY)%Z,
         mkEventLine (if valid then TimeManager.getEpochTime now tm else sysTime)
                     eventType description magnitude valid)] /\
   systemDir r.2 = systemDir fs) /\
  (r.1 = false -> eventsDir r.2 = eventsDir fs) /\
  (ready = true -> isSeismicEvent eventType = true -> valid = false ->
   exists line,
     systemDir r.2 = systemDir fs ++ [((now / MS_PER_DAY)%Z, line)] /\
     sys_type line = "EVENT_REJECTED"%string /\ sys_value line = magnitude /\
     sys_ntp_valid line = false) /\
  (forall richter : R,
     isSeismicEvent (getEventTypeFromRichter richter) = true <->
     richter < 2 \/ 4 <= richter < 5 \/ 6 <= richter < 7).
Proof. apply logEvent_cases. Qed.

Lemma isSeismicEvent_EVENT_REJECTED : isSeismicEvent "EVENT_REJECTED" = false.
Proof. reflexivity. Qed.

Lemma deleteOldData_kept {A : Type} (P : Z * A -> Prop) (c : Z) (l : list (Z * A)) :
  Forall P l -> Forall P (filter (fun p => ~ (p.1 < c)%Z) l).
Proof.
  intros H. apply Forall_forall. intros p Hp.
  apply list_elem_of_filter in Hp as [_ Hp].
  rewrite Forall_forall in H. apply H, Hp.
Qed.

Lemma logStep_trusted (fs : DataLoggerFiles.t) (op : LogOp) :
  Forall eventLineTrusted (eventsDir fs) ->
  Forall eventLineTrusted (eventsDir (logStep fs op)).
Proof.
  intros Hinv.
  destruct op as [eventType description magnitude now tm sysTime
                 | eventType description value now tm sysTime
                 | accelX accelY accelZ magnitude now
                 | daysToKeep now
                 | now]; cbn [logStep].
  - pose proof (logEvent_cases eventType description magnitude now tm sysTime fs) as H.
    cbv zeta in H. destruct H as (Hok & Hline & Hno & _).
    destruct (logEvent eventType description magnitude now tm sysTime fs).1 eqn:Hr.
    + destruct (Hline eq_refl) as [-> _]. apply Forall_app. split; [exact Hinv|].
      constructor; [|constructor]. unfold eventLineTrusted. cbn [snd ev_type ev_ntp_valid
                                                                  ev_timestamp].
      destruct (proj1 Hok eq_refl) as (_ & [Hv | (Hs & Hy)]).
      * rewrite Hv. split; [reflexivity | discriminate].
      * split; [rewrite Hs; discriminate|].
        destruct (TimeManager.isTimeValid now tm); [discriminate | intros _; exact Hy].
    + rewrite (Hno eq_refl). exact Hinv.
  - pose proof (logSystemEvent_frame eventType description value now tm sysTime fs) as H.
    cbv zeta in H. destruct H as (-> & _). exact Hinv.
  - unfold logSensorData.
    destruct (DataLogger.initialized (logger fs)); cbn [negb]; [|exact Hinv].
    case_decide; [exact Hinv|].
    destruct (DataLogger.fileOpens (logger fs)); exact Hinv.
  - apply deleteOldData_kept, Hinv.
  - unfold cleanupOldFiles. case_decide; [exact Hinv|].
    apply deleteOldData_kept, Hinv.
Qed.

(** X27: the /events files never hold an untimed seismic line.  Whatever
    sequence of [logEvent], [logSystemEvent], [logSensorData],
    [deleteOldData] and [cleanupOldFiles] calls runs on a logger that
    starts with empty directories, and whatever the clock, the time manager
    and the system time are at each call, every line under /events of type
    "Micro", "Light" or "Strong" is marked [ntp_valid], and every line not
    marked [ntp_valid] carries a timestamp of 2020-01-01 or later. *)
Theorem events_file_trusted (ops : list LogOp) (lg : DataLogger.t) :
  Forall eventLineTrusted (eventsDir (logRun ops (emptyFiles lg))).
Proof.
  unfold logRun. induction ops as [|op ops IH] using rev_ind.
  - constructor.
  - rewrite foldl_app. cbn [foldl]. apply logStep_trusted, IH.
Qed.

Lemma secondApart_snoc (l : list Z) (now : Z) :
  secondApart l -> Forall (fun t => (t + 1000 <= now)%Z) l ->
  secondApart (l ++ [now]).
Proof.
  intros Hl Hall l1 l2 a b Heq.
  destruct l2 as [|x l2 _] using rev_ind.
  - change (l1 ++ [a; b]) with (l1 ++ [a] ++ [b]) in Heq. rewrite app_assoc in Heq.
    apply app_inj_tail in Heq as [-> ->].
    apply Forall_app in Hall as [_ Ha]. apply Forall_cons in Ha as [Ha _]. exact Ha.
  - change (l1 ++ a :: b :: l2 ++ [x]) with (l1 ++ (a :: b :: l2) ++ [x]) in Heq.
    rewrite app_assoc in Heq. apply app_inj_tail in Heq as [-> _].
    eapply Hl. reflexivity.
Qed.

Lemma usub_small (a b : Z) : (0 <= a - b < ULONG_MOD)%Z -> usub a b = (a - b)%Z.
Proof. intros H. unfold usub, wrap32. apply Z.mod_small. exact H. Qed.

(** One call at a clock reading that has not gone back: the lines stay a
    second apart and at or before [lastSensorLog], whether the file opens
    or not. *)
Lemma logSensorData_invariant (c : SensorCall) (lo : Z) (fs : DataLoggerFiles.t) :
  let fs' := (logSensorData c.2.1.1.1 c.2.1.1.2 c.2.1.2 c.2.2 c.1.1
                (setFileOpens c.1.2 fs)).2 in
  (lo <= c.1.1 < ULONG_MOD)%Z ->
  (0 <= lastSensorLog fs <= lo)%Z ->
  Forall (fun t => (t <= lastSensorLog fs)%Z) (sensorTimes fs) ->
  secondApart (sensorTimes fs) ->
  (0 <= lastSensorLog fs' <= c.1.1)%Z /\
  Forall (fun t => (t <= lastSensorLog fs')%Z) (sensorTimes fs') /\
  secondApart (sensorTimes fs') /\
  (sensorTimes fs' = sensorTimes fs \/
   (c.1.2 = true /\ sensorTimes fs' = sensorTimes fs ++ [c.1.1])).
Proof.
  destruct c as [[now opens] [[[ax ay] az] m]]. cbn [fst snd]. cbv zeta.
  intros Hnow Hlast Hall Hsp.
  assert (Ho : DataLogger.fileOpens (logger (setFileOpens opens fs)) = opens)
    by reflexivity.
  change (lastSensorLog fs) with (lastSensorLog (setFileOpens opens fs)) in Hlast, Hall.
  change (sensorTimes fs) with (sensorTimes (setFileOpens opens fs)) in Hall, Hsp |- *.
  set (fs0 := setFileOpens opens fs) in *. clearbody fs0.
  unfold logSensorData.
  destruct (DataLogger.initialized (logger fs0)); cbn [negb snd].
  2: { split; [lia|]. split; [exact Hall|]. split; [exact Hsp | left; reflexivity]. }
  rewrite usub_small by lia.
  destruct (decide (now - lastSensorLog fs0 < 1000)%Z) as [Hd | Hd]; cbn [snd].
  { split; [lia|]. split; [exact Hall|]. split; [exact Hsp | left; reflexivity]. }
  rewrite Ho. destruct opens; cbn [negb snd].
  - match goal with
    | |- (_ <= lastSensorLog ?x <= _)%Z /\ _ => set (fs1 := x)
    end.
    assert (Hl1 : lastSensorLog fs1 = now) by reflexivity.
    assert (Hs1 : sensorTimes fs1 = sensorTimes fs0 ++ [now]).
    { unfold sensorTimes, fs1. cbn [dataDir]. rewrite map_app. reflexivity. }
    rewrite Hl1, Hs1.
    split; [lia|]. split; [|split; [|right; split; reflexivity]].
    + apply Forall_app. split.
      * eapply Forall_impl; [exact Hall|]. intros t Ht. cbv beta in *. lia.
      * constructor; [lia | constructor].
    + apply secondApart_snoc; [exact Hsp|].
      eapply Forall_impl; [exact Hall|]. intros t Ht. cbv beta in *. lia.
  - match goal with
    | |- (_ <= lastSensorLog ?x <= _)%Z /\ _ => set (fs1 := x)
    end.
    assert (Hl1 : lastSensorLog fs1 = now) by reflexivity.
    assert (Hs1 : sensorTimes fs1 = sensorTimes fs0) by reflexivity.
    rewrite Hl1, Hs1.
    split; [lia|]. split; [|split; [exact Hsp | left; reflexivity]].
    eapply Forall_impl; [exact Hall|]. intros t Ht. cbv beta in *. lia.
Qed.

Lemma sensorRun_invariant (calls : list SensorCall) (lo : Z) (fs : DataLoggerFiles.t) :
  nondecreasingFrom lo (map (fun c => c.1.1) calls) ->
  (0 <= lastSensorLog fs <= lo)%Z ->
  Forall (fun t => (t <= lastSensorLog fs)%Z) (sensorTimes fs) ->
  secondApart (sensorTimes fs) ->
  secondApart (sensorTimes (sensorRun calls fs)) /\
  exists new : list Z,
    sensorTimes (sensorRun calls fs) = sensorTimes fs ++ new /\
    (forall t, In t new -> In (t, true) (map fst calls)) /\
    (length new <= length calls)%nat.
Proof.
  revert lo fs. induction calls as [|c calls IH]; intros lo fs Hnd Hlast Hall Hsp.
  - split; [exact Hsp|]. exists []. rewrite app_nil_r. cbn. repeat split; [tauto | lia].
  - cbn [map] in Hnd. destruct Hnd as [Hc Hnd].
    destruct (logSensorData_invariant c lo fs Hc Hlast Hall Hsp)
      as (Hlast' & Hall' & Hsp' & Hstep).
    set (fs1 := (logSensorData c.2.1.1.1 c.2.1.1.2 c.2.1.2 c.2.2 c.1.1
                   (setFileOpens c.1.2 fs)).2) in *.
    change (sensorRun (c :: calls) fs) with (sensorRun calls fs1).
    destruct (IH c.1.1 fs1 Hnd Hlast' Hall' Hsp') as (Hfin & new & Heq & Hin & Hlen).
    split; [exact Hfin|].
    destruct Hstep as [Hs | (Hopen & Hs)]; rewrite Hs in Heq.
    + exists new. split; [exact Heq|]. split.
      * intros t Ht. cbn [map]. right. apply Hin, Ht.
      * cbn [length]. lia.
    + exists (c.1.1 :: new). split; [rewrite Heq, <- app_assoc; reflexivity|]. split.
      * intros t [<- | Ht]; cbn [map].
        -- left. destruct c as [[now opens] sample]. cbn [fst snd] in *.
           rewrite Hopen. reflexivity.
        -- right. apply Hin, Ht.
      * cbn [length]. lia.
Qed.

(** X28: sensor lines are rate limited.  Let [logSensorData] be called at
    clock readings that never go back and stay within one period of the
    32-bit millisecond counter, each call with its own outcome of opening
    the file.  Then two neighbouring lines written under /data are at least
    1000 ms apart, every line carries the clock reading of a call whose
    file opened, and there are no more lines than calls. *)
Theorem sensor_lines_one_second_apart (calls : list SensorCall) (lg : DataLogger.t) :
  nondecreasingFrom 0 (map (fun c => c.1.1) calls) ->
  let times := sensorTimes (sensorRun calls (emptyFiles lg)) in
  secondApart times /\
  (forall t, In t times -> In (t, true) (map fst calls)) /\
  (length times <= length calls)%nat.
Proof.
  intros Hnd. cbv zeta.
  assert (H1 : (0 <= lastSensorLog (emptyFiles lg) <= 0)%Z) by (cbn; lia).
  assert (H2 : Forall (fun t => (t <= lastSensorLog (emptyFiles lg))%Z)
                 (sensorTimes (emptyFiles lg))) by constructor.
  assert (H3 : secondApart (sensorTimes (emptyFiles lg)))
    by (intros l1 l2 a b Heq; destruct l1; discriminate).
  destruct (sensorRun_invariant calls 0 (emptyFiles lg) Hnd H1 H2 H3)
    as (Hsp & new & Heq & Hin & Hlen).
  change (sensorTimes (emptyFiles lg)) with (@nil Z) in Heq. cbn [app] in Heq.
  rewrite Heq in Hsp |- *. split; [exact Hsp|]. split; [exact Hin | exact Hlen].
Qed.

Lemma sensor_lines_one_second_apart_witness :
  let calls : list SensorCall :=
    [(1000%Z, true, (0, 0, 1, 1)); (2500%Z, false, (0, 0, 1, 1));
     (2600%Z, true, (0, 0, 1, 1)); (3600%Z, true, (0, 0, 1, 1))] in
  nondecreasingFrom 0 (map (fun c => c.1.1) calls) /\
  secondApart (sensorTimes (sensorRun calls (emptyFiles emptyLogger))).
Proof.
  cbv zeta.
  assert (H : nondecreasingFrom 0
                (map (fun c : SensorCall => c.1.1)
                   [(1000%Z, true, (0, 0, 1, 1)); (2500%Z, false, (0, 0, 1, 1));
                    (2600%Z, true, (0, 0, 1, 1)); (3600%Z, true, (0, 0, 1, 1))])).
  { cbn. unfold ULONG_MOD. lia. }
  split; [exact H|].
  exact (proj1 (sensor_lines_one_second_apart _ emptyLogger H)).
Defined.

Lemma filter_none {A : Type} (c : Z) (l : list (Z * A)) :
  Forall (fun p => (p.1 < c)%Z) l -> filter (fun p => ~ (p.1 < c)%Z) l = [].
Proof.
  induction l as [|p l IH]; intros H; [reflexivity|].
  apply Forall_cons in H as [Hp Hl].
  rewrite filter_cons_False by tauto. apply IH, Hl.
Qed.

(** X29: [deleteOldData] computes its cutoff in 32 bits.  With the
    retention period [daysToKeep] times 86 400 000 ms taken modulo 2^32
    (for the default of 90 days that is 3 481 032 704 ms, a little over 40
    days): while the uptime is shorter than this period the subtraction
    wraps, the cutoff day lies after today, and every file under /events
    and /data named after a day up to today is removed; once the uptime has
    reached the period, exactly the files of the days before
    (uptime - period) / 86 400 000 are removed.  /system and the logger
    itself are never touched. *)
Theorem deleteOldData_cutoff_wraps (daysToKeep now : Z) (fs : DataLoggerFiles.t) :
  let period := umul daysToKeep MS_PER_DAY in
  let fs' := (deleteOldData daysToKeep now fs).2 in
  (0 <= now < ULONG_MOD)%Z ->
  (period <= ULONG_MOD - MS_PER_DAY)%Z ->
  Forall (fun p => (p.1 <= now / MS_PER_DAY)%Z) (eventsDir fs) ->
  Forall (fun p => (p.1 <= now / MS_PER_DAY)%Z) (dataDir fs) ->
  ((now < period)%Z -> eventsDir fs' = [] /\ dataDir fs' = []) /\
  ((period <= now)%Z ->
   eventsDir fs' = filter (fun p => ~ (p.1 < (now - period) / MS_PER_DAY)%Z) (eventsDir fs) /\
   dataDir fs' = filter (fun p => ~ (p.1 < (now - period) / MS_PER_DAY)%Z) (dataDir fs)) /\
  systemDir fs' = systemDir fs /\ logger fs' = logger fs /\
  umul DATA_RETENTION_DAYS MS_PER_DAY = 3481032704%Z.
Proof.
  cbv zeta. intros Hnow Hper He Hd.
  assert (Hp : (0 <= umul daysToKeep MS_PER_DAY < ULONG_MOD)%Z)
    by (unfold umul; apply wrap32_range).
  unfold deleteOldData. cbn [snd eventsDir dataDir systemDir logger].
  set (period := umul daysToKeep MS_PER_DAY) in *. clearbody period.
  unfold MS_PER_DAY, ULONG_MOD in *.
  split; [|split; [|repeat split]].
  - intros Hlt.
    assert (Hc : (usub now period = now - period + 2 ^ 32)%Z).
    { unfold usub, wrap32, ULONG_MOD. symmetry.
      apply (Z.mod_unique _ _ (-1)); [left|]; lia. }
    rewrite Hc.
    assert (Hday : (now / 86400000 < (now - period + 2 ^ 32) / 86400000)%Z).
    { assert (H1 : ((now + 86400000) / 86400000 <= (now - period + 2 ^ 32) / 86400000)%Z)
        by (apply Z.div_le_mono; lia).
      replace (now + 86400000)%Z with (now + 1 * 86400000)%Z in H1 by lia.
      rewrite Z.div_add in H1 by lia. lia. }
    split; apply filter_none; eapply Forall_impl; try eassumption;
      intros p Hle; cbv beta in *; lia.
  - intros Hge.
    assert (Hc : (usub now period = now - period)%Z).
    { unfold usub, wrap32, ULONG_MOD. apply Z.mod_small. lia. }
    rewrite Hc. split; reflexivity.
Qed.

Lemma deleteOldData_cutoff_wraps_witness :
  let fs :=
    {| logger := emptyLogger;
       eventsDir := [(0%Z, mkEventLine 1704067200 "SYSTEM_START" "System initialized" 0 true)];
       systemDir := [];
       dataDir := [(1%Z, mkSensorLine 90000000 0 0 0 0)];
       lastSensorLog := 90000000;
       lastCleanup := 0 |} in
  eventsDir (deleteOldData 90 100000000 fs).2 = [] /\
  dataDir (deleteOldData 90 100000000 fs).2 = [].
Proof.
  cbv zeta.
  refine (proj1 (deleteOldData_cutoff_wraps 90 100000000 _ _ _ _ _) _).
  - unfold ULONG_MOD. lia.
  - vm_compute. discriminate.
  - constructor; [|constructor]. vm_compute. discriminate.
  - constructor; [|constructor]. vm_compute. discriminate.
  - vm_compute. reflexivity.
Defined.

(** ** Simulated events *)

Lemma calculateEventDuration_range (richter : R) :
  (100 <= calculateEventDuration richter <= 300000)%Z.
Proof.
  unfold calculateEventDuration, constrainZ. cbv zeta.
  repeat case_decide; lia.
Qed.

Lemma usub_uadd_cancel (c d : Z) : (0 <= d < ULONG_MOD)%Z -> usub (uadd c d) c = d.
Proof.
  intros Hd. unfold usub, uadd, wrap32.
  rewrite Zminus_mod_idemp_l.
  replace (c + d - c)%Z with d by lia. apply Z.mod_small. exact Hd.
Qed.

(** The ten synthetic samples stay below the peak the event started with. *)
Lemma simulateSample_max (pga : R) (e : EventState) (l : list nat) :
  0 <= pga -> eventMaxMagnitude e = pga -> Forall (fun i => (i <= 10)%nat) l ->
  eventMaxMagnitude (foldl (simulateSample pga) e l) = pga.
Proof.
  intros Hp. revert e. induction l as [|i l IH]; intros e He Hl; [exact He|].
  apply Forall_cons in Hl as [Hi Hl]. cbn [foldl]. apply IH; [|exact Hl].
  unfold simulateSample. cbv zeta. cbn [eventMaxMagnitude].
  rewrite He.
  assert (INR i <= 10).
  { apply le_INR in Hi.
    replace (INR 10) with 10 in Hi by (rewrite INR_IZR_INZ; reflexivity). exact Hi. }
  destruct (decide (pga * (0.8 + INR i * 0.02) > pga)) as [Hgt | _]; [nra | reflexivity].
Qed.

(** The duration of a micro event: for a Richter value from -0.5 up to 2
    the float [100 + richter * 200] lies in [0, 500) and its conversion is
    defined. *)
Lemma calculateEventDuration_micro (richter : R) :
  -0.5 <= richter < 2 ->
  (100 <= calculateEventDuration richter <= 499)%Z.
Proof.
  intros Hr. unfold calculateEventDuration. cbv zeta.
  case_decide; [|lra].
  unfold float_to_ulong, truncate. case_decide; [lra|].
  destruct (base_Int_part (100 + richter * 200)) as [Hlo Hhi].
  assert (Hge : (-1 < Int_part (100 + richter * 200))%Z) by (apply lt_IZR; lra).
  assert (Hlt : (Int_part (100 + richter * 200) < 500)%Z) by (apply lt_IZR; lra).
  rewrite wrap32_small by (unfold ULONG_MOD; lia).
  unfold constrainZ. repeat case_decide; lia.
Qed.

(** X30: what simulating a micro event records.  Take [simulateEvent] on
    its own (no call of the sensor task in between), with a Richter value
    from -0.5 up to 2, on a detector with no event running, trusted time
    and a ready logger.  It appends exactly one record to the seismic file.
    The record is well formed, its PGA is the one [calculatePGAFromRichter]
    gives for the requested Richter value, its duration is a tenth of
    [calculateEventDuration] of that value, between 10 and 49 ms and so
    below the 100 ms that a detected event lasts at least, and its source
    is "seismograph_detection", as for a detected event; the detector
    counts one more event. *)
Theorem simulateEvent_records_one_event (richter : R) (st : Seismograph) (w : World) :
  -0.5 <= richter < 2 ->
  eventActive (event st) = false ->
  timeTrusted (delay (calculateEventDuration richter / 10) w) = true ->
  loggerReady w = true ->
  let st' := (simulateEvent richter st w).1 in
  let w' := (simulateEvent richter st w).2 in
  exists r : SeismicEventData.t,
    seismicRecords w' = seismicRecords w ++ [r] /\
    recordWellFormed r /\
    SeismicEventData.pgaG r = calculatePGAFromRichter richter /\
    SeismicEventData.durationMs r = (calculateEventDuration richter / 10)%Z /\
    (10 <= SeismicEventData.durationMs r <= 49)%Z /\
    SeismicEventData.source r = "seismograph_detection"%string /\
    eventsDetected (stats st') = uadd (eventsDetected (stats st)) 1.
Proof.
  intros Hrange Ha Hv Hl. cbv zeta. unfold simulateEvent. rewrite Ha. cbn [negb].
  pose proof (calculateEventDuration_micro richter Hrange) as Hdur.
  assert (Hd10 : (10 <= calculateEventDuration richter / 10 <= 49)%Z).
  { assert (calculateEventDuration richter / 10 < 50)%Z
      by (apply Z.div_lt_upper_bound; lia).
    split; [apply Z.div_le_lower_bound; lia | lia]. }
  pose proof (calculatePGAFromRichter_range richter) as Hpga.
  match goal with
  | |- context [endEvent ?s ?w1] =>
      assert (Ha2 : eventActive (event s) = true);
      [ cbn [event set_event];
        rewrite (proj1 (simulateSample_foldl _ _ _)); reflexivity
      | destruct (endEvent_spec s w1 Ha2)
          as (t & w2 & r & Heq & Hev & _ & _ & _ & _ & Hr & _ & Hrec);
        destruct (endEvent_record s w1 Ha2) as (r' & Hwf & Hp & Hs & Hrec') ]
  end.
  rewrite Heq in Hrec'. cbn [snd] in Hrec'. rewrite Hrec in Hrec'.
  apply app_inv_head in Hrec'.
  assert (Hl1 : loggerReady (delay (calculateEventDuration richter / 10) w) = true)
    by exact Hl.
  rewrite Hv, Hl1 in Hrec', Hrec. cbn [andb] in Hrec', Hrec.
  injection Hrec' as <-.
  rewrite Heq. cbv beta iota.
  match goal with
  | |- context [processData ?d ?s ?w0] =>
      pose proof (processData_idle d s w0 eq_refl) as Hidle;
      pose proof (processData_counters d s w0) as Hcnt
  end.
  cbv zeta in Hcnt. destruct Hcnt as [Hcnt _].
  exists r. rewrite Hidle, Hcnt.
  split; [exact Hrec|]. split; [exact Hwf|].
  split.
  { rewrite Hp. cbn [event set_event]. apply simulateSample_max.
    - lra.
    - reflexivity.
    - repeat constructor. }
  assert (Hdurr : SeismicEventData.durationMs r = (calculateEventDuration richter / 10)%Z).
  { rewrite Hr. cbn [event set_event].
    rewrite (proj2 (simulateSample_foldl _ _ _)).
    cbn [startEvent event set_event eventStartTime millis delay clock].
    apply usub_uadd_cancel. unfold ULONG_MOD. lia. }
  split; [exact Hdurr|]. split; [rewrite Hdurr; exact Hd10|].
  split; [exact Hs|].
  cbn [event set_event set_stats eventActive stats].
  rewrite andb_false_r. cbn [andb].
  rewrite Hev. destruct st; reflexivity.
Qed.

Lemma simulateEvent_records_one_event_witness :
  exists r : SeismicEventData.t,
    seismicRecords (simulateEvent 1 Seismograph_new syncedWorld).2
      = seismicRecords syncedWorld ++ [r] /\
    SeismicEventData.durationMs r = (calculateEventDuration 1 / 10)%Z /\
    SeismicEventData.source r = "seismograph_detection"%string.
Proof.
  assert (H1 : eventActive (event Seismograph_new) = false) by reflexivity.
  assert (H2 : timeTrusted (delay (calculateEventDuration 1 / 10) syncedWorld) = true)
    by (rewrite calculateEventDuration_1; reflexivity).
  assert (H3 : loggerReady syncedWorld = true) by reflexivity.
  assert (H0 : -0.5 <= 1 < 2) by lra.
  destruct (simulateEvent_records_one_event 1 Seismograph_new syncedWorld H0 H1 H2 H3)
    as (r & Hrec & _ & _ & Hd & _ & Hs & _).
  exists r. split; [exact Hrec|]. split; [exact Hd | exact Hs].
Defined.
